(** * CareerCompass: the entity store, the REST routes and the dashboard
      statistics of the job-application tracker

    Sources embedded here:
    - [shared/schema.ts]   the four tables and their insert schemas;
    - [server/storage.ts]  [IStorage], [MemStorage], [PostgresStorage];
    - [server/routes.ts]   the handlers registered by [registerRoutes];
    - [client/src/components]  the parts of the client that compute on
      what the routes return: the columns of [JobBoard], the groups of
      [DocumentsList], the date label and the status buttons of
      [JobCard] and the form schema of [AddJobModal].

    JavaScript objects are finite maps from property names to values, a
    missing key being [undefined]; the [Map<number, T>] fields of
    [MemStorage] are finite maps keyed by integers; [new Date()] is an
    explicit clock reading [now] (milliseconds since the epoch) handed to
    every operation that reads the clock; a thrown exception is the
    [Throw] branch of [result]. *)

From Stdlib Require Import ZArith Lia Sorted SpecFloat DecimalString.
From stdpp Require Import base gmap strings list fin_maps sorting.

#[local] Open Scope string_scope.
#[local] Open Scope Z_scope.

(** ** JavaScript values and objects *)

(** The values that occur as properties of the entities: JSON scalars,
    [Date] objects (their time value) and arrays of strings (the [skills]
    of a user).  Numbers are the integers; nested objects do not occur in
    the entities. *)
Inductive value : Type :=
  | VNull
  | VBool (b : bool)
  | VNum (n : Z)
  | VStr (s : string)
  | VDate (t : Z)
  | VArr (l : list string).

#[global] Instance value_eq_dec : EqDecision value.
Proof. solve_decision. Defined.

Abbreviation obj := (gmap string value).

(** [ToBoolean]: what [x || d] tests. *)
Definition truthy (v : value) : bool :=
  match v with
  | VNull => false
  | VBool b => b
  | VNum n => negb (Z.eqb n 0)
  | VStr s => negb (String.eqb s "")
  | VDate _ => true
  | VArr _ => true
  end.

(** [x || d], where [x] is a property read (absent = [undefined]). *)
Definition js_or (x : option value) (d : value) : value :=
  match x with
  | Some v => if truthy v then v else d
  | None => d
  end.

(** [{ ...a, ...b }]: the keys of [b] win. *)
Definition spread (a b : obj) : obj := b ∪ a.

(** ** Exceptions *)

Inductive result (A : Type) : Type :=
  | Ok (a : A)
  | Throw (msg : string).
Arguments Ok {A} a.
Arguments Throw {A} msg.

#[global] Instance result_bind : MBind result := fun A B k r =>
  match r with
  | Ok a => k a
  | Throw m => Throw m
  end.

(** ** The storage interface ([IStorage]) *)

Class IStorage (S : Type) : Type := {
  getUser : S -> Z -> result (option obj);
  createUser : Z -> obj -> S -> result (obj * S);
  getJobApplicationsByUserId : S -> Z -> result (list obj);
  getJobApplicationById : S -> Z -> result (option obj);
  createJobApplication : Z -> obj -> S -> result (obj * S);
  updateJobApplication : Z -> Z -> obj -> S -> result (obj * S);
  deleteJobApplication : Z -> S -> result S;
  getDocumentsByUserId : S -> Z -> result (list obj);
  getDocumentById : S -> Z -> result (option obj);
  createDocument : Z -> obj -> S -> result (obj * S);
  updateDocument : Z -> Z -> obj -> S -> result (obj * S);
  deleteDocument : Z -> S -> result S;
  getInterviewsByUserId : S -> Z -> result (list obj);
  getInterviewById : S -> Z -> result (option obj);
  createInterview : Z -> obj -> S -> result (obj * S);
  updateInterview : Z -> Z -> obj -> S -> result (obj * S);
  deleteInterview : Z -> S -> result S
}.

(** ** [MemStorage] *)

Module MemStorage.

Record t : Type := mk {
  users : gmap Z obj;
  jobApplications : gmap Z obj;
  documents : gmap Z obj;
  interviews : gmap Z obj;
  userId : Z;
  jobApplicationId : Z;
  documentId : Z;
  interviewId : Z
}.

(** [constructor()] *)
Definition init : t :=
  {| users := ∅; jobApplications := ∅; documents := ∅; interviews := ∅;
     userId := 1; jobApplicationId := 1; documentId := 1; interviewId := 1 |}.

(** The order of two entries of a [Map<number, T>] by their keys. *)
Definition key_le (a b : Z * obj) : Prop := a.1 ≤ b.1.

#[global] Instance key_le_dec : RelDecision key_le.
Proof. intros a b. unfold key_le. apply _. Defined.

(** [Array.from(m.values())]: a [Map] lists its values in the order in
    which their keys were inserted.  The class inserts a key only when it
    has drawn it from a counter (an update sets a key that is there, which
    keeps its place, and a deleted key never comes back), so this is the
    order of the keys. *)
Definition values (m : gmap Z obj) : list obj :=
  (merge_sort key_le (map_to_list m)).*2.

(** [Array.from(m.values()).filter(e => e.userId === userId)] *)
Definition byUserId (m : gmap Z obj) (uid : Z) : list obj :=
  filter (fun e : obj => e !! "userId" = Some (VNum uid)) (values m).

Definition getUser (st : t) (id : Z) : option obj := users st !! id.

(** [Array.from(this.users.values()).find(user => user.username === username)] *)
Definition getUserByUsername (st : t) (username : string) : option obj :=
  List.find (fun user : obj =>
               bool_decide (user !! "username" = Some (VStr username)))
            (values (users st)).

Definition createUser (now : Z) (insertUser : obj) (st : t) : obj * t :=
  let id := userId st in
  let user :=
    <["skills" := js_or (insertUser !! "skills") VNull]>
    (<["email" := js_or (insertUser !! "email") VNull]>
    (<["fullName" := js_or (insertUser !! "fullName") VNull]>
    (<["createdAt" := VDate now]>
    (<["id" := VNum id]> insertUser)))) in
  (user,
   {| users := <[id := user]> (users st);
      jobApplications := jobApplications st;
      documents := documents st;
      interviews := interviews st;
      userId := id + 1;
      jobApplicationId := jobApplicationId st;
      documentId := documentId st;
      interviewId := interviewId st |}).

Definition set_jobApplications (m : gmap Z obj) (next : Z) (st : t) : t :=
  {| users := users st; jobApplications := m; documents := documents st;
     interviews := interviews st; userId := userId st;
     jobApplicationId := next; documentId := documentId st;
     interviewId := interviewId st |}.

Definition set_documents (m : gmap Z obj) (next : Z) (st : t) : t :=
  {| users := users st; jobApplications := jobApplications st;
     documents := m; interviews := interviews st; userId := userId st;
     jobApplicationId := jobApplicationId st; documentId := next;
     interviewId := interviewId st |}.

Definition set_interviews (m : gmap Z obj) (next : Z) (st : t) : t :=
  {| users := users st; jobApplications := jobApplications st;
     documents := documents st; interviews := m; userId := userId st;
     jobApplicationId := jobApplicationId st; documentId := documentId st;
     interviewId := next |}.

(** *** Job applications *)

Definition getJobApplicationsByUserId (st : t) (uid : Z) : list obj :=
  byUserId (jobApplications st) uid.

Definition getJobApplicationById (st : t) (id : Z) : option obj :=
  jobApplications st !! id.

Definition createJobApplication (now : Z) (application : obj) (st : t)
  : obj * t :=
  let id := jobApplicationId st in
  let newApplication :=
    <["updatedAt" := VDate now]>
    (<["appliedDate" := js_or (application !! "appliedDate") (VDate now)]>
    (<["contactInfo" := js_or (application !! "contactInfo") VNull]>
    (<["notes" := js_or (application !! "notes") VNull]>
    (<["description" := js_or (application !! "description") VNull]>
    (<["workMode" := js_or (application !! "workMode") VNull]>
    (<["jobType" := js_or (application !! "jobType") VNull]>
    (<["salary" := js_or (application !! "salary") VNull]>
    (<["location" := js_or (application !! "location") VNull]>
    (<["url" := js_or (application !! "url") VNull]>
    (<["id" := VNum id]> application)))))))))) in
  (newApplication,
   set_jobApplications (<[id := newApplication]> (jobApplications st))
                       (id + 1) st).

Definition updateJobApplication (now : Z) (id : Z) (update : obj) (st : t)
  : result (obj * t) :=
  match jobApplications st !! id with
  | None => Throw "Job application not found"
  | Some application =>
      let updatedApplication :=
        <["updatedAt" := VDate now]> (spread application update) in
      Ok (updatedApplication,
          set_jobApplications
            (<[id := updatedApplication]> (jobApplications st))
            (jobApplicationId st) st)
  end.

Definition deleteJobApplication (id : Z) (st : t) : t :=
  set_jobApplications (delete id (jobApplications st))
                      (jobApplicationId st) st.

(** *** Documents *)

Definition getDocumentsByUserId (st : t) (uid : Z) : list obj :=
  byUserId (documents st) uid.

Definition getDocumentById (st : t) (id : Z) : option obj :=
  documents st !! id.

Definition createDocument (now : Z) (document : obj) (st : t) : obj * t :=
  let id := documentId st in
  let newDocument :=
    <["updatedAt" := VDate now]>
    (<["createdAt" := VDate now]>
    (<["usageCount" := VNum 0]>
    (<["id" := VNum id]> document))) in
  (newDocument,
   set_documents (<[id := newDocument]> (documents st)) (id + 1) st).

Definition updateDocument (now : Z) (id : Z) (update : obj) (st : t)
  : result (obj * t) :=
  match documents st !! id with
  | None => Throw "Document not found"
  | Some document =>
      let updatedDocument :=
        <["updatedAt" := VDate now]> (spread document update) in
      Ok (updatedDocument,
          set_documents (<[id := updatedDocument]> (documents st))
                        (documentId st) st)
  end.

Definition deleteDocument (id : Z) (st : t) : t :=
  set_documents (delete id (documents st)) (documentId st) st.

(** *** Interviews *)

Definition getInterviewsByUserId (st : t) (uid : Z) : list obj :=
  byUserId (interviews st) uid.

Definition getInterviewById (st : t) (id : Z) : option obj :=
  interviews st !! id.

Definition createInterview (interview : obj) (st : t) : obj * t :=
  let id := interviewId st in
  let newInterview := <["id" := VNum id]> interview in
  (newInterview,
   set_interviews (<[id := newInterview]> (interviews st)) (id + 1) st).

Definition updateInterview (id : Z) (update : obj) (st : t)
  : result (obj * t) :=
  match interviews st !! id with
  | None => Throw "Interview not found"
  | Some interview =>
      let updatedInterview := spread interview update in
      Ok (updatedInterview,
          set_interviews (<[id := updatedInterview]> (interviews st))
                         (interviewId st) st)
  end.

Definition deleteInterview (id : Z) (st : t) : t :=
  set_interviews (delete id (interviews st)) (interviewId st) st.

End MemStorage.

#[global] Instance MemStorage_IStorage : IStorage MemStorage.t := {|
  getUser st id := Ok (MemStorage.getUser st id);
  createUser now u st := Ok (MemStorage.createUser now u st);
  getJobApplicationsByUserId st uid :=
    Ok (MemStorage.getJobApplicationsByUserId st uid);
  getJobApplicationById st id := Ok (MemStorage.getJobApplicationById st id);
  createJobApplication now a st :=
    Ok (MemStorage.createJobApplication now a st);
  updateJobApplication := MemStorage.updateJobApplication;
  deleteJobApplication id st := Ok (MemStorage.deleteJobApplication id st);
  getDocumentsByUserId st uid := Ok (MemStorage.getDocumentsByUserId st uid);
  getDocumentById st id := Ok (MemStorage.getDocumentById st id);
  createDocument now d st := Ok (MemStorage.createDocument now d st);
  updateDocument := MemStorage.updateDocument;
  deleteDocument id st := Ok (MemStorage.deleteDocument id st);
  getInterviewsByUserId st uid :=
    Ok (MemStorage.getInterviewsByUserId st uid);
  getInterviewById st id := Ok (MemStorage.getInterviewById st id);
  createInterview _ i st := Ok (MemStorage.createInterview i st);
  updateInterview _ := MemStorage.updateInterview;
  deleteInterview id st := Ok (MemStorage.deleteInterview id st)
|}.

(** ** [PostgresStorage] *)

(** The database behind [pool.query]: the four tables created by
    [initTables], each a finite map from the primary key [id] to a row (a
    map from column names to values, [NULL] being [VNull]), and the
    sequences of the [SERIAL] columns.  The statements of the class are
    interpreted on that state.  What the engine checks on a row before it
    writes it (column types, [VARCHAR] lengths, [NOT NULL], [UNIQUE]) is
    the parameter [accepts]; the [REFERENCES ... ON DELETE CASCADE] clauses
    of the DDL are interpreted here.  A statement that fails changes no
    table; an [INSERT] that fails may have drawn from the sequence
    ([sql_insert_refused]).  A parameter is taken in the type of the
    column it is compared with or stored in (an [id] is a 32-bit
    integer): what the database makes of any other parameter, which it
    converts or refuses, is not interpreted, and a row holds the values
    as the driver was given them. *)
Module PostgresStorage.

Abbreviation row := (gmap string value).

Inductive table : Type := Users | JobApplications | Documents | Interviews.

#[global] Instance table_eq_dec : EqDecision table.
Proof. solve_decision. Defined.

Record db : Type := mk {
  users : gmap Z row;
  job_applications : gmap Z row;
  documents : gmap Z row;
  interviews : gmap Z row;
  users_id_seq : Z;
  job_applications_id_seq : Z;
  documents_id_seq : Z;
  interviews_id_seq : Z
}.

(** The database once [initTables] has run on an empty one. *)
Definition init : db :=
  {| users := ∅; job_applications := ∅; documents := ∅; interviews := ∅;
     users_id_seq := 1; job_applications_id_seq := 1;
     documents_id_seq := 1; interviews_id_seq := 1 |}.

Definition rows (tb : table) (d : db) : gmap Z row :=
  match tb with
  | Users => users d
  | JobApplications => job_applications d
  | Documents => documents d
  | Interviews => interviews d
  end.

Definition nextval (tb : table) (d : db) : Z :=
  match tb with
  | Users => users_id_seq d
  | JobApplications => job_applications_id_seq d
  | Documents => documents_id_seq d
  | Interviews => interviews_id_seq d
  end.

(** Replace the rows of a table and its sequence. *)
Definition write (tb : table) (m : gmap Z row) (next : Z) (d : db) : db :=
  match tb with
  | Users =>
      mk m (job_applications d) (documents d) (interviews d)
         next (job_applications_id_seq d) (documents_id_seq d)
         (interviews_id_seq d)
  | JobApplications =>
      mk (users d) m (documents d) (interviews d)
         (users_id_seq d) next (documents_id_seq d) (interviews_id_seq d)
  | Documents =>
      mk (users d) (job_applications d) m (interviews d)
         (users_id_seq d) (job_applications_id_seq d) next
         (interviews_id_seq d)
  | Interviews =>
      mk (users d) (job_applications d) (documents d) m
         (users_id_seq d) (job_applications_id_seq d) (documents_id_seq d)
         next
  end.

(** *** The DDL of [initTables] *)

Inductive sqltype : Type :=
  | Varchar (n : nat)
  | Text
  | Integer
  | Timestamp
  | Boolean
  | TextArray.

Inductive ddl_default : Type :=
  | NoDefault                    (* the column is NULL when not listed *)
  | Default (v : value)          (* DEFAULT v *)
  | CurrentTimestamp.            (* DEFAULT CURRENT_TIMESTAMP *)

Record ddl_column : Type := DDL {
  ddl_name : string;
  ddl_type : sqltype;
  ddl_not_null : bool;
  ddl_dflt : ddl_default
}.

(** The columns after [id SERIAL PRIMARY KEY]. *)
Definition ddl (tb : table) : list ddl_column :=
  match tb with
  | Users =>
      [ DDL "username" (Varchar 50) true NoDefault;
        DDL "password" (Varchar 255) true NoDefault;
        DDL "full_name" (Varchar 100) false NoDefault;
        DDL "email" (Varchar 100) false NoDefault;
        DDL "skills" TextArray false NoDefault;
        DDL "created_at" Timestamp false CurrentTimestamp ]
  | JobApplications =>
      [ DDL "user_id" Integer false NoDefault;
        DDL "company" (Varchar 100) true NoDefault;
        DDL "position" (Varchar 100) true NoDefault;
        DDL "location" (Varchar 100) false NoDefault;
        DDL "salary" (Varchar 50) false NoDefault;
        DDL "job_type" (Varchar 50) false NoDefault;
        DDL "work_mode" (Varchar 50) false NoDefault;
        DDL "description" Text false NoDefault;
        DDL "notes" Text false NoDefault;
        DDL "status" (Varchar 50) false (Default (VStr "applied"));
        DDL "resume_id" Integer false NoDefault;
        DDL "cover_id" Integer false NoDefault;
        DDL "url" (Varchar 255) false NoDefault;
        DDL "contact_info" Text false NoDefault;
        DDL "applied_date" Timestamp false CurrentTimestamp;
        DDL "updated_at" Timestamp false CurrentTimestamp ]
  | Documents =>
      [ DDL "user_id" Integer false NoDefault;
        DDL "name" (Varchar 100) true NoDefault;
        DDL "type" (Varchar 50) true NoDefault;
        DDL "description" Text false NoDefault;
        DDL "content" Text true NoDefault;
        DDL "usage_count" Integer false (Default (VNum 0));
        DDL "created_at" Timestamp false CurrentTimestamp;
        DDL "updated_at" Timestamp false CurrentTimestamp ]
  | Interviews =>
      [ DDL "user_id" Integer false NoDefault;
        DDL "job_application_id" Integer false NoDefault;
        DDL "title" (Varchar 100) true NoDefault;
        DDL "date" Timestamp true NoDefault;
        DDL "notes" Text false NoDefault;
        DDL "completed" Boolean false (Default (VBool false));
        DDL "feedback" Text false NoDefault ]
  end.

(** [col INTEGER REFERENCES target(id) ON DELETE CASCADE] *)
Definition references (tb : table) : list (string * table) :=
  match tb with
  | Users => []
  | JobApplications => [ ("user_id", Users) ]
  | Documents => [ ("user_id", Users) ]
  | Interviews =>
      [ ("user_id", Users); ("job_application_id", JobApplications) ]
  end.

Definition default_value (now : Z) (dflt : ddl_default) : value :=
  match dflt with
  | NoDefault => VNull
  | Default v => v
  | CurrentTimestamp => VDate now
  end.

(** The row of defaults that an [INSERT] starts from. *)
Definition default_row (now : Z) (tb : table) (id : Z) : row :=
  foldr (fun c r => <[ddl_name c := default_value now (ddl_dflt c)]> r)
        {[ "id" := VNum id ]} (ddl tb).

Definition assign (r : row) (sets : list (string * value)) : row :=
  foldl (fun r '(c, v) => <[c := v]> r) r sets.

(** A foreign key holds when the column is not an integer (then it is
    [NULL], or the engine rejects the row) or names a row of the target. *)
Definition fk_ok (d : db) (r : row) (fk : string * table) : bool :=
  match r !! fk.1 with
  | Some (VNum n) => bool_decide (is_Some (rows fk.2 d !! n))
  | _ => true
  end.

(** [undefined] is sent as [NULL] by the driver. *)
Definition param (x : option value) : value := default VNull x.

(** An engine that takes a value only in the type of its column:
    strings of at most [n] characters for [VARCHAR(n)] (the length of an
    ASCII string), 32-bit integers, dates, booleans, [NULL] where
    [NOT NULL] is not declared, and one user per [username].  It stands
    for the database wherever a concrete one is needed. *)
Definition fits (ty : sqltype) (v : value) : bool :=
  match ty, v with
  | Varchar n, VStr s => bool_decide (String.length s ≤ n)%nat
  | Text, VStr _ => true
  | Integer, VNum n => bool_decide (-2147483648 ≤ n ≤ 2147483647)
  | Timestamp, VDate _ => true
  | Boolean, VBool _ => true
  | TextArray, VArr _ => true
  | _, _ => false
  end.

(** The type the DDL gives a column. *)
Definition column_type (tb : table) (c : string) : option sqltype :=
  ddl_type <$> List.find (fun col => bool_decide (ddl_name col = c)) (ddl tb).

(** A parameter that the database stores as the driver sends it: [NULL],
    or a value of the type of the column.  Any other value (a number for
    a [VARCHAR] column, a string for a [TIMESTAMP] column, a string
    longer than the column, ...) is converted to the type of the column
    or refused by the database; what is stored then is not told here. *)
Definition kept_as_sent (tb : table) (c : string) (v : value) : bool :=
  match v with
  | VNull => true
  | _ => from_option (fun ty => fits ty v) false (column_type tb c)
  end.

Definition column_ok (r : row) (c : ddl_column) : bool :=
  match r !! ddl_name c with
  | Some VNull => negb (ddl_not_null c)
  | Some v => fits (ddl_type c) v
  | None => false
  end.

Definition username_free (d : db) (r : row) : bool :=
  forallb (fun r' : row =>
             bool_decide (r' !! "id" = r !! "id")
             || bool_decide (r' !! "username" ≠ r !! "username"))
          (map_to_list (users d)).*2.

Definition ddl_accepts (d : db) (tb : table) (r : row) : bool :=
  forallb (column_ok r) (ddl tb)
  && match tb with Users => username_free d r | _ => true end.

Section Engine.
Variable accepts : db -> table -> row -> bool.

(** The checks on a row of which the columns [cols] are written. *)
Definition constraints_ok (d : db) (tb : table) (cols : list string)
    (r : row) : bool :=
  accepts d tb r
  && forallb (fk_ok d r)
             (filter (fun fk : string * table => fk.1 ∈ cols)
                     (references tb)).

(** [INSERT INTO tb (cols) VALUES (vals) RETURNING *] *)
Definition sql_insert (now : Z) (tb : table)
    (values : list (string * value)) (d : db) : result (row * db) :=
  let id := nextval tb d in
  let r := assign (default_row now tb id) values in
  if constraints_ok d tb (references tb).*1 r
  then Ok (r, write tb (<[id := r]> (rows tb d)) (id + 1) d)
  else Throw "insert violates a constraint".

(** The sequence after an [INSERT] that the database refused once it had
    drawn the [id]: [nextval] is not undone by the failure. *)
Definition sql_insert_refused (tb : table) (d : db) : db :=
  write tb (rows tb d) (nextval tb d + 1) d.

(** [UPDATE tb SET sets WHERE id = $n RETURNING *]; an empty [SET]
    list is a syntax error. *)
Definition sql_update (tb : table) (sets : list (string * value))
    (id : Z) (d : db) : result (option row * db) :=
  match sets with
  | [] => Throw "syntax error at or near WHERE"
  | _ =>
      match rows tb d !! id with
      | None => Ok (None, d)
      | Some r =>
          let r' := assign r sets in
          if constraints_ok d tb sets.*1 r'
          then Ok (Some r', write tb (<[id := r']> (rows tb d))
                                  (nextval tb d) d)
          else Throw "update violates a constraint"
      end
  end.

(** [DELETE FROM tb WHERE id = $1], for the three tables the class
    deletes from; the interviews of a deleted job application go with
    it ([ON DELETE CASCADE]). *)
Definition sql_delete (tb : table) (id : Z) (d : db) : db :=
  match rows tb d !! id with
  | None => d
  | Some _ =>
      let d' := write tb (delete id (rows tb d)) (nextval tb d) d in
      match tb with
      | JobApplications =>
          write Interviews
            (filter (fun kr : Z * row =>
                       kr.2 !! "job_application_id" ≠ Some (VNum id))
                    (interviews d'))
            (interviews_id_seq d') d'
      | _ => d'
      end
  end.

(** [SELECT * FROM tb WHERE id = $1] *)
Definition sql_select_by_id (tb : table) (id : Z) (d : db) : option row :=
  rows tb d !! id.

(** [SELECT * FROM tb WHERE user_id = $1] *)
Definition sql_select_by_user (tb : table) (uid : Z) (d : db) : list row :=
  filter (fun r : row => r !! "user_id" = Some (VNum uid))
         (map_to_list (rows tb d)).*2.

(** [{ key: row.column, ... }] *)
Definition project (fields : list (string * string)) (r : row) : obj :=
  foldr (fun '(k, c) o =>
           match r !! c with Some v => <[k := v]> o | None => o end)
        ∅ fields.

(** [result.rows[0]] followed by a property read. *)
Definition first_row {A} (r : option row) (k : row -> A) : result A :=
  match r with
  | Some r => Ok (k r)
  | None => Throw "TypeError: cannot read properties of undefined"
  end.

(** [if (update.key !== undefined) { setFields.push(col); values.push(..) }] *)
Definition set_if (update : obj) (key col : string)
  : list (string * value) :=
  match update !! key with
  | Some v => [ (col, v) ]
  | None => []
  end.

(** *** Users *)

Definition user_fields : list (string * string) :=
  [ ("id", "id"); ("username", "username"); ("password", "password");
    ("fullName", "full_name"); ("email", "email"); ("skills", "skills");
    ("createdAt", "created_at") ].

Definition getUser (d : db) (id : Z) : result (option obj) :=
  Ok (project user_fields <$> sql_select_by_id Users id d).

(** [SELECT * FROM users WHERE username = $1], then [result.rows[0]]. *)
Definition getUserByUsername (d : db) (username : string)
  : result (option obj) :=
  Ok (project user_fields
        <$> head (filter (fun r : row => r !! "username" = Some (VStr username))
                         (map_to_list (users d)).*2)).

Definition createUser (now : Z) (user : obj) (d : db)
  : result (obj * db) :=
  '(r, d') ← sql_insert now Users
    [ ("username", param (user !! "username"));
      ("password", param (user !! "password"));
      ("full_name", param (user !! "fullName"));
      ("email", param (user !! "email"));
      ("skills", param (user !! "skills")) ] d;
  Ok (project user_fields r, d').

(** *** Job applications *)

(** The mapping of [getJobApplicationsByUserId]. *)
Definition application_fields_list : list (string * string) :=
  [ ("id", "id"); ("userId", "user_id"); ("company", "company");
    ("position", "position"); ("location", "location");
    ("salary", "salary"); ("jobType", "job_type");
    ("workMode", "work_mode"); ("description", "description");
    ("notes", "notes"); ("status", "status");
    ("resumeId", "resume_id"); ("coverId", "cover_id"); ("url", "url");
    ("contactInfo", "contact_info"); ("appliedDate", "applied_date");
    ("updatedAt", "updated_at") ].

(** The mapping of [getJobApplicationById], [createJobApplication] and
    [updateJobApplication]: there is no [notes]. *)
Definition application_fields : list (string * string) :=
  [ ("id", "id"); ("userId", "user_id"); ("company", "company");
    ("position", "position"); ("location", "location");
    ("salary", "salary"); ("jobType", "job_type");
    ("workMode", "work_mode"); ("description", "description");
    ("url", "url"); ("status", "status");
    ("resumeId", "resume_id"); ("coverId", "cover_id");
    ("contactInfo", "contact_info"); ("appliedDate", "applied_date");
    ("updatedAt", "updated_at") ].

Definition getJobApplicationsByUserId (d : db) (uid : Z)
  : result (list obj) :=
  Ok (map (project application_fields_list)
          (sql_select_by_user JobApplications uid d)).

Definition getJobApplicationById (d : db) (id : Z) : result (option obj) :=
  Ok (project application_fields <$> sql_select_by_id JobApplications id d).

Definition createJobApplication (now : Z) (application : obj) (d : db)
  : result (obj * db) :=
  '(r, d') ← sql_insert now JobApplications
    [ ("user_id", param (application !! "userId"));
      ("company", param (application !! "company"));
      ("position", param (application !! "position"));
      ("location", param (application !! "location"));
      ("salary", param (application !! "salary"));
      ("job_type", param (application !! "jobType"));
      ("work_mode", param (application !! "workMode"));
      ("description", param (application !! "description"));
      ("url", param (application !! "url"));
      ("status", js_or (application !! "status") (VStr "applied"));
      ("resume_id", param (application !! "resumeId"));
      ("cover_id", param (application !! "coverId"));
      ("contact_info", param (application !! "contactInfo"));
      ("applied_date", js_or (application !! "appliedDate") (VDate now));
      ("updated_at", VDate now) ] d;
  Ok (project application_fields r, d').

Definition updateJobApplication (now : Z) (id : Z) (update : obj)
    (d : db) : result (obj * db) :=
  currentApp ← getJobApplicationById d id;
  match currentApp with
  | None => Throw "Job application not found"
  | Some _ =>
      let setFields :=
        (set_if update "company" "company"
        ++ set_if update "position" "position"
        ++ set_if update "location" "location"
        ++ set_if update "salary" "salary"
        ++ set_if update "jobType" "job_type"
        ++ set_if update "workMode" "work_mode"
        ++ set_if update "description" "description"
        ++ set_if update "url" "url"
        ++ set_if update "status" "status"
        ++ set_if update "resumeId" "resume_id"
        ++ set_if update "coverId" "cover_id"
        ++ set_if update "contactInfo" "contact_info"
        ++ set_if update "appliedDate" "applied_date"
        ++ [ ("updated_at", VDate now) ])%list in
      '(r, d') ← sql_update JobApplications setFields id d;
      o ← first_row r (project application_fields);
      Ok (o, d')
  end.

Definition deleteJobApplication (id : Z) (d : db) : result db :=
  Ok (sql_delete JobApplications id d).

(** *** Documents *)

Definition document_fields : list (string * string) :=
  [ ("id", "id"); ("userId", "user_id"); ("name", "name");
    ("type", "type"); ("description", "description");
    ("content", "content"); ("usageCount", "usage_count");
    ("createdAt", "created_at"); ("updatedAt", "updated_at") ].

Definition getDocumentsByUserId (d : db) (uid : Z) : result (list obj) :=
  Ok (map (project document_fields) (sql_select_by_user Documents uid d)).

Definition getDocumentById (d : db) (id : Z) : result (option obj) :=
  Ok (project document_fields <$> sql_select_by_id Documents id d).

Definition createDocument (now : Z) (document : obj) (d : db)
  : result (obj * db) :=
  '(r, d') ← sql_insert now Documents
    [ ("user_id", param (document !! "userId"));
      ("name", param (document !! "name"));
      ("type", param (document !! "type"));
      ("description", param (document !! "description"));
      ("content", param (document !! "content"));
      ("usage_count", VNum 0);
      ("created_at", VDate now);
      ("updated_at", VDate now) ] d;
  Ok (project document_fields r, d').

Definition updateDocument (now : Z) (id : Z) (update : obj) (d : db)
  : result (obj * db) :=
  currentDoc ← getDocumentById d id;
  match currentDoc with
  | None => Throw "Document not found"
  | Some _ =>
      let setFields :=
        (set_if update "name" "name"
        ++ set_if update "type" "type"
        ++ set_if update "description" "description"
        ++ set_if update "content" "content"
        ++ set_if update "usageCount" "usage_count"
        ++ [ ("updated_at", VDate now) ])%list in
      '(r, d') ← sql_update Documents setFields id d;
      o ← first_row r (project document_fields);
      Ok (o, d')
  end.

Definition deleteDocument (id : Z) (d : db) : result db :=
  Ok (sql_delete Documents id d).

(** *** Interviews *)

Definition interview_fields : list (string * string) :=
  [ ("id", "id"); ("userId", "user_id");
    ("jobApplicationId", "job_application_id"); ("title", "title");
    ("date", "date"); ("notes", "notes"); ("completed", "completed");
    ("feedback", "feedback") ].

Definition getInterviewsByUserId (d : db) (uid : Z) : result (list obj) :=
  Ok (map (project interview_fields)
          (sql_select_by_user Interviews uid d)).

Definition getInterviewById (d : db) (id : Z) : result (option obj) :=
  Ok (project interview_fields <$> sql_select_by_id Interviews id d).

Definition createInterview (now : Z) (interview : obj) (d : db)
  : result (obj * db) :=
  '(r, d') ← sql_insert now Interviews
    [ ("user_id", param (interview !! "userId"));
      ("job_application_id", param (interview !! "jobApplicationId"));
      ("title", param (interview !! "title"));
      ("date", param (interview !! "date"));
      ("notes", param (interview !! "notes"));
      ("completed", js_or (interview !! "completed") (VBool false));
      ("feedback", param (interview !! "feedback")) ] d;
  Ok (project interview_fields r, d').

Definition updateInterview (id : Z) (update : obj) (d : db)
  : result (obj * db) :=
  currentInterview ← getInterviewById d id;
  match currentInterview with
  | None => Throw "Interview not found"
  | Some _ =>
      let setFields :=
        (set_if update "title" "title"
        ++ set_if update "date" "date"
        ++ set_if update "notes" "notes"
        ++ set_if update "completed" "completed"
        ++ set_if update "feedback" "feedback")%list in
      '(r, d') ← sql_update Interviews setFields id d;
      o ← first_row r (project interview_fields);
      Ok (o, d')
  end.

Definition deleteInterview (id : Z) (d : db) : result db :=
  Ok (sql_delete Interviews id d).

End Engine.
End PostgresStorage.

(** [export const storage = new PostgresStorage()] *)
#[global] Instance PostgresStorage_IStorage
    (accepts : PostgresStorage.db -> PostgresStorage.table ->
               PostgresStorage.row -> bool)
  : IStorage PostgresStorage.db := {|
  getUser := PostgresStorage.getUser;
  createUser := PostgresStorage.createUser accepts;
  getJobApplicationsByUserId := PostgresStorage.getJobApplicationsByUserId;
  getJobApplicationById := PostgresStorage.getJobApplicationById;
  createJobApplication := PostgresStorage.createJobApplication accepts;
  updateJobApplication := PostgresStorage.updateJobApplication accepts;
  deleteJobApplication := PostgresStorage.deleteJobApplication;
  getDocumentsByUserId := PostgresStorage.getDocumentsByUserId;
  getDocumentById := PostgresStorage.getDocumentById;
  createDocument := PostgresStorage.createDocument accepts;
  updateDocument := PostgresStorage.updateDocument accepts;
  deleteDocument := PostgresStorage.deleteDocument;
  getInterviewsByUserId := PostgresStorage.getInterviewsByUserId;
  getInterviewById := PostgresStorage.getInterviewById;
  createInterview := PostgresStorage.createInterview accepts;
  updateInterview _ := PostgresStorage.updateInterview accepts;
  deleteInterview := PostgresStorage.deleteInterview
|}.

(** ** The tables and insert schemas of [shared/schema.ts] *)

Inductive coltype : Type :=
  CSerial | CInteger | CText | CBoolean | CTimestamp | CTextArray.

(** A [pgTable] column: its TypeScript key, and whether [.notNull()] and a
    default ([.default(..)], [.defaultNow()], or [serial]) are declared. *)
Record column : Type := Column {
  col_key : string;
  col_type : coltype;
  col_notNull : bool;
  col_hasDefault : bool
}.

Definition users : list column :=
  [ Column "id" CSerial true true;
    Column "username" CText true false;
    Column "password" CText true false;
    Column "fullName" CText false false;
    Column "email" CText false false;
    Column "skills" CTextArray false false;
    Column "createdAt" CTimestamp false true ].

Definition jobApplications : list column :=
  [ Column "id" CSerial true true;
    Column "userId" CInteger true false;
    Column "company" CText true false;
    Column "position" CText true false;
    Column "location" CText false false;
    Column "salary" CText false false;
    Column "jobType" CText false false;
    Column "workMode" CText false false;
    Column "description" CText false false;
    Column "notes" CText false false;
    Column "status" CText true true;
    Column "resumeId" CInteger false false;
    Column "coverId" CInteger false false;
    Column "url" CText false false;
    Column "contactInfo" CText false false;
    Column "appliedDate" CTimestamp false true;
    Column "updatedAt" CTimestamp false true ].

Definition documents : list column :=
  [ Column "id" CSerial true true;
    Column "userId" CInteger true false;
    Column "name" CText true false;
    Column "type" CText true false;
    Column "description" CText false false;
    Column "content" CText true false;
    Column "usageCount" CInteger false true;
    Column "createdAt" CTimestamp false true;
    Column "updatedAt" CTimestamp false true ].

Definition interviews : list column :=
  [ Column "id" CSerial true true;
    Column "jobApplicationId" CInteger true false;
    Column "userId" CInteger true false;
    Column "title" CText true false;
    Column "date" CTimestamp true false;
    Column "notes" CText false false;
    Column "completed" CBoolean false true;
    Column "feedback" CText false false ].

(** A zod object schema: a field may be optional (the key may be missing)
    and nullable ([null] is accepted). *)
Record zfield : Type := ZField {
  z_key : string;
  z_type : coltype;
  z_nullable : bool;
  z_optional : bool
}.

(** [createInsertSchema] of drizzle-zod (a dependency of the repository):
    a column that is nullable or has a default becomes optional, a column
    without [.notNull()] also accepts [null]; no default value is filled
    in by the schema. *)
Definition createInsertSchema (table : list column) : list zfield :=
  map (fun c =>
         ZField (col_key c) (col_type c) (negb (col_notNull c))
                (negb (col_notNull c) || col_hasDefault c)) table.

(** [.omit({ k: true, ... })] and [.pick({ k: true, ... })] *)
Definition omit (keys : list string) (schema : list zfield) : list zfield :=
  filter (fun f => z_key f ∉ keys) schema.

Definition pick (keys : list string) (schema : list zfield) : list zfield :=
  filter (fun f => z_key f ∈ keys) schema.

Definition insertUserSchema : list zfield :=
  pick ["username"; "password"; "fullName"; "email"; "skills"]
       (createInsertSchema users).

Definition insertJobApplicationSchema : list zfield :=
  omit ["id"; "updatedAt"] (createInsertSchema jobApplications).

Definition insertDocumentSchema : list zfield :=
  omit ["id"; "usageCount"; "updatedAt"] (createInsertSchema documents).

Definition insertInterviewSchema : list zfield :=
  omit ["id"] (createInsertSchema interviews).

(** The zod type test of a non-null value. *)
Definition has_type (ty : coltype) (v : value) : bool :=
  match ty, v with
  | (CSerial | CInteger), VNum _ => true
  | CText, VStr _ => true
  | CBoolean, VBool _ => true
  | CTimestamp, VDate _ => true
  | CTextArray, VArr _ => true
  | _, _ => false
  end.

(** [schema.parse(input)]: [None] stands for a thrown [ZodError]; keys that
    the schema does not name are stripped from the result. *)
Fixpoint parse (schema : list zfield) (input : obj) : option obj :=
  match schema with
  | [] => Some ∅
  | f :: fs =>
      match parse fs input with
      | None => None
      | Some rest =>
          match input !! z_key f with
          | None => if z_optional f then Some rest else None
          | Some VNull =>
              if z_nullable f then Some (<[z_key f := VNull]> rest) else None
          | Some v =>
              if has_type (z_type f) v then Some (<[z_key f := v]> rest)
              else None
          end
      end
  end.

(** ** The routes of [registerRoutes] *)

Record stats : Type := Stats {
  totalApplications : Z;
  interviewsScheduled : Z;
  responseRate : option Z;      (* [None]: not a finite number *)
  daysInSearch : option Z;      (* [None] is [NaN] *)
  by_applied : Z;
  by_interview : Z;
  by_offer : Z;
  by_rejected : Z
}.

Inductive payload : Type :=
  | Message (m : string)        (* [{ message: m }] *)
  | ValidationMessage           (* [{ message: fromZodError(e).message }] *)
  | Json (o : obj)
  | JsonList (l : list obj)
  | JsonStats (s : stats)
  | Empty.

Record response : Type := Response { status : Z; body : payload }.

Section Routes.
Context {S : Type} `{!IStorage S}.

(** [isAuthenticated]: [user] is [req.user.id] of an authenticated
    session, [None] when [req.isAuthenticated()] is false. *)
Definition isAuthenticated (user : option Z)
    (next : Z -> S -> response * S) (st : S) : response * S :=
  match user with
  | Some uid => next uid st
  | None => (Response 401 (Message "Unauthorized"), st)
  end.

(** [try { ... } catch (error) { res.status(500).json({ message }) }] *)
Definition try_catch (st : S) (message : string)
    (r : result (response * S)) : response * S :=
  match r with
  | Ok x => x
  | Throw _ => (Response 500 (Message message), st)
  end.

(** [handleZodError] on a [ZodError]. *)
Definition handleZodError : response := Response 400 ValidationMessage.

(** *** Job applications *)

Definition get_applications (user : option Z) : S -> response * S :=
  isAuthenticated user (fun uid st =>
    try_catch st "Failed to fetch applications"
      (applications ← getJobApplicationsByUserId st uid;
       Ok (Response 200 (JsonList applications), st))).

Definition post_applications (now : Z) (user : option Z) (body : obj)
  : S -> response * S :=
  isAuthenticated user (fun uid st =>
    match parse insertJobApplicationSchema (<["userId" := VNum uid]> body) with
    | None => (handleZodError, st)
    | Some data =>
        try_catch st "Internal server error"
          ('(newApplication, st') ← createJobApplication now data st;
           Ok (Response 201 (Json newApplication), st'))
    end).

Definition patch_application (now : Z) (user : option Z) (id : Z)
    (body : obj) : S -> response * S :=
  isAuthenticated user (fun uid st =>
    try_catch st "Failed to update application"
      (application ← getJobApplicationById st id;
       match application with
       | None => Ok (Response 404 (Message "Application not found"), st)
       | Some application =>
           if bool_decide (application !! "userId" ≠ Some (VNum uid))
           then Ok (Response 403 (Message "Forbidden"), st)
           else
             '(updatedApplication, st') ←
               updateJobApplication now id body st;
             Ok (Response 200 (Json updatedApplication), st')
       end)).

Definition delete_application (user : option Z) (id : Z)
  : S -> response * S :=
  isAuthenticated user (fun uid st =>
    try_catch st "Failed to delete application"
      (application ← getJobApplicationById st id;
       match application with
       | None => Ok (Response 404 (Message "Application not found"), st)
       | Some application =>
           if bool_decide (application !! "userId" ≠ Some (VNum uid))
           then Ok (Response 403 (Message "Forbidden"), st)
           else
             st' ← deleteJobApplication id st;
             Ok (Response 204 Empty, st')
       end)).

(** *** Documents *)

Definition get_documents (user : option Z) : S -> response * S :=
  isAuthenticated user (fun uid st =>
    try_catch st "Failed to fetch documents"
      (docs ← getDocumentsByUserId st uid;
       Ok (Response 200 (JsonList docs), st))).

Definition post_documents (now : Z) (user : option Z) (body : obj)
  : S -> response * S :=
  isAuthenticated user (fun uid st =>
    match parse insertDocumentSchema (<["userId" := VNum uid]> body) with
    | None => (handleZodError, st)
    | Some data =>
        try_catch st "Internal server error"
          ('(newDocument, st') ← createDocument now data st;
           Ok (Response 201 (Json newDocument), st'))
    end).

Definition patch_document (now : Z) (user : option Z) (id : Z)
    (body : obj) : S -> response * S :=
  isAuthenticated user (fun uid st =>
    try_catch st "Failed to update document"
      (document ← getDocumentById st id;
       match document with
       | None => Ok (Response 404 (Message "Document not found"), st)
       | Some document =>
           if bool_decide (document !! "userId" ≠ Some (VNum uid))
           then Ok (Response 403 (Message "Forbidden"), st)
           else
             '(updatedDocument, st') ← updateDocument now id body st;
             Ok (Response 200 (Json updatedDocument), st')
       end)).

Definition delete_document (user : option Z) (id : Z)
  : S -> response * S :=
  isAuthenticated user (fun uid st =>
    try_catch st "Failed to delete document"
      (document ← getDocumentById st id;
       match document with
       | None => Ok (Response 404 (Message "Document not found"), st)
       | Some document =>
           if bool_decide (document !! "userId" ≠ Some (VNum uid))
           then Ok (Response 403 (Message "Forbidden"), st)
           else
             st' ← deleteDocument id st;
             Ok (Response 204 Empty, st')
       end)).

(** *** Interviews *)

Definition get_interviews (user : option Z) : S -> response * S :=
  isAuthenticated user (fun uid st =>
    try_catch st "Failed to fetch interviews"
      (l ← getInterviewsByUserId st uid;
       Ok (Response 200 (JsonList l), st))).

Definition post_interviews (now : Z) (user : option Z) (body : obj)
  : S -> response * S :=
  isAuthenticated user (fun uid st =>
    match parse insertInterviewSchema (<["userId" := VNum uid]> body) with
    | None => (handleZodError, st)
    | Some data =>
        try_catch st "Internal server error"
          ('(newInterview, st') ← createInterview now data st;
           Ok (Response 201 (Json newInterview), st'))
    end).

Definition patch_interview (now : Z) (user : option Z) (id : Z)
    (body : obj) : S -> response * S :=
  isAuthenticated user (fun uid st =>
    try_catch st "Failed to update interview"
      (interview ← getInterviewById st id;
       match interview with
       | None => Ok (Response 404 (Message "Interview not found"), st)
       | Some interview =>
           if bool_decide (interview !! "userId" ≠ Some (VNum uid))
           then Ok (Response 403 (Message "Forbidden"), st)
           else
             '(updatedInterview, st') ← updateInterview now id body st;
             Ok (Response 200 (Json updatedInterview), st')
       end)).

Definition delete_interview (user : option Z) (id : Z)
  : S -> response * S :=
  isAuthenticated user (fun uid st =>
    try_catch st "Failed to delete interview"
      (interview ← getInterviewById st id;
       match interview with
       | None => Ok (Response 404 (Message "Interview not found"), st)
       | Some interview =>
           if bool_decide (interview !! "userId" ≠ Some (VNum uid))
           then Ok (Response 403 (Message "Forbidden"), st)
           else
             st' ← deleteInterview id st;
             Ok (Response 204 Empty, st')
       end)).

End Routes.

(** ** Dashboard statistics ([GET /api/stats]) *)

(** A JavaScript number is an IEEE 754 double: a [spec_float] of the
    [binary64] format, with the operations of [SpecFloat], which round to
    nearest, ties to even. *)
Abbreviation number := spec_float.

Definition prec : Z := 53.
Definition emax : Z := 1024.

(** The double nearest to an integer (exact below 2^53). *)
Definition Number (n : Z) : number := binary_normalize prec emax n 0 false.

(** [x / y] and [x * y] *)
Definition divide : number -> number -> number := SFdiv prec emax.
Definition times : number -> number -> number := SFmul prec emax.

(** [Math.round(x)]: the integer nearest to the value of the double [x],
    a tie going up; [None] when [x] is [NaN] or infinite. *)
Definition Math_round (x : number) : option Z :=
  match x with
  | S754_zero _ => Some 0
  | S754_finite s m e =>
      let n := if s then Zneg m else Zpos m in
      Some match e with
           | Zneg k => (2 * n + 2 ^ Zpos k) / (2 * 2 ^ Zpos k)
           | _ => n * 2 ^ e
           end
  | _ => None
  end.

(** [Math.floor(x)]: the greatest integer not above the value of the
    double [x]; [None] when [x] is [NaN] or infinite. *)
Definition Math_floor (x : number) : option Z :=
  match x with
  | S754_zero _ => Some 0
  | S754_finite s m e =>
      let n := if s then Zneg m else Zpos m in
      Some match e with
           | Zneg k => n / 2 ^ Zpos k
           | _ => n * 2 ^ e
           end
  | _ => None
  end.

(** [TimeClip]: a time value beyond 8.64e15 ms is an invalid date. *)
Definition TimeClip (n : Z) : option Z :=
  if bool_decide (Z.abs n ≤ 8640000000000000) then Some n else None.

Section Stats.
(** [Date.parse] on a string (implemented by the JavaScript engine). *)
Variable Date_parse : string -> option Z.

(** [new Date(v).getTime()] for a property read [v]. *)
Definition Date_getTime (v : option value) : option Z :=
  match v with
  | None => None
  | Some VNull => Some 0
  | Some (VBool b) => Some (if b then 1 else 0)
  | Some (VNum n) => TimeClip n
  | Some (VStr s) => Date_parse s
  | Some (VDate t) => Some t
  | Some (VArr l) => Date_parse (String.concat "," l)
  end.

(** [Math.min(a, b)]: [NaN] if either is. *)
Definition min_time (a b : option Z) : option Z :=
  match a, b with
  | Some x, Some y => Some (Z.min x y)
  | _, _ => None
  end.

(** [Math.min(...dates)] for a non-empty [dates = d :: ds]. *)
Definition Math_min (d : option Z) (ds : list (option Z)) : option Z :=
  foldl min_time d ds.

(** [applications.filter(app => app.status === s).length] *)
Definition count_status (s : string) (applications : list obj) : Z :=
  Z.of_nat (length
    (filter (fun app : obj => app !! "status" = Some (VStr s)) applications)).

(** The body of the handler, after the two reads of the store. *)
Definition computeStats (now : Z) (applications interviews : list obj)
  : stats :=
  let totalApplications := Z.of_nat (length applications) in
  let interviewsScheduled := Z.of_nat (length interviews) in
  let applied := count_status "applied" applications in
  let interview := count_status "interview" applications in
  let offer := count_status "offer" applications in
  let rejected := count_status "rejected" applications in
  let responseRate :=
    if bool_decide (totalApplications > 0)
    then Math_round
           (times (divide (Number (interview + offer))
                          (Number totalApplications))
                  (Number 100))
    else Some 0 in
  let daysInSearch :=
    match map (fun app : obj => Date_getTime (app !! "appliedDate"))
              applications with
    | [] => Some 0
    | d :: ds =>
        earliestDate ← Math_min d ds;
        let timeDiff := Number (now - earliestDate) in
        Math_floor (divide timeDiff (Number (1000 * 3600 * 24)))
    end in
  Stats totalApplications interviewsScheduled responseRate daysInSearch
        applied interview offer rejected.

Definition get_stats {S : Type} `{!IStorage S} (now : Z) (user : option Z)
  : S -> response * S :=
  isAuthenticated user (fun uid st =>
    try_catch st "Failed to fetch statistics"
      (applications ← getJobApplicationsByUserId st uid;
       interviews ← getInterviewsByUserId st uid;
       Ok (Response 200
             (JsonStats (computeStats now applications interviews)), st))).

End Stats.

(** ** Operations by entity kind, and sequences of operations *)

Inductive entity : Type := Application | Document | Interview.

#[global] Instance entity_eq_dec : EqDecision entity.
Proof. solve_decision. Defined.

Inductive op : Type :=
  | CreateUser (fields : obj)
  | Create (e : entity) (fields : obj)
  | Update (e : entity) (id : Z) (partial : obj)
  | Delete (e : entity) (id : Z).

Section Operations.
Context {S : Type} `{!IStorage S}.

Definition get_entity (e : entity) : S -> Z -> result (option obj) :=
  match e with
  | Application => getJobApplicationById
  | Document => getDocumentById
  | Interview => getInterviewById
  end.

Definition create_entity (e : entity) : Z -> obj -> S -> result (obj * S) :=
  match e with
  | Application => createJobApplication
  | Document => createDocument
  | Interview => createInterview
  end.

Definition update_entity (e : entity)
  : Z -> Z -> obj -> S -> result (obj * S) :=
  match e with
  | Application => updateJobApplication
  | Document => updateDocument
  | Interview => updateInterview
  end.

Definition delete_entity (e : entity) : Z -> S -> result S :=
  match e with
  | Application => deleteJobApplication
  | Document => deleteDocument
  | Interview => deleteInterview
  end.

Definition patch_route (e : entity)
  : Z -> option Z -> Z -> obj -> S -> response * S :=
  match e with
  | Application => patch_application
  | Document => patch_document
  | Interview => patch_interview
  end.

Definition delete_route (e : entity) : option Z -> Z -> S -> response * S :=
  match e with
  | Application => delete_application
  | Document => delete_document
  | Interview => delete_interview
  end.

Definition not_found (e : entity) : string :=
  match e with
  | Application => "Application not found"
  | Document => "Document not found"
  | Interview => "Interview not found"
  end.

(** One call of the store at clock reading [now]: the entity it created,
    if it is a create, and the store afterwards.  A call that throws
    leaves the store as it was. *)
Definition step (now : Z) (o : op) (st : S) : option obj * S :=
  match o with
  | CreateUser fields =>
      match createUser now fields st with
      | Ok (u, st') => (Some u, st')
      | Throw _ => (None, st)
      end
  | Create e fields =>
      match create_entity e now fields st with
      | Ok (x, st') => (Some x, st')
      | Throw _ => (None, st)
      end
  | Update e id partial =>
      match update_entity e now id partial st with
      | Ok (_, st') => (None, st')
      | Throw _ => (None, st)
      end
  | Delete e id =>
      match delete_entity e id st with
      | Ok st' => (None, st')
      | Throw _ => (None, st)
      end
  end.

(** A sequence of calls, each with its clock reading. *)
Fixpoint run (ops : list (Z * op)) (st : S) : S :=
  match ops with
  | [] => st
  | (now, o) :: rest => run rest (step now o st).2
  end.

(** The counter an operation draws from: [Some None] for a user,
    [Some (Some e)] for an entity of kind [e], [None] if it creates
    nothing. *)
Definition creates (o : op) : option (option entity) :=
  match o with
  | CreateUser _ => Some None
  | Create e _ => Some (Some e)
  | _ => None
  end.

End Operations.

(** Sequences of calls, for a given way [stepf] of making one call. *)
Section Runs.
Context {S : Type}.
Variable stepf : Z -> op -> S -> option obj * S.

Fixpoint run_by (ops : list (Z * op)) (st : S) : S :=
  match ops with
  | [] => st
  | (now, o) :: rest => run_by rest (stepf now o st).2
  end.

(** The entities created for kind [k] ([None]: the users) along a
    sequence of calls, in the order of the calls. *)
Fixpoint created_by (k : option entity) (ops : list (Z * op)) (st : S)
  : list obj :=
  match ops with
  | [] => []
  | (now, o) :: rest =>
      ((if bool_decide (creates o = Some k)
        then option_list (stepf now o st).1 else [])
       ++ created_by k rest (stepf now o st).2)%list
  end.

End Runs.

(** The calls of a sequence that create an entity of kind [k]. *)
Definition create_calls (k : option entity) (ops : list (Z * op))
  : list (Z * op) :=
  filter (fun p : Z * op => creates p.2 = Some k) ops.

(** * Sample data and the notions the properties are stated with *)

(** The payload of the specification's scenario. *)
Definition acme : obj :=
  {[ "company" := VStr "Acme"; "position" := VStr "Engineer" ]}.

(** The in-memory store after user 1 has posted [acme]. *)
Definition mem_one_application : MemStorage.t :=
  (post_applications 1000 (Some 1) acme MemStorage.init).2.

(** The record it holds under id 1. *)
Definition acme_stored : obj :=
  (MemStorage.createJobApplication 1000 (<["userId" := VNum 1]> acme)
     MemStorage.init).1.

(** The table that holds the entities of a kind. *)
Definition pg_table (e : entity) : PostgresStorage.table :=
  match e with
  | Application => PostgresStorage.JobApplications
  | Document => PostgresStorage.Documents
  | Interview => PostgresStorage.Interviews
  end.

(** The table a call inserts into. *)
Definition pg_inserts_into (o : op) : option PostgresStorage.table :=
  match o with
  | CreateUser _ => Some PostgresStorage.Users
  | Create e _ => Some (pg_table e)
  | _ => None
  end.

(** One call of the database store.  It is [step], except that the
    [INSERT] of a create that the database refuses may have drawn its
    [id] from the sequence before it failed: [skips d o] tells whether
    the refused [INSERT] of call [o] in state [d] had. *)
Definition pg_step
    (accepts : PostgresStorage.db -> PostgresStorage.table ->
               PostgresStorage.row -> bool)
    (skips : PostgresStorage.db -> op -> bool)
    (now : Z) (o : op) (d : PostgresStorage.db)
  : option obj * PostgresStorage.db :=
  let r := @step _ (PostgresStorage_IStorage accepts) now o d in
  match r.1, pg_inserts_into o with
  | None, Some tb =>
      (None, if skips d o then PostgresStorage.sql_insert_refused tb r.2
             else r.2)
  | _, _ => r
  end.

(** The counter behind the identifiers of a kind ([None]: users) in the
    in-memory store, and the sequence behind them in the database. *)
Definition mem_counter (k : option entity) (st : MemStorage.t) : Z :=
  match k with
  | None => MemStorage.userId st
  | Some Application => MemStorage.jobApplicationId st
  | Some Document => MemStorage.documentId st
  | Some Interview => MemStorage.interviewId st
  end.

Definition pg_counter (k : option entity) (d : PostgresStorage.db) : Z :=
  PostgresStorage.nextval
    (match k with None => PostgresStorage.Users | Some e => pg_table e end) d.

(** The [updatedAt] of the entity [id], read back through the interface. *)
Definition updatedAt_of {S : Type} `{!IStorage S} (e : entity) (st : S)
    (id : Z) : option value :=
  match get_entity e st id with
  | Ok (Some x) => x !! "updatedAt"
  | _ => None
  end.

(** The clock readings of a sequence of calls never go back, starting
    from [T]. *)
Fixpoint clock_ok (T : Z) (ops : list (Z * op)) : Prop :=
  match ops with
  | [] => True
  | (now, _) :: rest => T <= now /\ clock_ok now rest
  end.

(** A store stamps its writes: the job application or document returned
    by a successful create or update carries the clock reading of the
    call as [updatedAt], and it is what the store holds afterwards. *)
Definition stamps_updatedAt (S : Type) `{!IStorage S} : Prop :=
  forall e now st x st', e ≠ Interview ->
    (forall fields,
        create_entity e now fields st = Ok (x, st') ->
        x !! "updatedAt" = Some (VDate now)
        /\ exists id, x !! "id" = Some (VNum id)
                      /\ get_entity e st' id = Ok (Some x))
    /\ (forall id partial,
          update_entity e now id partial st = Ok (x, st') ->
          x !! "updatedAt" = Some (VDate now)
          /\ get_entity e st' id = Ok (Some x)).

(** Along calls whose clock readings never go back, the [updatedAt] of a
    job application or document never goes back. *)
Definition updatedAt_monotone (S : Type) `{!IStorage S} (init : S) : Prop :=
  forall T ops1 ops2 e id t t', e ≠ Interview ->
    clock_ok T (ops1 ++ ops2) ->
    updatedAt_of e (run ops1 init) id = Some (VDate t) ->
    updatedAt_of e (run ops2 (run ops1 init)) id = Some (VDate t') ->
    t <= t'.

(** No job application or document of the store carries an [updatedAt]
    later than [T]. *)
Definition bounded {S : Type} `{!IStorage S} (st : S) (T : Z) : Prop :=
  forall e id t, e ≠ Interview ->
    updatedAt_of e st id = Some (VDate t) -> t <= T.

(** The columns a read of one entity of a kind selects. *)
Definition pg_fields (e : entity) : list (string * string) :=
  match e with
  | Application => PostgresStorage.application_fields
  | Document => PostgresStorage.document_fields
  | Interview => PostgresStorage.interview_fields
  end.

(** A payload that carries an [updatedAt] of its own. *)
Definition stale : obj := <["updatedAt" := VDate 5]> acme.

(** Where the discarded part [r / d] of a quotient lies. *)
Definition loc_ok (l : location) (r d : Z) : Prop :=
  match l with
  | loc_Exact => r = 0
  | loc_Inexact Lt => 0 < 2 * r < d
  | loc_Inexact Eq => 2 * r = d
  | loc_Inexact Gt => d < 2 * r < 2 * d
  end.

(** The second half of [binary_round_aux]. *)
Definition finish_round (s : bool) (mr e : Z) : spec_float :=
  let '(mrs, e') := shr_fexp prec emax mr e loc_Exact in
  match shr_m mrs with
  | Z0 => S754_zero s
  | Zpos m => if Z.leb e' (emax - prec) then S754_finite s m e'
              else S754_infinity s
  | _ => S754_nan
  end.

(** The divisor of [daysInSearch]: a day in milliseconds. *)
Definition day : Z := 1000 * 3600 * 24.

(** The percentage as the handler computes it, in doubles. *)
Definition percentage (responded total : Z) : option Z :=
  Math_round (times (divide (Number responded) (Number total)) (Number 100)).

(** The integer nearest to the exact percentage, a tie going up. *)
Definition nearest_percentage (responded total : Z) : Z :=
  (200 * responded + total) / (2 * total).

(** Forty applications of user 1, twenty-three of which reached an
    interview. *)
Definition mem_forty_applications : MemStorage.t :=
  run (replicate 23
         (0, Create Application
               (<["userId" := VNum 1]>
                  (<["status" := VStr "interview"]> acme)))
       ++ replicate 17
            (0, Create Application
                  (<["userId" := VNum 1]>
                     (<["status" := VStr "applied"]> acme))))
      MemStorage.init.

(** Three applications of user 1, sent one, two and three days after the
    epoch, one of which reached an interview. *)
Definition mem_three_applications : MemStorage.t :=
  run [ (86400000,
         Create Application
           (<["userId" := VNum 1]>
             (<["status" := VStr "interview"]>
               (<["appliedDate" := VDate 86400000]> acme))));
        (2 * 86400000,
         Create Application
           (<["userId" := VNum 1]>
             (<["status" := VStr "applied"]>
               (<["appliedDate" := VDate (2 * 86400000)]> acme))));
        (3 * 86400000,
         Create Application
           (<["userId" := VNum 1]>
             (<["status" := VStr "applied"]>
               (<["appliedDate" := VDate (3 * 86400000)]> acme)))) ]
      MemStorage.init.

(** What [parse] checks of one field. *)
Definition field_ok (input : obj) (f : zfield) : bool :=
  match input !! z_key f with
  | None => z_optional f
  | Some VNull => z_nullable f
  | Some v => has_type (z_type f) v
  end.

(** The database whose engine enforces what the DDL of [initTables]
    declares. *)
Abbreviation ddl_engine := (PostgresStorage_IStorage PostgresStorage.ddl_accepts).

(** A registration payload. *)
Definition alice : obj :=
  {[ "username" := VStr "alice"; "password" := VStr "secret" ]}.

(** The database after [alice] has registered (user 1) and posted [acme]
    (job application 1). *)
Definition pg_one_application : PostgresStorage.db :=
  (@post_applications _ ddl_engine 1000 (Some 1) acme
     (@step _ ddl_engine 500 (CreateUser alice) PostgresStorage.init).2).2.

(** An interview payload for a job application of user 1. *)
Definition interview_for (application : Z) : obj :=
  {[ "jobApplicationId" := VNum application; "userId" := VNum 1;
     "title" := VStr "Phone screen"; "date" := VDate 5000 ]}.

(** * Further notions: what the stores keep, the remaining routes, the client *)

(** The map of [MemStorage] that holds the entities of a kind. *)
Definition mem_entities (e : entity) (st : MemStorage.t) : gmap Z obj :=
  match e with
  | Application => MemStorage.jobApplications st
  | Document => MemStorage.documents st
  | Interview => MemStorage.interviews st
  end.

(** Every identifier in use lies below the counter of its kind. *)
Definition ids_below_counter {S : Type} `{!IStorage S}
    (counter : option entity -> S -> Z) (st : S) : Prop :=
  forall e id x, get_entity e st id = Ok (Some x) -> id < counter (Some e) st.

(** A create keeps what the store holds: the new entity is stored under
    an identifier that was not in use, and every entity stored before is
    still stored, as it was. *)
Definition create_keeps {S : Type} `{!IStorage S} (st : S) : Prop :=
  forall e now fields x st',
    create_entity e now fields st = Ok (x, st') ->
    exists id,
      x !! "id" = Some (VNum id)
      /\ get_entity e st id = Ok None
      /\ get_entity e st' id = Ok (Some x)
      /\ forall e' id' y, get_entity e' st id' = Ok (Some y) ->
                          get_entity e' st' id' = Ok (Some y).

(** Every key of a table lies below the sequence of the table. *)
Definition keys_below_sequence (d : PostgresStorage.db) : Prop :=
  forall tb id, is_Some (PostgresStorage.rows tb d !! id) ->
                id < PostgresStorage.nextval tb d.

Section MoreOperations.
Context {S : Type} `{!IStorage S}.

Definition list_entities (e : entity) : S -> Z -> result (list obj) :=
  match e with
  | Application => getJobApplicationsByUserId
  | Document => getDocumentsByUserId
  | Interview => getInterviewsByUserId
  end.

Definition get_route (e : entity) : option Z -> S -> response * S :=
  match e with
  | Application => get_applications
  | Document => get_documents
  | Interview => get_interviews
  end.

Definition post_route (e : entity)
  : Z -> option Z -> obj -> S -> response * S :=
  match e with
  | Application => post_applications
  | Document => post_documents
  | Interview => post_interviews
  end.

End MoreOperations.

(** The insert schema a create route parses the body with. *)
Definition insert_schema (e : entity) : list zfield :=
  match e with
  | Application => insertJobApplicationSchema
  | Document => insertDocumentSchema
  | Interview => insertInterviewSchema
  end.

(** The columns that the list of a kind selects. *)
Definition pg_list_fields (e : entity) : list (string * string) :=
  match e with
  | Application => PostgresStorage.application_fields_list
  | Document => PostgresStorage.document_fields
  | Interview => PostgresStorage.interview_fields
  end.

(** What a DELETE by the owner does, seen through the routes and the
    reads by id: 204, then the entity is gone, the other entities of the
    kind are as they were, and a second DELETE answers 404. *)
Definition delete_then_gone {S : Type} `{!IStorage S} (st : S) : Prop :=
  forall e uid id x,
    get_entity e st id = Ok (Some x) ->
    x !! "userId" = Some (VNum uid) ->
    exists st',
      delete_route e (Some uid) id st = (Response 204 Empty, st')
      /\ get_entity e st' id = Ok None
      /\ (forall id', id' ≠ id -> get_entity e st' id' = get_entity e st id')
      /\ forall caller,
           delete_route e (Some caller) id st'
           = (Response 404 (Message (not_found e)), st').

(** Referential integrity: every foreign key of every row names a row of
    the table it references (or is not an integer). *)
Definition references_hold (d : PostgresStorage.db) : Prop :=
  forall tb id r fk,
    PostgresStorage.rows tb d !! id = Some r ->
    fk ∈ PostgresStorage.references tb ->
    PostgresStorage.fk_ok d r fk = true.

(** The properties an update can write, with their columns, in the order
    of the tests [if (update.key !== undefined)] of the update methods. *)
Definition updatable (e : entity) : list (string * string) :=
  match e with
  | Application =>
      [ ("company", "company"); ("position", "position");
        ("location", "location"); ("salary", "salary");
        ("jobType", "job_type"); ("workMode", "work_mode");
        ("description", "description"); ("url", "url");
        ("status", "status"); ("resumeId", "resume_id");
        ("coverId", "cover_id"); ("contactInfo", "contact_info");
        ("appliedDate", "applied_date") ]
  | Document =>
      [ ("name", "name"); ("type", "type"); ("description", "description");
        ("content", "content"); ("usageCount", "usage_count") ]
  | Interview =>
      [ ("title", "title"); ("date", "date"); ("notes", "notes");
        ("completed", "completed"); ("feedback", "feedback") ]
  end.

(** The [SET] list an update builds. *)
Definition set_fields (e : entity) (now : Z) (update : obj)
  : list (string * value) :=
  (flat_map (fun p => PostgresStorage.set_if update p.1 p.2) (updatable e)
   ++ match e with
      | Interview => []
      | _ => [ ("updated_at", VDate now) ]
      end)%list.

(** A database with one job application and one interview, and an
    engine that accepts every row. *)
Definition accept_all (d : PostgresStorage.db) (tb : PostgresStorage.table)
    (r : PostgresStorage.row) : bool := true.

Definition pg_small : PostgresStorage.db :=
  PostgresStorage.mk
    {[ 1 := {[ "id" := VNum 1; "username" := VStr "alice" ]} ]}
    {[ 1 := {[ "id" := VNum 1; "user_id" := VNum 1;
               "company" := VStr "Acme"; "status" := VStr "applied";
               "notes" := VStr "n" ]} ]}
    ∅
    {[ 1 := {[ "id" := VNum 1; "user_id" := VNum 1;
               "job_application_id" := VNum 1; "title" := VStr "Call" ]} ]}
    2 2 1 2.

(** The properties a create route requires of the body (the owner is
    added by the route). *)
Definition required (e : entity) : list string :=
  match e with
  | Application => ["company"; "position"]
  | Document => ["name"; "type"; "content"]
  | Interview => ["jobApplicationId"; "title"; "date"]
  end.

(** A body that [express.json()] can produce: JSON has no dates. *)
Definition is_json (body : obj) : Prop :=
  forall k t, body !! k ≠ Some (VDate t).

(** The four statuses the dashboard and the board know. *)
Definition statuses : list string :=
  ["applied"; "interview"; "offer"; "rejected"].

(** A job application whose status is one of the four. *)
Definition known_status (app : obj) : Prop :=
  app !! "status" ∈ (fun s => Some (VStr s)) <$> statuses.

#[global] Instance known_status_dec app : Decision (known_status app).
Proof. unfold known_status. apply _. Defined.

(** ** The client: the board, the document list and the cards *)

(** [`${n}`] for a number that is an integer or [NaN]. *)
Definition Number_toString (n : option Z) : string :=
  match n with
  | Some z => NilZero.string_of_int (Z.to_int z)
  | None => "NaN"
  end.

(** [JobBoard] ([client/src/components/job/job-board.tsx]) *)
Module JobBoard.

(** [jobs?.filter(job => job.status === status) || []] *)
Definition column (status : string) (jobs : option (list obj)) : list obj :=
  match jobs with
  | Some jobs =>
      filter (fun job : obj => job !! "status" = Some (VStr status)) jobs
  | None => []
  end.

Definition appliedJobs := column "applied".
Definition interviewJobs := column "interview".
Definition offerJobs := column "offer".
Definition rejectedJobs := column "rejected".

End JobBoard.

(** [DocumentsList] ([client/src/components/documents]) *)
Module DocumentsList.

Definition resumeDocuments (documents : option (list obj)) : list obj :=
  match documents with
  | Some docs =>
      filter (fun doc : obj => doc !! "type" = Some (VStr "resume")) docs
  | None => []
  end.

Definition coverLetterDocuments (documents : option (list obj)) : list obj :=
  match documents with
  | Some docs =>
      filter (fun doc : obj => doc !! "type" = Some (VStr "cover_letter")) docs
  | None => []
  end.

(** [!["resume", "cover_letter"].includes(doc.type)] *)
Definition otherDocuments (documents : option (list obj)) : list obj :=
  match documents with
  | Some docs =>
      filter (fun doc : obj =>
                doc !! "type" ∉ [Some (VStr "resume");
                                 Some (VStr "cover_letter")]) docs
  | None => []
  end.

End DocumentsList.

(** [JobCard] ([client/src/components/job/job-card.tsx]) *)
Module JobCard.



Section FormatDate.
Variable Date_parse : string -> option Z.

(** [formatDate(dateString)] at the clock reading [now]. *)
Definition formatDate (now : Z) (dateString : option value) : string :=
  match dateString with
  | None => ""
  | Some v =>
      if negb (truthy v) then ""
      else
        let date := Date_getTime Date_parse (Some v) in
        let diffDays :=
          t ← date;
          Math_floor (divide (Number (now - t))
                             (Number (1000 * 60 * 60 * 24))) in
        if decide (diffDays = Some 0) then "Today"
        else if decide (diffDays = Some 1) then "Yesterday"
        else Number_toString diffDays ++ "d ago"
  end.

End FormatDate.
End JobCard.

(** [AddJobModal] ([client/src/components/job/add-job-modal.tsx]) *)
Module AddJobModal.

(** [z.string().min(n)] on a property read. *)
Definition string_min (n : nat) (v : option value) : bool :=
  match v with
  | Some (VStr s) => bool_decide (n ≤ String.length s)%nat
  | _ => false
  end.

(** [jobFormSchema]: the insert schema without [userId], [id],
    [updatedAt] and [appliedDate], with [company] and [position]
    replaced by [z.string().min(1)]. *)
Definition jobFormSchema (data : obj) : option obj :=
  if string_min 1 (data !! "company") && string_min 1 (data !! "position")
  then parse (omit ["userId"; "id"; "updatedAt"; "appliedDate"]
                   insertJobApplicationSchema) data
  else None.

End AddJobModal.

(** * Properties *)

Example mem_create_smoke :
  (MemStorage.createJobApplication 1000
     {[ "userId" := VNum 7; "company" := VStr "Acme" ]} MemStorage.init).1
    !! "appliedDate" = Some (VDate 1000).
Proof. vm_compute. reflexivity. Qed.

Example parse_smoke :
  parse insertJobApplicationSchema
    {[ "userId" := VNum 7; "company" := VStr "Acme";
       "position" := VStr "Engineer"; "bogus" := VNum 1 ]}
  = Some {[ "userId" := VNum 7; "company" := VStr "Acme";
            "position" := VStr "Engineer" ]}.
Proof. vm_compute. reflexivity. Qed.

Example stats_smoke :
  computeStats (fun _ => None) (3 * 86400000)
    [ {[ "status" := VStr "interview"; "appliedDate" := VDate 86400000 ]};
      {[ "status" := VStr "applied"; "appliedDate" := VDate (2 * 86400000) ]};
      {[ "status" := VStr "applied"; "appliedDate" := VDate (3 * 86400000) ]} ]
    []
  = Stats 3 0 (Some 33) (Some 2) 2 1 0 0.
Proof. vm_compute. reflexivity. Qed.

Example pg_smoke :
  let acc := fun _ _ _ => true in
  match PostgresStorage.createUser acc 5 {[ "username" := VStr "a" ]}
          PostgresStorage.init with
  | Ok (_, d) =>
      match PostgresStorage.createJobApplication acc 1000
              {[ "userId" := VNum 1; "company" := VStr "Acme";
                 "notes" := VStr "n" ]} d with
      | Ok (o, d') => (o !! "status", PostgresStorage.job_applications d' !! 1
                        ≫= (fun r => r !! "notes"))
      | Throw _ => (None, None)
      end
  | Throw _ => (None, None)
  end = (Some (VStr "applied"), Some VNull).
Proof. vm_compute. reflexivity. Qed.

(** ** Existence is checked before ownership in the routes by id *)

Section RouteGuards.
Context {S : Type} `{!IStorage S}.

Ltac route_cases e :=
  destruct e; simpl;
  unfold patch_application, patch_document, patch_interview,
         delete_application, delete_document, delete_interview,
         isAuthenticated, try_catch, mbind, result_bind.

Lemma patch_route_absent e now uid id body (st : S) :
  get_entity e st id = Ok None ->
  patch_route e now (Some uid) id body st
  = (Response 404 (Message (not_found e)), st).
Proof. route_cases e; intros ->; reflexivity. Qed.

Lemma delete_route_absent e uid id (st : S) :
  get_entity e st id = Ok None ->
  delete_route e (Some uid) id st
  = (Response 404 (Message (not_found e)), st).
Proof. route_cases e; intros ->; reflexivity. Qed.

Lemma patch_route_not_owner e now uid id body (st : S) x :
  get_entity e st id = Ok (Some x) ->
  x !! "userId" ≠ Some (VNum uid) ->
  patch_route e now (Some uid) id body st
  = (Response 403 (Message "Forbidden"), st).
Proof.
  route_cases e; intros -> Hx; rewrite bool_decide_eq_true_2 by done;
    reflexivity.
Qed.

Lemma delete_route_not_owner e uid id (st : S) x :
  get_entity e st id = Ok (Some x) ->
  x !! "userId" ≠ Some (VNum uid) ->
  delete_route e (Some uid) id st
  = (Response 403 (Message "Forbidden"), st).
Proof.
  route_cases e; intros -> Hx; rewrite bool_decide_eq_true_2 by done;
    reflexivity.
Qed.

Lemma patch_route_owner e now uid id body (st : S) x :
  get_entity e st id = Ok (Some x) ->
  x !! "userId" = Some (VNum uid) ->
  patch_route e now (Some uid) id body st
  = match update_entity e now id body st with
    | Ok (updated, st') => (Response 200 (Json updated), st')
    | Throw _ =>
        (Response 500
           (Message match e with
                    | Application => "Failed to update application"
                    | Document => "Failed to update document"
                    | Interview => "Failed to update interview"
                    end), st)
    end.
Proof.
  route_cases e; intros -> Hx; rewrite bool_decide_eq_false_2 by naive_solver;
    match goal with |- context [match ?u with Ok _ => _ | Throw _ => _ end] =>
      destruct u as [[? ?]|]; reflexivity end.
Qed.

Lemma delete_route_owner e uid id (st : S) x :
  get_entity e st id = Ok (Some x) ->
  x !! "userId" = Some (VNum uid) ->
  delete_route e (Some uid) id st
  = match delete_entity e id st with
    | Ok st' => (Response 204 Empty, st')
    | Throw _ =>
        (Response 500
           (Message match e with
                    | Application => "Failed to delete application"
                    | Document => "Failed to delete document"
                    | Interview => "Failed to delete interview"
                    end), st)
    end.
Proof.
  route_cases e; intros -> Hx; rewrite bool_decide_eq_false_2 by naive_solver;
    match goal with |- context [match ?u with Ok _ => _ | Throw _ => _ end] =>
      destruct u; reflexivity end.
Qed.

Lemma patch_route_403 e now uid id body (st : S) :
  status (patch_route e now (Some uid) id body st).1 = 403 ->
  exists x, get_entity e st id = Ok (Some x)
            /\ x !! "userId" ≠ Some (VNum uid).
Proof.
  destruct (get_entity e st id) as [[x|]|m] eqn:Hget.
  - destruct (decide (x !! "userId" = Some (VNum uid))) as [Hx|Hx].
    + rewrite (patch_route_owner _ _ _ _ _ _ _ Hget Hx).
      destruct (update_entity e now id body st) as [[? ?]|]; simpl; lia.
    + eauto.
  - rewrite (patch_route_absent _ _ _ _ _ _ Hget). simpl. lia.
  - revert Hget. route_cases e; intros ->; simpl; lia.
Qed.

Lemma delete_route_403 e uid id (st : S) :
  status (delete_route e (Some uid) id st).1 = 403 ->
  exists x, get_entity e st id = Ok (Some x)
            /\ x !! "userId" ≠ Some (VNum uid).
Proof.
  destruct (get_entity e st id) as [[x|]|m] eqn:Hget.
  - destruct (decide (x !! "userId" = Some (VNum uid))) as [Hx|Hx].
    + rewrite (delete_route_owner _ _ _ _ _ Hget Hx).
      destruct (delete_entity e id st); simpl; lia.
    + eauto.
  - rewrite (delete_route_absent _ _ _ _ Hget). simpl. lia.
  - revert Hget. route_cases e; intros ->; simpl; lia.
Qed.

(** C2: on an id that the store does not hold, PATCH and DELETE answer
    404 whoever the authenticated caller is, and leave the store as it
    was; 403 is answered exactly when the store holds the entity and
    its [userId] is not the caller's id: the existence check comes
    before the ownership check. *)
Theorem C2_not_found_before_forbidden
    (e : entity) (now uid id : Z) (body : obj) (st : S) :
  (get_entity e st id = Ok None ->
     patch_route e now (Some uid) id body st
       = (Response 404 (Message (not_found e)), st)
     /\ delete_route e (Some uid) id st
       = (Response 404 (Message (not_found e)), st))
  /\ (forall x, get_entity e st id = Ok (Some x) ->
        x !! "userId" ≠ Some (VNum uid) ->
        patch_route e now (Some uid) id body st
          = (Response 403 (Message "Forbidden"), st)
        /\ delete_route e (Some uid) id st
          = (Response 403 (Message "Forbidden"), st))
  /\ (status (patch_route e now (Some uid) id body st).1 = 403
      \/ status (delete_route e (Some uid) id st).1 = 403 ->
      exists x, get_entity e st id = Ok (Some x)
                /\ x !! "userId" ≠ Some (VNum uid)).
Proof.
  split; [|split].
  - intros Hget. split.
    + by apply patch_route_absent.
    + by apply delete_route_absent.
  - intros x Hget Hx. split.
    + by eapply patch_route_not_owner.
    + by eapply delete_route_not_owner.
  - intros [H|H].
    + by eapply patch_route_403.
    + by eapply delete_route_403.
Qed.

End RouteGuards.

(** ** Sample payloads and stores *)

Lemma mem_one_application_holds :
  MemStorage.jobApplications mem_one_application !! 1 = Some acme_stored
  /\ acme_stored !! "userId" = Some (VNum 1).
Proof. split; vm_compute; reflexivity. Qed.

Lemma C2_witness :
  get_entity Application mem_one_application 7 = Ok None
  /\ (patch_route Application 2000 (Some 1) 7 ∅ mem_one_application
        = (Response 404 (Message "Application not found"), mem_one_application)
      /\ delete_route Application (Some 1) 7 mem_one_application
        = (Response 404 (Message "Application not found"), mem_one_application))
  /\ (patch_route Application 2000 (Some 2) 7 ∅ mem_one_application
        = (Response 404 (Message "Application not found"), mem_one_application)
      /\ delete_route Application (Some 2) 7 mem_one_application
        = (Response 404 (Message "Application not found"), mem_one_application)).
Proof.
  assert (H : get_entity Application mem_one_application 7 = Ok None)
    by (vm_compute; reflexivity).
  split; [exact H|]. split.
  - exact (proj1 (C2_not_found_before_forbidden
                    Application 2000 1 7 ∅ mem_one_application) H).
  - exact (proj1 (C2_not_found_before_forbidden
                    Application 2000 2 7 ∅ mem_one_application) H).
Defined.

(** ** Store-level delete is idempotent *)

Lemma mem_delete_absent e id (st : MemStorage.t) :
  get_entity e st id = Ok None -> delete_entity e id st = Ok st.
Proof.
  destruct st, e; simpl; intros [= H];
    unfold MemStorage.deleteJobApplication, MemStorage.deleteDocument,
           MemStorage.deleteInterview, MemStorage.set_jobApplications,
           MemStorage.set_documents, MemStorage.set_interviews; simpl;
    by rewrite delete_id.
Qed.

Lemma mem_delete_twice e id (st : MemStorage.t) :
  exists st', delete_entity e id st = Ok st'
              /\ delete_entity e id st' = Ok st'.
Proof.
  destruct st, e; simpl; eexists; (split; [reflexivity|]);
    unfold MemStorage.deleteJobApplication, MemStorage.deleteDocument,
           MemStorage.deleteInterview, MemStorage.set_jobApplications,
           MemStorage.set_documents, MemStorage.set_interviews; simpl;
    by rewrite delete_delete_eq.
Qed.

Lemma pg_rows_write tb m n d :
  PostgresStorage.rows tb (PostgresStorage.write tb m n d) = m.
Proof. by destruct tb. Qed.

Lemma pg_rows_write_ne tb tb' m n d :
  tb ≠ tb' ->
  PostgresStorage.rows tb (PostgresStorage.write tb' m n d)
  = PostgresStorage.rows tb d.
Proof. by destruct tb, tb'. Qed.

Lemma pg_sql_delete_lookup tb id d :
  PostgresStorage.rows tb (PostgresStorage.sql_delete tb id d) !! id = None.
Proof.
  unfold PostgresStorage.sql_delete.
  destruct (PostgresStorage.rows tb d !! id) eqn:H; [|done].
  destruct tb; simpl; by rewrite lookup_delete_eq.
Qed.

Lemma pg_sql_delete_absent tb id d :
  PostgresStorage.rows tb d !! id = None ->
  PostgresStorage.sql_delete tb id d = d.
Proof. unfold PostgresStorage.sql_delete. by intros ->. Qed.

Lemma pg_delete_entity accepts e id d :
  @delete_entity _ (PostgresStorage_IStorage accepts) e id d
  = Ok (PostgresStorage.sql_delete (pg_table e) id d).
Proof. by destruct e. Qed.

Lemma pg_get_entity_None accepts e id d :
  @get_entity _ (PostgresStorage_IStorage accepts) e d id = Ok None ->
  PostgresStorage.rows (pg_table e) d !! id = None.
Proof.
  destruct e; simpl;
    unfold PostgresStorage.getJobApplicationById,
           PostgresStorage.getDocumentById, PostgresStorage.getInterviewById,
           PostgresStorage.sql_select_by_id; simpl;
    intros [= H]; by apply fmap_None in H.
Qed.

(** C9: deleting from the store never throws, whatever the kind; deleting
    an id that is absent leaves the store as it is, and deleting the same
    id a second time returns the store of the first delete.  For the
    database store this is about the ids that the key column can hold,
    the 32-bit integers: the statement is interpreted on the table, and
    an id outside the column's type, which the database refuses as a
    parameter, is not covered. *)
Theorem C9_delete_idempotent (e : entity) (id : Z) :
  (forall st : MemStorage.t,
      exists st', delete_entity e id st = Ok st'
                  /\ delete_entity e id st' = Ok st'
                  /\ (get_entity e st id = Ok None -> st' = st))
  /\ (forall accepts (d : PostgresStorage.db),
        -2147483648 <= id <= 2147483647 ->
        exists d',
          @delete_entity _ (PostgresStorage_IStorage accepts) e id d = Ok d'
          /\ @delete_entity _ (PostgresStorage_IStorage accepts) e id d' = Ok d'
          /\ (@get_entity _ (PostgresStorage_IStorage accepts) e d id = Ok None
              -> d' = d)).
Proof.
  split.
  - intros st. destruct (mem_delete_twice e id st) as (st' & H1 & H2).
    exists st'. repeat split; try done.
    intros Habs. apply (mem_delete_absent e id st) in Habs. congruence.
  - intros accepts d _. eexists. rewrite !pg_delete_entity.
    split; [reflexivity|]. split.
    + f_equal. apply pg_sql_delete_absent, pg_sql_delete_lookup.
    + intros Habs. by apply pg_sql_delete_absent, (pg_get_entity_None accepts).
Qed.

Lemma C9_witness :
  exists st', delete_entity Application 7 mem_one_application = Ok st'
              /\ delete_entity Application 7 st' = Ok st'
              /\ st' = mem_one_application.
Proof.
  destruct (proj1 (C9_delete_idempotent Application 7) mem_one_application)
    as (st' & H1 & H2 & H3).
  exists st'. repeat split; try done. apply H3. vm_compute. reflexivity.
Defined.

(** ** What [MemStorage] writes on an update *)

Lemma mem_updateJobApplication_Some now id update st application :
  MemStorage.jobApplications st !! id = Some application ->
  MemStorage.updateJobApplication now id update st
  = Ok (<["updatedAt" := VDate now]> (spread application update),
        MemStorage.set_jobApplications
          (<[id := <["updatedAt" := VDate now]> (spread application update)]>
             (MemStorage.jobApplications st))
          (MemStorage.jobApplicationId st) st).
Proof. unfold MemStorage.updateJobApplication. by intros ->. Qed.

Lemma mem_updateDocument_Some now id update st document :
  MemStorage.documents st !! id = Some document ->
  MemStorage.updateDocument now id update st
  = Ok (<["updatedAt" := VDate now]> (spread document update),
        MemStorage.set_documents
          (<[id := <["updatedAt" := VDate now]> (spread document update)]>
             (MemStorage.documents st))
          (MemStorage.documentId st) st).
Proof. unfold MemStorage.updateDocument. by intros ->. Qed.

Lemma mem_updateInterview_Some id update st interview :
  MemStorage.interviews st !! id = Some interview ->
  MemStorage.updateInterview id update st
  = Ok (spread interview update,
        MemStorage.set_interviews
          (<[id := spread interview update]> (MemStorage.interviews st))
          (MemStorage.interviewId st) st).
Proof. unfold MemStorage.updateInterview. by intros ->. Qed.

(** A key of the partial object takes its value; any other key keeps the
    value of the stored object. *)
Lemma spread_lookup (a b : obj) k :
  spread a b !! k = match b !! k with Some v => Some v | None => a !! k end.
Proof.
  unfold spread. rewrite lookup_union.
  destruct (b !! k), (a !! k); reflexivity.
Qed.

(** C10: [MemStorage.updateJobApplication] copies every key of the partial
    object into the stored record, [userId] and [id] included (only the
    value of [updatedAt] is replaced by the clock), so the owner of the
    record afterwards is the supplied [userId]; and the PATCH route hands
    the request body to the store as it is. *)
Theorem C10_update_copies_every_key
    (now id : Z) (update : obj) (st : MemStorage.t) (application : obj) :
  MemStorage.jobApplications st !! id = Some application ->
  exists updated st',
    MemStorage.updateJobApplication now id update st = Ok (updated, st')
    /\ MemStorage.jobApplications st' !! id = Some updated
    /\ (forall k, is_Some (update !! k) -> is_Some (updated !! k))
    /\ (forall k v, k ≠ "updatedAt" -> update !! k = Some v ->
                    updated !! k = Some v)
    /\ (forall v, update !! "userId" = Some v -> updated !! "userId" = Some v)
    /\ (forall v, update !! "id" = Some v -> updated !! "id" = Some v)
    /\ (forall uid, application !! "userId" = Some (VNum uid) ->
          patch_application now (Some uid) id update st
          = (Response 200 (Json updated), st')).
Proof.
  intros Hget. do 2 eexists.
  split; [by apply mem_updateJobApplication_Some|].
  assert (Hcopy : forall k v, k ≠ "updatedAt" -> update !! k = Some v ->
            <["updatedAt" := VDate now]> (spread application update) !! k
            = Some v).
  { intros k v Hk Hv. rewrite lookup_insert_ne by done.
    by rewrite spread_lookup, Hv. }
  split; [|split; [|split; [|split; [|split]]]].
  - simpl. by rewrite lookup_insert_eq.
  - intros k [v Hv]. destruct (decide (k = "updatedAt")) as [->|Hk].
    + rewrite lookup_insert_eq. eauto.
    + rewrite (Hcopy k v); eauto.
  - exact Hcopy.
  - intros v. by apply Hcopy.
  - intros v. by apply Hcopy.
  - intros uid Huid.
    change (patch_application now (Some uid) id update st)
      with (patch_route Application now (Some uid) id update st).
    rewrite (patch_route_owner Application now uid id update st application);
      [|simpl; by rewrite <- Hget|done].
    simpl. by rewrite (mem_updateJobApplication_Some _ _ _ _ _ Hget).
Qed.

(** User 1 hands the application over to user 2 with a PATCH. *)
Lemma C10_witness :
  MemStorage.jobApplications mem_one_application !! 1 = Some acme_stored
  /\ exists updated st',
      patch_application 2000 (Some 1) 1
         {[ "userId" := VNum 2; "id" := VNum 99 ]} mem_one_application
       = (Response 200 (Json updated), st')
      /\ MemStorage.jobApplications st' !! 1 = Some updated
      /\ updated !! "userId" = Some (VNum 2)
      /\ updated !! "id" = Some (VNum 99).
Proof.
  destruct mem_one_application_holds as [Hget Hown].
  split; [exact Hget|].
  destruct (C10_update_copies_every_key 2000 1
              {[ "userId" := VNum 2; "id" := VNum 99 ]}
              mem_one_application _ Hget)
    as (updated & st' & _ & Hstored & _ & _ & Huser & Hid & Hroute).
  exists updated, st'. split; [|split; [|split]].
  - apply Hroute. exact Hown.
  - exact Hstored.
  - apply Huser. vm_compute. reflexivity.
  - apply Hid. vm_compute. reflexivity.
Defined.

(** ** Identifiers are handed out in increasing order *)

Section Counters.
Context {S : Type}.
Variable stepf : Z -> op -> S -> option obj * S.
(** The counter (or sequence) behind the identifiers of a kind. *)
Variable counter : option entity -> S -> Z.

(** One call never lowers a counter, and an entity it creates for kind
    [k] carries the counter of [k] as its [id] and moves it on by one. *)
Hypothesis counter_step : forall k now o st,
  counter k st <= counter k (stepf now o st).2
  /\ forall x, creates o = Some k -> (stepf now o st).1 = Some x ->
       x !! "id" = Some (VNum (counter k st))
       /\ counter k (stepf now o st).2 = counter k st + 1.

Lemma run_by_counter k ops : forall st,
  counter k st <= counter k (run_by stepf ops st).
Proof.
  induction ops as [|[now o] rest IH]; intros st; simpl; [lia|].
  destruct (counter_step k now o st) as [Hle _].
  specialize (IH (stepf now o st).2). lia.
Qed.

Lemma created_by_ids k ops : forall st,
  exists ids,
    (fun x : obj => x !! "id") <$> created_by stepf k ops st
    = (fun i => Some (VNum i)) <$> ids
    /\ StronglySorted Z.lt ids
    /\ Forall (fun i => counter k st <= i < counter k (run_by stepf ops st))
              ids.
Proof.
  induction ops as [|[now o] rest IH]; intros st.
  - exists []. repeat split; constructor.
  - destruct (IH (stepf now o st).2) as (ids & Hids & Hsorted & Hall).
    destruct (counter_step k now o st) as [Hle Hnew].
    pose proof (run_by_counter k rest (stepf now o st).2) as Hrest.
    cbn [created_by run_by].
    destruct (bool_decide (creates o = Some k)) eqn:Hk;
      [apply bool_decide_eq_true in Hk
      |]; [destruct ((stepf now o st).1) as [x|] eqn:Hx|].
    + destruct (Hnew x Hk eq_refl) as [Hid Hnext].
      exists (counter k st :: ids). cbn. rewrite Hid, Hids.
      split; [done|]. split.
      * constructor; [done|]. eapply Forall_impl; [exact Hall|].
        cbn. lia.
      * constructor; [lia|]. eapply Forall_impl; [exact Hall|]. cbn. lia.
    + exists ids. cbn. split; [done|]. split; [done|].
      eapply Forall_impl; [exact Hall|]. cbn. lia.
    + exists ids. cbn. split; [done|]. split; [done|].
      eapply Forall_impl; [exact Hall|]. cbn. lia.
Qed.

End Counters.

Lemma run_by_step {S : Type} `{!IStorage S} ops : forall st : S,
  run_by step ops st = run ops st.
Proof. induction ops as [|[now o] rest IH]; intros st; simpl; auto. Qed.

Lemma StronglySorted_lt_NoDup (l : list Z) : StronglySorted Z.lt l -> NoDup l.
Proof.
  induction 1 as [|x l Hs IH Hall]; constructor; [|done].
  intros Hin. rewrite Forall_forall in Hall. specialize (Hall _ Hin). lia.
Qed.

(** *** Facts about the statements of [PostgresStorage] *)

Ltac closed_decision :=
  match goal with
  | |- ?P => apply (bool_decide_eq_true_1 P); vm_compute; reflexivity
  end.

Lemma pg_assign_lookup_notin sets : forall (r : PostgresStorage.row) k,
  k ∉ sets.*1 -> PostgresStorage.assign r sets !! k = r !! k.
Proof.
  induction sets as [|[c v] sets IH]; intros r k Hk; [done|].
  simpl in *. apply not_elem_of_cons in Hk as [Hne Hk].
  unfold PostgresStorage.assign in *. simpl. rewrite IH by done.
  by rewrite lookup_insert_ne.
Qed.

Lemma pg_assign_lookup_last sets c v (r : PostgresStorage.row) :
  PostgresStorage.assign r (sets ++ [(c, v)]) !! c = Some v.
Proof.
  unfold PostgresStorage.assign. rewrite foldl_app. simpl.
  by rewrite lookup_insert_eq.
Qed.

Lemma pg_default_row_id now tb id :
  PostgresStorage.default_row now tb id !! "id" = Some (VNum id).
Proof.
  unfold PostgresStorage.default_row.
  assert (H : "id" ∉ PostgresStorage.ddl_name <$> PostgresStorage.ddl tb)
    by (destruct tb; closed_decision).
  induction (PostgresStorage.ddl tb) as [|c l IH]; simpl in *.
  - by rewrite lookup_singleton_eq.
  - apply not_elem_of_cons in H as [Hne H].
    rewrite lookup_insert_ne by done. by apply IH.
Qed.

Lemma pg_project_lookup fields (r : PostgresStorage.row) k :
  NoDup fields.*1 ->
  PostgresStorage.project fields r !! k
  = (list_to_map fields : gmap string string) !! k ≫= (fun c => r !! c).
Proof.
  induction fields as [|[k0 c0] fs IH]; intros Hnd; simpl.
  - by rewrite !lookup_empty.
  - apply NoDup_cons in Hnd as [Hk0 Hnd]. specialize (IH Hnd).
    destruct (decide (k = k0)) as [->|Hne].
    + rewrite lookup_insert_eq. simpl.
      destruct (r !! c0) eqn:Hc0.
      * by rewrite lookup_insert_eq.
      * rewrite IH. by rewrite (not_elem_of_list_to_map_1 _ _ Hk0).
    + rewrite lookup_insert_ne by done. rewrite <- IH.
      destruct (r !! c0); [by rewrite lookup_insert_ne|done].
Qed.

Lemma pg_nextval_write tb m n d :
  PostgresStorage.nextval tb (PostgresStorage.write tb m n d) = n.
Proof. by destruct tb. Qed.

Lemma pg_nextval_write_ne tb tb' m n d :
  tb ≠ tb' ->
  PostgresStorage.nextval tb (PostgresStorage.write tb' m n d)
  = PostgresStorage.nextval tb d.
Proof. by destruct tb, tb'. Qed.

Lemma pg_sql_insert_Ok accepts now tb values d r d' :
  PostgresStorage.sql_insert accepts now tb values d = Ok (r, d') ->
  r = PostgresStorage.assign
        (PostgresStorage.default_row now tb (PostgresStorage.nextval tb d))
        values
  /\ d' = PostgresStorage.write tb
            (<[PostgresStorage.nextval tb d := r]> (PostgresStorage.rows tb d))
            (PostgresStorage.nextval tb d + 1) d.
Proof.
  unfold PostgresStorage.sql_insert.
  destruct (PostgresStorage.constraints_ok _ _ _ _ _); [|done].
  by intros [= <- <-].
Qed.

Lemma pg_sql_update_Ok accepts tb sets id d r d' :
  PostgresStorage.sql_update accepts tb sets id d = Ok (r, d') ->
  (r = None /\ d' = d /\ PostgresStorage.rows tb d !! id = None)
  \/ (exists r0, PostgresStorage.rows tb d !! id = Some r0
        /\ r = Some (PostgresStorage.assign r0 sets)
        /\ d' = PostgresStorage.write tb
                  (<[id := PostgresStorage.assign r0 sets]>
                     (PostgresStorage.rows tb d))
                  (PostgresStorage.nextval tb d) d).
Proof.
  unfold PostgresStorage.sql_update. destruct sets as [|s sets]; [done|].
  destruct (PostgresStorage.rows tb d !! id) as [r0|] eqn:Hr0.
  - destruct (PostgresStorage.constraints_ok _ _ _ _ _); [|done].
    intros [= <- <-]. right. eauto.
  - intros [= <- <-]. by left.
Qed.

Lemma pg_sql_update_nextval accepts tb sets id d r d' tb' :
  PostgresStorage.sql_update accepts tb sets id d = Ok (r, d') ->
  PostgresStorage.nextval tb' d' = PostgresStorage.nextval tb' d.
Proof.
  intros [(_ & -> & _)|(r0 & _ & _ & ->)]%pg_sql_update_Ok; [done|].
  by destruct tb, tb'.
Qed.

Lemma pg_sql_delete_nextval tb id d tb' :
  PostgresStorage.nextval tb' (PostgresStorage.sql_delete tb id d)
  = PostgresStorage.nextval tb' d.
Proof.
  unfold PostgresStorage.sql_delete.
  destruct (PostgresStorage.rows tb d !! id); [|done].
  by destruct tb, tb'.
Qed.

Lemma pg_fields_NoDup :
  NoDup PostgresStorage.user_fields.*1
  /\ NoDup PostgresStorage.application_fields.*1
  /\ NoDup PostgresStorage.application_fields_list.*1
  /\ NoDup PostgresStorage.document_fields.*1
  /\ NoDup PostgresStorage.interview_fields.*1.
Proof. repeat split; closed_decision. Qed.

Lemma pg_insert_project_id accepts now tb values d r d' fields :
  PostgresStorage.sql_insert accepts now tb values d = Ok (r, d') ->
  "id" ∉ values.*1 ->
  NoDup fields.*1 ->
  (list_to_map fields : gmap string string) !! "id" = Some "id" ->
  PostgresStorage.project fields r !! "id"
  = Some (VNum (PostgresStorage.nextval tb d))
  /\ forall tb', PostgresStorage.nextval tb' d'
                 = if decide (tb' = tb) then PostgresStorage.nextval tb d + 1
                   else PostgresStorage.nextval tb' d.
Proof.
  intros [-> ->]%pg_sql_insert_Ok Hid Hnd Hfield. split.
  - rewrite pg_project_lookup, Hfield by done. simpl.
    by rewrite pg_assign_lookup_notin, pg_default_row_id.
  - intros tb'. case_decide as Htb.
    + subst. apply pg_nextval_write.
    + by apply pg_nextval_write_ne.
Qed.

#[local] Arguments PostgresStorage.project : simpl never.

Ltac seq_facts H :=
  let H1 := fresh in let H2 := fresh in let H3 := fresh in let H4 := fresh in
  pose proof (H PostgresStorage.Users) as H1;
  pose proof (H PostgresStorage.JobApplications) as H2;
  pose proof (H PostgresStorage.Documents) as H3;
  pose proof (H PostgresStorage.Interviews) as H4;
  clear H; simpl in H1, H2, H3, H4.

(** [MemStorage]: every create succeeds, hands out the counter of its
    kind and moves it on by one; no other call touches a counter. *)
Lemma mem_step_counter k now o (st : MemStorage.t) :
  mem_counter k st <= mem_counter k (step now o st).2
  /\ (creates o = Some k -> is_Some (step now o st).1)
  /\ forall x, creates o = Some k -> (step now o st).1 = Some x ->
       x !! "id" = Some (VNum (mem_counter k st))
       /\ mem_counter k (step now o st).2 = mem_counter k st + 1.
Proof.
  destruct o as [fields|e fields|e id partial|e id].
  - split; [destruct k as [[]|]; simpl; lia|]. split; [by eauto|].
    intros x [= <-]. simpl. intros [= <-]. split; [|done].
    by rewrite !lookup_insert_ne, lookup_insert_eq by done.
  - split; [destruct e, k as [[]|]; simpl; lia|].
    split; [destruct e; by eauto|].
    intros x [= <-]. destruct e; simpl; intros [= <-]; (split; [|done]).
    + by rewrite !lookup_insert_ne, lookup_insert_eq by done.
    + by rewrite !lookup_insert_ne, lookup_insert_eq by done.
    + by rewrite lookup_insert_eq.
  - split; [|split; [done|done]].
    destruct e; simpl;
      unfold MemStorage.updateJobApplication, MemStorage.updateDocument,
             MemStorage.updateInterview;
      match goal with |- context [match ?m !! id with _ => _ end] =>
        destruct (m !! id) end; destruct k as [[]|]; simpl; lia.
  - split; [|split; [done|done]]. destruct e, k as [[]|]; simpl; lia.
Qed.

Ltac create_counter k fields Hnd :=
  unfold mbind, result_bind;
  let Hins := fresh "Hins" in
  let Hid := fresh "Hid" in
  let Hseq := fresh "Hseq" in
  destruct (PostgresStorage.sql_insert _ _ _ _ _) as [[? ?]|] eqn:Hins; simpl;
  [ apply (pg_insert_project_id _ _ _ _ _ _ _ fields) in Hins as [Hid Hseq];
      [|closed_decision|exact Hnd|by vm_compute];
    seq_facts Hseq;
    split; [destruct k as [[]|]; simpl; lia|];
    intros x Hk [= <-]; injection Hk as <-; simpl; (split; [exact Hid|lia])
  | split; [lia|done] ].

(** [PostgresStorage]: an entity that a create returns carries the value
    of the sequence of its table as [id], and the sequence has moved on
    by one; no other call touches a sequence. *)
Lemma pg_step_counter_plain accepts k now o (d : PostgresStorage.db) :
  pg_counter k d
    <= pg_counter k (@step _ (PostgresStorage_IStorage accepts) now o d).2
  /\ forall x, creates o = Some k ->
       (@step _ (PostgresStorage_IStorage accepts) now o d).1 = Some x ->
       x !! "id" = Some (VNum (pg_counter k d))
       /\ pg_counter k (@step _ (PostgresStorage_IStorage accepts) now o d).2
          = pg_counter k d + 1.
Proof.
  destruct pg_fields_NoDup as (Hu & Ha & _ & Hd & Hi).
  unfold pg_counter.
  destruct o as [fields|e fields|e id partial|e id].
  - simpl. unfold PostgresStorage.createUser.
    create_counter k PostgresStorage.user_fields Hu.
  - destruct e; simpl.
    + unfold PostgresStorage.createJobApplication.
      create_counter k PostgresStorage.application_fields Ha.
    + unfold PostgresStorage.createDocument.
      create_counter k PostgresStorage.document_fields Hd.
    + unfold PostgresStorage.createInterview.
      create_counter k PostgresStorage.interview_fields Hi.
  - split; [|done].
    destruct e; simpl;
      unfold PostgresStorage.updateJobApplication,
             PostgresStorage.updateDocument, PostgresStorage.updateInterview,
             PostgresStorage.getJobApplicationById,
             PostgresStorage.getDocumentById,
             PostgresStorage.getInterviewById, mbind, result_bind;
      (destruct (_ <$> PostgresStorage.sql_select_by_id _ _ _); [|simpl; lia]);
      (destruct (PostgresStorage.sql_update _ _ _ _ _) as [[r d']|] eqn:Hupd;
       [|simpl; lia]);
      (destruct r; simpl; [|lia]);
      by rewrite (pg_sql_update_nextval _ _ _ _ _ _ _ _ Hupd).
  - split; [|done].
    destruct e; simpl;
      unfold PostgresStorage.deleteJobApplication,
             PostgresStorage.deleteDocument, PostgresStorage.deleteInterview;
      simpl; by rewrite pg_sql_delete_nextval.
Qed.

Lemma pg_nextval_refused tb tb' d :
  PostgresStorage.nextval tb' (PostgresStorage.sql_insert_refused tb d)
  = if decide (tb' = tb) then PostgresStorage.nextval tb d + 1
    else PostgresStorage.nextval tb' d.
Proof.
  unfold PostgresStorage.sql_insert_refused. case_decide as E.
  - subst. apply pg_nextval_write.
  - by apply pg_nextval_write_ne.
Qed.

(** The same with the values that refused inserts have drawn. *)
Lemma pg_step_counter accepts skips k now o (d : PostgresStorage.db) :
  pg_counter k d <= pg_counter k (pg_step accepts skips now o d).2
  /\ forall x, creates o = Some k ->
       (pg_step accepts skips now o d).1 = Some x ->
       x !! "id" = Some (VNum (pg_counter k d))
       /\ pg_counter k (pg_step accepts skips now o d).2 = pg_counter k d + 1.
Proof.
  destruct (pg_step_counter_plain accepts k now o d) as [Hle Hnew].
  unfold pg_step.
  destruct ((@step _ (PostgresStorage_IStorage accepts) now o d).1)
    as [x|] eqn:Hx.
  - split; [exact Hle|]. intros y Hk Hy. apply Hnew; congruence.
  - destruct (pg_inserts_into o) as [tb|];
      [|split; [exact Hle|intros; congruence]].
    cbn [fst snd]. split; [|done].
    destruct (skips d o); [|exact Hle].
    unfold pg_counter in *. rewrite pg_nextval_refused.
    case_decide as E; [rewrite <- E|]; lia.
Qed.

Lemma create_calls_cons k now o rest :
  create_calls k ((now, o) :: rest)
  = ((if bool_decide (creates o = Some k) then [(now, o)] else [])
     ++ create_calls k rest)%list.
Proof.
  unfold create_calls. rewrite filter_cons. cbn [snd].
  by destruct (decide (creates o = Some k));
    [rewrite bool_decide_eq_true_2|rewrite bool_decide_eq_false_2].
Qed.

Lemma mem_created_length k ops : forall st : MemStorage.t,
  length (created_by step k ops st) = length (create_calls k ops).
Proof.
  induction ops as [|[now o] rest IH]; intros st; [done|].
  rewrite create_calls_cons. cbn [created_by]. rewrite !length_app, IH.
  f_equal. case_bool_decide as Hk; [|done].
  destruct (mem_step_counter k now o st) as (_ & [x ->] & _); done.
Qed.

(** C8: create assigns the identifiers of a kind (users, job
    applications, documents, interviews) from a counter that only goes
    up.  Along every sequence of create, update and delete calls, from
    any store, the entities created for one kind carry as [id] the
    numbers of a strictly increasing list, which starts at or after the
    counter and ends below the counter of the store reached: no
    identifier is handed out twice, whatever was deleted in between, and
    none that is handed out later is as small.  In the in-memory store
    every create call creates an entity; its counters are JavaScript
    numbers, which count exactly up to 2^53.  In the database a create
    that is refused creates none, and may all the same have drawn (and
    so skipped) a value of the sequence. *)
Theorem C8_identifiers_increase
    (k : option entity) (ops : list (Z * op)) :
  (forall st : MemStorage.t,
      mem_counter k (run ops st) <= 2 ^ 53 ->
      exists ids,
        (fun x : obj => x !! "id") <$> created_by step k ops st
        = (fun i => Some (VNum i)) <$> ids
        /\ length ids = length (create_calls k ops)
        /\ StronglySorted Z.lt ids /\ NoDup ids
        /\ Forall (fun i => mem_counter k st <= i
                            < mem_counter k (run ops st)) ids)
  /\ (forall accepts skips (d : PostgresStorage.db),
        exists ids,
          (fun x : obj => x !! "id")
            <$> created_by (pg_step accepts skips) k ops d
          = (fun i => Some (VNum i)) <$> ids
          /\ StronglySorted Z.lt ids /\ NoDup ids
          /\ Forall (fun i => pg_counter k d <= i
                              < pg_counter k
                                  (run_by (pg_step accepts skips) ops d))
                    ids).
Proof.
  split.
  - intros st _.
    destruct (created_by_ids step mem_counter
                (fun k now o st =>
                   conj (proj1 (mem_step_counter k now o st))
                        (proj2 (proj2 (mem_step_counter k now o st))))
                k ops st) as (ids & Hids & Hsorted & Hall).
    exists ids. split; [exact Hids|]. split.
    { rewrite <- (mem_created_length k ops st).
      rewrite <- (length_fmap (fun x : obj => x !! "id")), Hids.
      by rewrite length_fmap. }
    rewrite <- run_by_step.
    auto using StronglySorted_lt_NoDup.
  - intros accepts skips d.
    destruct (created_by_ids (pg_step accepts skips) pg_counter
                (pg_step_counter accepts skips) k ops d)
      as (ids & Hids & Hsorted & Hall).
    exists ids. auto using StronglySorted_lt_NoDup.
Qed.

Example C8_mem_create_delete_create :
  (fun x : obj => x !! "id")
    <$> created_by step (Some Application)
          [ (1, Create Application acme); (2, Delete Application 1);
            (3, Create Application acme); (4, Create Document acme);
            (5, Create Application acme) ] MemStorage.init
  = [Some (VNum 1); Some (VNum 2); Some (VNum 3)].
Proof. vm_compute. reflexivity. Qed.

(** A refused insert that has drawn from the sequence: the user name
    "alice" is taken, the second registration is refused, and the third
    user gets the identifier 3. *)
Example C8_pg_refused_insert_skips :
  (fun x : obj => x !! "id")
    <$> created_by (pg_step PostgresStorage.ddl_accepts (fun _ _ => true)) None
          [ (1, CreateUser alice); (2, CreateUser alice);
            (3, CreateUser (<["username" := VStr "bob"]> alice)) ]
          PostgresStorage.init
  = [Some (VNum 1); Some (VNum 3)].
Proof. vm_compute. reflexivity. Qed.

(** ** [updatedAt] is the clock of the last write *)

Section Monotone.
Context {S : Type} `{!IStorage S}.

(** One call leaves the [updatedAt] of an entity as it was, sets it to
    the clock, or removes the entity. *)
Hypothesis step_updatedAt : forall now o (st : S) e id, e ≠ Interview ->
  updatedAt_of e (step now o st).2 id = updatedAt_of e st id
  \/ updatedAt_of e (step now o st).2 id = Some (VDate now)
  \/ updatedAt_of e (step now o st).2 id = None.

Lemma run_later ops : forall (st : S) T e id t',
  e ≠ Interview -> clock_ok T ops ->
  updatedAt_of e (run ops st) id = Some (VDate t') ->
  updatedAt_of e st id = Some (VDate t') \/ T <= t'.
Proof.
  induction ops as [|[now o] rest IH]; intros st T e id t' He Hclock Hfin.
  - by left.
  - destruct Hclock as [HT Hclock]. simpl in Hfin.
    destruct (IH _ _ _ _ _ He Hclock Hfin) as [Hst1|Hnow]; [|right; lia].
    destruct (step_updatedAt now o st e id He) as [Heq|[Heq|Heq]];
      rewrite Heq in Hst1.
    + by left.
    + right. injection Hst1 as <-. lia.
    + done.
Qed.

Lemma run_bounded ops : forall (st : S) T,
  bounded st T -> clock_ok T ops ->
  exists T', T <= T' /\ bounded (run ops st) T'
             /\ forall rest, clock_ok T (ops ++ rest) -> clock_ok T' rest.
Proof.
  induction ops as [|[now o] ops IH]; intros st T Hb Hclock.
  - exists T. split; [lia|]. by split.
  - destruct Hclock as [HT Hclock].
    assert (Hb1 : bounded (step now o st).2 now).
    { intros e id t He Ht.
      destruct (step_updatedAt now o st e id He) as [Heq|[Heq|Heq]];
        rewrite Heq in Ht.
      - specialize (Hb _ _ _ He Ht). lia.
      - injection Ht as <-. lia.
      - done. }
    destruct (IH _ _ Hb1 Hclock) as (T' & HT' & Hb' & Hrest).
    exists T'. split; [lia|]. split; [exact Hb'|].
    intros rest [_ Hc]. by apply Hrest.
Qed.

Lemma run_monotone (init : S) :
  (forall T, bounded init T) -> updatedAt_monotone S init.
Proof.
  intros Hinit T ops1 ops2 e id t t' He Hclock Ht Ht'.
  assert (Hc1 : clock_ok T ops1).
  { clear -Hclock. revert T Hclock.
    induction ops1 as [|[now o] ops1 IH]; intros T H; [done|].
    destruct H as [? H]. split; [done|]. by apply IH. }
  destruct (run_bounded ops1 init T (Hinit T) Hc1) as (T' & _ & Hb & Hrest).
  specialize (Hrest _ Hclock).
  destruct (run_later ops2 _ T' e id t' He Hrest Ht') as [Hsame|Hlater].
  - rewrite Hsame in Ht. injection Ht as <-. lia.
  - specialize (Hb _ _ _ He Ht). lia.
Qed.
End Monotone.

Lemma mem_updatedAt_of e (st : MemStorage.t) id :
  updatedAt_of e st id
  = match e with
    | Application => MemStorage.jobApplications st !! id
    | Document => MemStorage.documents st !! id
    | Interview => MemStorage.interviews st !! id
    end ≫= (fun x : obj => x !! "updatedAt").
Proof.
  unfold updatedAt_of. destruct e; simpl;
    unfold MemStorage.getJobApplicationById, MemStorage.getDocumentById,
           MemStorage.getInterviewById;
    match goal with |- context [?m !! id] => by destruct (m !! id) end.
Qed.

Lemma mem_step_updatedAt now o (st : MemStorage.t) e id :
  e ≠ Interview ->
  updatedAt_of e (step now o st).2 id = updatedAt_of e st id
  \/ updatedAt_of e (step now o st).2 id = Some (VDate now)
  \/ updatedAt_of e (step now o st).2 id = None.
Proof.
  intros He. rewrite !mem_updatedAt_of.
  destruct o as [fields|e0 fields|e0 id0 partial|e0 id0].
  - left. by destruct e.
  - destruct e0, e; try done; simpl; try (by left);
      match goal with |- context [<[?k := _]> _ !! id] =>
        destruct (decide (id = k)) as [->|Hne] end;
      try (left; by rewrite lookup_insert_ne);
      right; left; rewrite lookup_insert_eq; simpl; by simplify_map_eq.
  - destruct e0; simpl;
      unfold MemStorage.updateJobApplication, MemStorage.updateDocument,
             MemStorage.updateInterview;
      match goal with |- context [match ?m !! id0 with _ => _ end] =>
        destruct (m !! id0) eqn:Hget end; simpl; try (by left);
      destruct e; try done; simpl; try (by left);
      (destruct (decide (id = id0)) as [->|Hne];
       [ right; left; rewrite lookup_insert_eq; simpl;
         by rewrite lookup_insert_eq
       | left; by rewrite lookup_insert_ne ]).
  - destruct e0, e; try done; simpl; try (by left);
      (destruct (decide (id = id0)) as [->|Hne];
       [ right; right; by rewrite lookup_delete_eq
       | left; by rewrite lookup_delete_ne ]).
Qed.

Lemma mem_stamps_updatedAt : stamps_updatedAt MemStorage.t.
Proof.
  intros e now st x st' He. split.
  - intros fields Hcreate. destruct e; try done; simpl in Hcreate;
      injection Hcreate as <- <-; (split; [by simplify_map_eq|]);
      eexists; (split; [by simplify_map_eq|]); simpl;
      unfold MemStorage.getJobApplicationById, MemStorage.getDocumentById;
      simpl; by rewrite lookup_insert_eq.
  - intros id partial Hupdate. destruct e; try done; simpl in Hupdate;
      unfold MemStorage.updateJobApplication, MemStorage.updateDocument
        in Hupdate;
      match type of Hupdate with context [match ?m !! id with _ => _ end] =>
        destruct (m !! id) eqn:Hget end; try done;
      injection Hupdate as <- <-; (split; [by rewrite lookup_insert_eq|]);
      simpl;
      unfold MemStorage.getJobApplicationById, MemStorage.getDocumentById;
      simpl; by rewrite lookup_insert_eq.
Qed.

Lemma mem_init_bounded T : bounded MemStorage.init T.
Proof.
  intros e id t _. rewrite mem_updatedAt_of. destruct e; simpl;
    by rewrite lookup_empty.
Qed.

(** *** The same for [PostgresStorage] *)

Lemma pg_get_entity accepts e d id :
  @get_entity _ (PostgresStorage_IStorage accepts) e d id
  = Ok (PostgresStorage.project (pg_fields e)
          <$> PostgresStorage.rows (pg_table e) d !! id).
Proof. by destruct e. Qed.

Lemma pg_fields_NoDup_e e : NoDup (pg_fields e).*1.
Proof. destruct pg_fields_NoDup as (_ & ? & _ & ? & ?). by destruct e. Qed.

Lemma pg_updatedAt_of accepts e d id :
  e ≠ Interview ->
  @updatedAt_of _ (PostgresStorage_IStorage accepts) e d id
  = PostgresStorage.rows (pg_table e) d !! id
      ≫= (fun r : PostgresStorage.row => r !! "updated_at").
Proof.
  intros He. unfold updatedAt_of. rewrite pg_get_entity.
  destruct (PostgresStorage.rows (pg_table e) d !! id) as [r|]; [|done].
  simpl. rewrite pg_project_lookup by apply pg_fields_NoDup_e.
  by destruct e.
Qed.

(** The last assignment to a column wins. *)
Lemma pg_assign_lookup sets : forall (r : PostgresStorage.row) k,
  PostgresStorage.assign r sets !! k
  = match (list_to_map (reverse sets) : gmap string value) !! k with
    | Some v => Some v
    | None => r !! k
    end.
Proof.
  induction sets as [|[c v] sets IH]; intros r k.
  - unfold PostgresStorage.assign. cbn. by rewrite lookup_empty.
  - unfold PostgresStorage.assign in *. simpl. rewrite IH.
    rewrite reverse_cons, list_to_map_app, lookup_union. simpl.
    destruct (decide (c = k)) as [->|Hne].
    + rewrite !lookup_insert_eq.
      by destruct (list_to_map (reverse sets) !! k).
    + rewrite !lookup_insert_ne by done. rewrite lookup_empty.
      by destruct (list_to_map (reverse sets) !! k).
Qed.

Lemma pg_rows_sql_delete tb id d tb' :
  tb' ≠ PostgresStorage.Interviews ->
  PostgresStorage.rows tb' (PostgresStorage.sql_delete tb id d)
  = if decide (tb' = tb) then delete id (PostgresStorage.rows tb d)
    else PostgresStorage.rows tb' d.
Proof.
  intros Htb'. unfold PostgresStorage.sql_delete.
  destruct (PostgresStorage.rows tb d !! id) eqn:Hrow.
  - case_decide as Heq.
    + subst tb'. by destruct tb.
    + by destruct tb, tb'.
  - case_decide as Heq; [subst tb'|done]. by rewrite delete_id.
Qed.

Lemma pg_create_entity_Ok accepts e now fields d x d' :
  @create_entity _ (PostgresStorage_IStorage accepts) e now fields d
    = Ok (x, d') ->
  exists r values,
    PostgresStorage.sql_insert accepts now (pg_table e) values d = Ok (r, d')
    /\ x = PostgresStorage.project (pg_fields e) r
    /\ ("id" ∉ values.*1)
    /\ (e ≠ Interview ->
        (list_to_map (reverse values) : gmap string value) !! "updated_at"
        = Some (VDate now)).
Proof.
  destruct e; simpl;
    unfold PostgresStorage.createJobApplication,
           PostgresStorage.createDocument, PostgresStorage.createInterview,
           mbind, result_bind;
    (destruct (PostgresStorage.sql_insert _ _ _ _ _) as [[r d1]|] eqn:Hins;
     [|done]);
    intros [= <- <-]; do 2 eexists;
    (split; [exact Hins|]); (split; [done|]);
    (split; [closed_decision|]); intros He; try done;
    vm_compute; reflexivity.
Qed.

Lemma pg_update_entity_Ok accepts e now id partial d x d' :
  @update_entity _ (PostgresStorage_IStorage accepts) e now id partial d
    = Ok (x, d') ->
  exists r0 sets,
    PostgresStorage.rows (pg_table e) d !! id = Some r0
    /\ x = PostgresStorage.project (pg_fields e)
             (PostgresStorage.assign r0 sets)
    /\ d' = PostgresStorage.write (pg_table e)
              (<[id := PostgresStorage.assign r0 sets]>
                 (PostgresStorage.rows (pg_table e) d))
              (PostgresStorage.nextval (pg_table e) d) d
    /\ (e ≠ Interview ->
        PostgresStorage.assign r0 sets !! "updated_at" = Some (VDate now)).
Proof.
  destruct e; cbn [update_entity updateJobApplication updateDocument
                   updateInterview PostgresStorage_IStorage pg_table];
    unfold PostgresStorage.updateJobApplication,
           PostgresStorage.updateDocument, PostgresStorage.updateInterview,
           PostgresStorage.getJobApplicationById,
           PostgresStorage.getDocumentById,
           PostgresStorage.getInterviewById,
           PostgresStorage.sql_select_by_id, mbind, result_bind;
    (destruct (PostgresStorage.rows _ d !! id) as [r0|] eqn:Hr0; [|done]);
    cbn [fmap option_fmap option_map];
    (destruct (PostgresStorage.sql_update _ _ _ _ _) as [[r d1]|] eqn:Hupd;
     [|done]);
    apply pg_sql_update_Ok in Hupd
      as [(-> & _ & _)|(r1 & Hr1 & -> & ->)]; try done;
    rewrite Hr0 in Hr1; injection Hr1 as <-;
    intros Heq; simpl in Heq; injection Heq as <- <-; do 2 eexists;
    (split; [reflexivity|]); (split; [reflexivity|]);
    (split; [reflexivity|]); intros He; try done;
    rewrite !app_assoc; apply pg_assign_lookup_last.
Qed.

Lemma pg_table_inj e e' : pg_table e = pg_table e' -> e = e'.
Proof. by destruct e, e'. Qed.

Lemma pg_table_not_users e : PostgresStorage.Users ≠ pg_table e.
Proof. by destruct e. Qed.

Lemma pg_stamps_updatedAt accepts :
  @stamps_updatedAt _ (PostgresStorage_IStorage accepts).
Proof.
  intros e now d x d' He. split.
  - intros fields (r & values & Hins & -> & Hid & Hlast)%pg_create_entity_Ok.
    apply pg_sql_insert_Ok in Hins as [Hr ->].
    assert (Hget : @get_entity _ (PostgresStorage_IStorage accepts) e
              (PostgresStorage.write (pg_table e)
                 (<[PostgresStorage.nextval (pg_table e) d := r]>
                    (PostgresStorage.rows (pg_table e) d))
                 (PostgresStorage.nextval (pg_table e) d + 1) d)
              (PostgresStorage.nextval (pg_table e) d)
            = Ok (Some (PostgresStorage.project (pg_fields e) r))).
    { by rewrite pg_get_entity, pg_rows_write, lookup_insert_eq. }
    split.
    + rewrite pg_project_lookup by apply pg_fields_NoDup_e.
      replace ((list_to_map (pg_fields e) : gmap string string) !! "updatedAt")
        with (Some "updated_at") by (by destruct e).
      simpl. rewrite Hr, pg_assign_lookup. by rewrite Hlast.
    + exists (PostgresStorage.nextval (pg_table e) d). split; [|exact Hget].
      rewrite pg_project_lookup by apply pg_fields_NoDup_e.
      replace ((list_to_map (pg_fields e) : gmap string string) !! "id")
        with (Some "id") by (by destruct e).
      simpl. by rewrite Hr, pg_assign_lookup_notin, pg_default_row_id.
  - intros id partial
      (r0 & sets & Hr0 & -> & -> & Hlast)%pg_update_entity_Ok.
    split.
    + rewrite pg_project_lookup by apply pg_fields_NoDup_e.
      replace ((list_to_map (pg_fields e) : gmap string string) !! "updatedAt")
        with (Some "updated_at") by (by destruct e).
      simpl. by apply Hlast.
    + by rewrite pg_get_entity, pg_rows_write, lookup_insert_eq.
Qed.

Lemma pg_step_updatedAt accepts now o (d : PostgresStorage.db) e id :
  e ≠ Interview ->
  @updatedAt_of _ (PostgresStorage_IStorage accepts) e
     (@step _ (PostgresStorage_IStorage accepts) now o d).2 id
   = @updatedAt_of _ (PostgresStorage_IStorage accepts) e d id
  \/ @updatedAt_of _ (PostgresStorage_IStorage accepts) e
       (@step _ (PostgresStorage_IStorage accepts) now o d).2 id
     = Some (VDate now)
  \/ @updatedAt_of _ (PostgresStorage_IStorage accepts) e
       (@step _ (PostgresStorage_IStorage accepts) now o d).2 id = None.
Proof.
  intros He. destruct o as [fields|e0 fields|e0 id0 partial|e0 id0];
    cbn [step].
  - cbn [createUser PostgresStorage_IStorage].
    unfold PostgresStorage.createUser, mbind, result_bind.
    destruct (PostgresStorage.sql_insert _ _ _ _ _) as [[r d']|] eqn:Hins;
      [|by left].
    apply pg_sql_insert_Ok in Hins as [_ ->]. left. cbn [snd].
    rewrite !pg_updatedAt_of by done.
    by rewrite pg_rows_write_ne by (symmetry; apply pg_table_not_users).
  - destruct (create_entity e0 now fields d) as [[x d']|] eqn:Hc; [|by left].
    apply pg_create_entity_Ok in Hc as (r & values & Hins & _ & _ & Hlast).
    apply pg_sql_insert_Ok in Hins as [Hr ->]. cbn [snd].
    rewrite !pg_updatedAt_of by done.
    destruct (decide (e0 = e)) as [->|Hne].
    + rewrite pg_rows_write.
      destruct (decide (id = PostgresStorage.nextval (pg_table e) d))
        as [->|Hk].
      * right; left. rewrite lookup_insert_eq. simpl.
        rewrite Hr, pg_assign_lookup. by rewrite Hlast.
      * left. by rewrite lookup_insert_ne.
    + left. rewrite pg_rows_write_ne; [done|].
      intros Heq. by apply pg_table_inj in Heq.
  - destruct (update_entity e0 now id0 partial d) as [[x d']|] eqn:Hu;
      [|by left].
    apply pg_update_entity_Ok in Hu as (r0 & sets & Hr0 & _ & -> & Hlast).
    cbn [snd]. rewrite !pg_updatedAt_of by done.
    destruct (decide (e0 = e)) as [->|Hne].
    + rewrite pg_rows_write. destruct (decide (id = id0)) as [->|Hk].
      * right; left. rewrite lookup_insert_eq. simpl. by apply Hlast.
      * left. by rewrite lookup_insert_ne.
    + left. rewrite pg_rows_write_ne; [done|].
      intros Heq. by apply pg_table_inj in Heq.
  - rewrite pg_delete_entity. cbn [snd]. rewrite !pg_updatedAt_of by done.
    rewrite pg_rows_sql_delete by (by destruct e).
    case_decide as Heq.
    + apply pg_table_inj in Heq as ->.
      destruct (decide (id = id0)) as [->|Hk].
      * right; right. by rewrite lookup_delete_eq.
      * left. by rewrite lookup_delete_ne.
    + by left.
Qed.

Lemma pg_init_bounded accepts T :
  @bounded _ (PostgresStorage_IStorage accepts) PostgresStorage.init T.
Proof.
  intros e id t He. rewrite pg_updatedAt_of by done.
  destruct e; simpl; by rewrite lookup_empty.
Qed.

Lemma mem_create_entity_Ok e now fields (st : MemStorage.t) :
  exists x st', create_entity e now fields st = Ok (x, st').
Proof. destruct e; simpl; by do 2 eexists. Qed.

Lemma mem_update_entity_Ok e now id partial (st : MemStorage.t) y :
  get_entity e st id = Ok (Some y) ->
  exists x st', update_entity e now id partial st = Ok (x, st').
Proof.
  destruct e; simpl;
    unfold MemStorage.getJobApplicationById, MemStorage.getDocumentById,
           MemStorage.getInterviewById, MemStorage.updateJobApplication,
           MemStorage.updateDocument, MemStorage.updateInterview;
    intros [= ->]; by do 2 eexists.
Qed.

(** C3: a successful create or update of a job application or document
    returns and stores a record whose [updatedAt] is the clock reading of
    the call, whatever [updatedAt] the payload carries; on the in-memory
    store a create always succeeds and an update succeeds when the id is
    present.  Hence, along calls whose clock readings never go back, the
    [updatedAt] of an entity never goes back.  Both stores. *)
Theorem C3_updatedAt_is_server_time :
  (stamps_updatedAt MemStorage.t
   /\ (forall e now fields (st : MemStorage.t),
         exists x st', create_entity e now fields st = Ok (x, st'))
   /\ (forall e now id partial (st : MemStorage.t) y,
         get_entity e st id = Ok (Some y) ->
         exists x st', update_entity e now id partial st = Ok (x, st'))
   /\ updatedAt_monotone MemStorage.t MemStorage.init)
  /\ (forall accepts,
        @stamps_updatedAt _ (PostgresStorage_IStorage accepts)
        /\ @updatedAt_monotone _ (PostgresStorage_IStorage accepts)
             PostgresStorage.init).
Proof.
  split; [split; [|split; [|split]]|].
  - exact mem_stamps_updatedAt.
  - exact mem_create_entity_Ok.
  - exact mem_update_entity_Ok.
  - apply run_monotone; [exact mem_step_updatedAt|exact mem_init_bounded].
  - intros accepts. split; [apply pg_stamps_updatedAt|].
    apply run_monotone; [apply pg_step_updatedAt|apply pg_init_bounded].
Qed.

Lemma C3_witness :
  (create_entity Application 1000 stale MemStorage.init
     = Ok (MemStorage.createJobApplication 1000 stale MemStorage.init)
   /\ (MemStorage.createJobApplication 1000 stale MemStorage.init).1
        !! "updatedAt" = Some (VDate 1000))
  /\ (clock_ok 0 ([(1000, Create Application stale)]
                    ++ [(2000, Update Application 1 stale)])
      /\ updatedAt_of Application
           (run [(1000, Create Application stale)] MemStorage.init) 1
         = Some (VDate 1000)
      /\ updatedAt_of Application
           (run [(2000, Update Application 1 stale)]
              (run [(1000, Create Application stale)] MemStorage.init)) 1
         = Some (VDate 2000)
      /\ 1000 <= 2000).
Proof.
  destruct C3_updatedAt_is_server_time as [(Hstamp & _ & _ & Hmono) _].
  assert (Hc : create_entity Application 1000 stale MemStorage.init
     = Ok (MemStorage.createJobApplication 1000 stale MemStorage.init))
    by reflexivity.
  assert (Hclock : clock_ok 0 ([(1000, Create Application stale)]
                    ++ [(2000, Update Application 1 stale)]))
    by (simpl; lia).
  assert (H1 : updatedAt_of Application
           (run [(1000, Create Application stale)] MemStorage.init) 1
         = Some (VDate 1000)) by (vm_compute; reflexivity).
  assert (H2 : updatedAt_of Application
           (run [(2000, Update Application 1 stale)]
              (run [(1000, Create Application stale)] MemStorage.init)) 1
         = Some (VDate 2000)) by (vm_compute; reflexivity).
  split; [split; [exact Hc|]|].
  - destruct (MemStorage.createJobApplication 1000 stale MemStorage.init)
      as [x st'] eqn:Hx.
    assert (Ha : Application ≠ Interview) by discriminate.
    exact (proj1 (proj1 (Hstamp Application 1000 MemStorage.init x st' Ha)
                    stale Hc)).
  - split; [exact Hclock|]. split; [exact H1|]. split; [exact H2|].
    assert (Ha : Application ≠ Interview) by discriminate.
    exact (Hmono 0 _ _ Application 1 1000 2000 Ha Hclock H1 H2).
Defined.

(** ** The dashboard statistics *)

Lemma count_status_nonneg s l : 0 <= count_status s l.
Proof. unfold count_status. lia. Qed.

Lemma count_interview_offer_le (l : list obj) :
  count_status "interview" l + count_status "offer" l
  <= Z.of_nat (length l).
Proof.
  unfold count_status. induction l as [|x l IH]; [simpl; lia|].
  rewrite !filter_cons. repeat case_decide; simpl length; try lia.
  congruence.
Qed.

Lemma Math_min_dates ds : forall ts t0,
  Forall2 (fun (d : option Z) t => d = Some t) ds ts ->
  exists m, Math_min (Some t0) ds = Some m
            /\ m ∈ t0 :: ts /\ forall t, t ∈ t0 :: ts -> m <= t.
Proof.
  unfold Math_min.
  induction ds as [|d ds IH]; intros ts t0 H.
  - inversion H; subst. exists t0. split; [done|]. split; [by left|].
    intros t Ht. apply list_elem_of_singleton in Ht. lia.
  - inversion H as [|d' y ds' ts' Hd Hrest]; subst. simpl.
    destruct (IH ts' (Z.min t0 y) Hrest) as (m & Hm & Hin & Hle).
    exists m. split; [exact Hm|]. split.
    + apply elem_of_cons in Hin as [->|Hin].
      * destruct (Z.min_spec t0 y) as [[_ ->]|[_ ->]];
          [by left|right; by left].
      * right; by right.
    + intros t Ht.
      pose proof (Hle (Z.min t0 y) ltac:(by left)) as Hmin.
      apply elem_of_cons in Ht as [->|Ht]; [lia|].
      apply elem_of_cons in Ht as [->|Ht]; [lia|].
      apply Hle. by right.
Qed.

Lemma applied_dates Date_parse (apps : list obj) (ts : list Z) :
  Forall2 (fun (app : obj) t =>
             Date_getTime Date_parse (app !! "appliedDate") = Some t) apps ts ->
  Forall2 (fun (d : option Z) t => d = Some t)
          (map (fun app : obj => Date_getTime Date_parse (app !! "appliedDate"))
               apps) ts.
Proof.
  induction 1 as [|app t apps ts Happ _ IH]; simpl; constructor; done.
Qed.

(** ** Doubles: the quotient by a day

    [SFdiv] divides the mantissas with 53 extra bits, keeps where the
    remainder lies, and rounds to nearest even.  The quotient of two
    doubles is therefore within half a unit in the last place of the
    exact quotient ([divide_spec]); a time difference below 2^53 divided
    by 86 400 000 is so close to the exact quotient that both have the
    same floor ([floor_divide_day]). *)

(** [digits2_pos p] is the number of bits of [p]. *)
Lemma digits2_pos_bounds p :
  2 ^ (Zpos (digits2_pos p) - 1) <= Zpos p < 2 ^ Zpos (digits2_pos p).
Proof.
  induction p as [p IH|p IH|]; simpl digits2_pos.
  - rewrite Pos2Z.inj_succ.
    replace (Z.succ (Zpos (digits2_pos p)) - 1) with (Zpos (digits2_pos p)) by lia.
    rewrite Z.pow_succ_r by lia.
    replace (Zpos (digits2_pos p)) with (Z.succ (Zpos (digits2_pos p) - 1)) at 1 by lia.
    rewrite Z.pow_succ_r by lia. lia.
  - rewrite Pos2Z.inj_succ.
    replace (Z.succ (Zpos (digits2_pos p)) - 1) with (Zpos (digits2_pos p)) by lia.
    rewrite Z.pow_succ_r by lia.
    replace (Zpos (digits2_pos p)) with (Z.succ (Zpos (digits2_pos p) - 1)) at 1 by lia.
    rewrite Z.pow_succ_r by lia. lia.
  - simpl. lia.
Qed.

Lemma digits2_pos_unique p k :
  2 ^ (k - 1) <= Zpos p < 2 ^ k -> Zpos (digits2_pos p) = k.
Proof.
  intros [Hlo Hhi]. pose proof (digits2_pos_bounds p) as [Hlo' Hhi'].
  assert (0 < k).
  { destruct (Z_lt_le_dec 0 k); [done|].
    assert (2 ^ k <= 1); [|lia].
    destruct (Z.eq_dec k 0) as [->|]; [simpl; lia|].
    rewrite Z.pow_neg_r by lia. lia. }
  destruct (Z_lt_le_dec (Zpos (digits2_pos p)) k) as [Hlt|Hge].
  - assert (2 ^ Zpos (digits2_pos p) <= 2 ^ (k - 1))
      by (apply Z.pow_le_mono_r; lia). lia.
  - destruct (Z_lt_le_dec k (Zpos (digits2_pos p))) as [Hlt|Hge'];
      [|lia].
    assert (2 ^ k <= 2 ^ (Zpos (digits2_pos p) - 1))
      by (apply Z.pow_le_mono_r; lia). lia.
Qed.

(** Away from the subnormal range a double has 53 bits. *)
Lemma fexp_normal e : -1021 <= e -> fexp prec emax e = e - 53.
Proof. intros H. unfold fexp, emin, prec, emax. lia. Qed.

Lemma Pos_iter_xO p n : Zpos (Pos.iter xO p n) = Zpos p * 2 ^ Zpos n.
Proof.
  induction n as [|n IH] using Pos.peano_ind.
  - simpl. lia.
  - rewrite Pos.iter_succ, Pos2Z.inj_succ, Z.pow_succ_r by lia.
    rewrite Pos2Z.inj_xO, IH. lia.
Qed.

(** Rounding a mantissa of 53 bits that is exact changes nothing. *)
Lemma binary_round_aux_exact s m e :
  Zpos (digits2_pos m) = 53 -> -1074 <= e <= 971 ->
  binary_round_aux prec emax s (Zpos m) e loc_Exact = S754_finite s m e.
Proof.
  intros Hd He. unfold binary_round_aux, shr_fexp. simpl Zdigits2.
  rewrite Hd, fexp_normal by lia.
  replace (53 + e - 53 - e) with 0 by lia. simpl.
  rewrite Hd, fexp_normal by lia.
  replace (53 + e - 53 - e) with 0 by lia. simpl.
  unfold emax, prec. destruct (Z.leb_spec e (1024 - 53)); [done|lia].
Qed.

(** The double of a positive integer below 2^53: a mantissa of 53 bits
    and a non-positive exponent. *)
Lemma Number_pos (p : positive) :
  Zpos p < 2 ^ 53 ->
  exists m e,
    binary_round prec emax false p 0 = S754_finite false m e
    /\ binary_round prec emax true p 0 = S754_finite true m e
    /\ Zpos (digits2_pos m) = 53
    /\ -52 <= e <= 0
    /\ Zpos m = Zpos p * 2 ^ (- e).
Proof.
  intros Hp. pose proof (digits2_pos_bounds p) as [Hlo Hhi].
  set (b := Zpos (digits2_pos p)) in *.
  assert (Hb : 1 <= b <= 53).
  { split; [lia|].
    destruct (Z_lt_le_dec 53 b) as [Hlt|]; [|done].
    assert (2 ^ 53 <= 2 ^ (b - 1)) by (apply Z.pow_le_mono_r; lia). lia. }
  unfold binary_round. fold b. rewrite Z.add_0_r, fexp_normal by lia.
  unfold shl_align. rewrite Z.sub_0_r.
  destruct (b - 53) as [|q|q] eqn:Hq; try lia.
  - exists p, 0. rewrite !binary_round_aux_exact by (fold b; lia).
    repeat split; try done; fold b; lia.
  - assert (Hdig : Zpos (digits2_pos (Pos.iter xO p q)) = 53).
    { apply digits2_pos_unique. rewrite Pos_iter_xO.
      assert (Zpos q = 53 - b) as -> by lia.
      replace (2 ^ (53 - 1)) with (2 ^ (b - 1) * 2 ^ (53 - b))
        by (rewrite <- Z.pow_add_r by lia; f_equal; lia).
      replace (2 ^ 53) with (2 ^ b * 2 ^ (53 - b))
        by (rewrite <- Z.pow_add_r by lia; f_equal; lia).
      assert (0 < 2 ^ (53 - b)) by (apply Z.pow_pos_nonneg; lia).
      nia. }
    exists (Pos.iter xO p q), (Zneg q).
    rewrite !binary_round_aux_exact by (done || lia).
    repeat split; try done; try lia.
    rewrite Pos_iter_xO. done.
Qed.

Lemma new_location_ok d r :
  Z.even d = true -> 0 <= r < d -> loc_ok (new_location d r) r d.
Proof.
  intros Heven Hr. unfold new_location. rewrite Heven.
  unfold new_location_even. destruct (Z.eqb_spec r 0) as [->|Hne]; [done|].
  destruct (Z.compare_spec (2 * r) d); simpl; lia.
Qed.

Lemma binary_round_aux_finish s mx ex lx :
  binary_round_aux prec emax s mx ex lx
  = let '(mrs, e) := shr_fexp prec emax mx ex lx in
    finish_round s (round_nearest_even (shr_m mrs) (loc_of_shr_record mrs)) e.
Proof. reflexivity. Qed.

Lemma finish_round_spec s (mr : positive) e :
  Zpos (digits2_pos mr) = 53 \/ Zpos mr = 2 ^ 53 ->
  -1000 <= e <= 900 ->
  exists m k,
    finish_round s (Zpos mr) e = S754_finite s m (e + k)
    /\ 0 <= k <= 1
    /\ Zpos (digits2_pos m) = 53
    /\ 2 ^ k * Zpos m = Zpos mr.
Proof.
  intros [Hd|Hm] He; unfold finish_round, shr_fexp; simpl Zdigits2.
  - rewrite Hd, fexp_normal by lia.
    replace (53 + e - 53 - e) with 0 by lia. simpl.
    exists mr, 0. rewrite Z.add_0_r.
    unfold emax, prec. destruct (Z.leb_spec e (1024 - 53)); [|lia].
    repeat split; try done; lia.
  - assert (mr = 9007199254740992%positive) as -> by lia.
    change (Zpos (digits2_pos 9007199254740992)) with 54.
    rewrite fexp_normal by lia.
    replace (54 + e - 53 - e) with 1 by lia. simpl.
    exists 4503599627370496%positive, 1.
    unfold emax, prec. destruct (Z.leb_spec (e + 1) (1024 - 53)); [|lia].
    repeat split; try done; lia.
Qed.

Lemma round_up_digits q :
  Zpos (digits2_pos q) = 53 ->
  Zpos (digits2_pos (q + 1)) = 53 \/ Zpos (q + 1) = 2 ^ 53.
Proof.
  intros Hd. pose proof (digits2_pos_bounds q) as Hq. rewrite Hd in Hq.
  destruct (Z.eq_dec (Zpos (q + 1)) (2 ^ 53)) as [|Hne]; [by right|left].
  apply digits2_pos_unique. lia.
Qed.

Lemma finish_bound s (mr : positive) e0 e1 n0 qd r d :
  e1 = e0 + n0 ->
  Zpos (digits2_pos mr) = 53 \/ Zpos mr = 2 ^ 53 ->
  -1000 <= e0 <= 800 -> 0 <= n0 <= 1 -> 0 < d ->
  2 * Z.abs (2 ^ n0 * Zpos mr * d - (qd + r)) <= 2 ^ n0 * d ->
  exists m n,
    finish_round s (Zpos mr) e1 = S754_finite s m (e0 + n)
    /\ 0 <= n <= 2
    /\ Zpos (digits2_pos m) = 53
    /\ 2 * Z.abs (2 ^ n * Zpos m * d - (qd + r)) <= 2 ^ n * d.
Proof.
  intros -> Hmr He Hn0 Hd Hbound.
  destruct (finish_round_spec s mr (e0 + n0) Hmr ltac:(lia))
    as (m & k & Hfin & Hk & Hdig & Hval).
  exists m, (n0 + k). rewrite Z.add_assoc. split; [exact Hfin|].
  split; [lia|]. split; [exact Hdig|].
  rewrite Z.pow_add_r by lia.
  replace (2 ^ n0 * 2 ^ k * Zpos m * d) with (2 ^ n0 * (2 ^ k * Zpos m) * d)
    by ring.
  rewrite Hval.
  assert (0 < 2 ^ k) by (apply Z.pow_pos_nonneg; lia).
  assert (0 < 2 ^ n0) by (apply Z.pow_pos_nonneg; lia).
  assert (2 ^ n0 * d <= 2 ^ n0 * 2 ^ k * d) by nia.
  lia.
Qed.

(** [binary_round_aux] on a quotient [q] of 53 or 54 bits with remainder
    [r] of divisor [d]: the result is a double [m * 2^(e + n)] within half
    a unit in the last place of [(q + r / d) * 2^e]. *)
Lemma binary_round_aux_quotient s (q : positive) e l r d :
  0 < d -> 0 <= r < d -> loc_ok l r d ->
  53 <= Zpos (digits2_pos q) <= 54 -> -1000 <= e <= 800 ->
  exists m n,
    binary_round_aux prec emax s (Zpos q) e l = S754_finite s m (e + n)
    /\ 0 <= n <= 2
    /\ Zpos (digits2_pos m) = 53
    /\ 2 * Z.abs (2 ^ n * Zpos m * d - (Zpos q * d + r)) <= 2 ^ n * d.
Proof.
  intros Hd Hr Hl Hq He. rewrite binary_round_aux_finish.
  unfold shr_fexp. simpl Zdigits2.
  destruct (Z.eq_dec (Zpos (digits2_pos q)) 53) as [Hq53|Hq53].
  - rewrite Hq53, fexp_normal by lia.
    replace (53 + e - 53 - e) with 0 by lia. cbn [shr].
    destruct l as [|[]]; cbn [shr_record_of_loc shr_m loc_of_shr_record
                               round_nearest_even]; simpl in Hl;
      try destruct (Z.even (Zpos q));
      try change (Zpos q + 1) with (Zpos (q + 1)).
    all: apply (finish_bound s _ e e 0).
    all: try lia.
    all: first [ by left | by apply round_up_digits ].
  - assert (Hq54 : Zpos (digits2_pos q) = 54) by lia. clear Hq53.
    rewrite Hq54, fexp_normal by lia.
    replace (54 + e - 53 - e) with 1 by lia. cbn [shr SpecFloat.iter_pos].
    destruct q as [q'|q'|]; [| |simpl in Hq54; lia];
      simpl digits2_pos in Hq54; rewrite Pos2Z.inj_succ in Hq54;
      assert (Hq' : Zpos (digits2_pos q') = 53) by lia;
      destruct l as [|[]];
      cbn [shr_record_of_loc shr_1 orb shr_m loc_of_shr_record
           round_nearest_even]; simpl in Hl;
      try destruct (Z.even (Zpos q'));
      try change (Zpos q' + 1) with (Zpos (q' + 1)).
    all: apply (finish_bound s _ e (e + 1) 1).
    all: try lia.
    all: first [ by left | by apply round_up_digits ].
Qed.

(** The quotient of two doubles with mantissas of 53 bits, the divisor's
    being even: a double within half a unit in the last place of the exact
    quotient. *)
Lemma divide_spec s (m : positive) e (mD : positive) eD :
  Zpos (digits2_pos m) = 53 -> Zpos (digits2_pos mD) = 53 ->
  Z.even (Zpos mD) = true -> -60 <= e <= 0 -> -60 <= eD <= 0 ->
  exists mz n,
    divide (S754_finite s m e) (S754_finite false mD eD)
      = S754_finite s mz (e - eD - 53 + n)
    /\ 0 <= n <= 2
    /\ Zpos (digits2_pos mz) = 53
    /\ 2 * Z.abs (2 ^ n * Zpos mz * Zpos mD - Zpos m * 2 ^ 53)
       <= 2 ^ n * Zpos mD.
Proof.
  intros Hm HmD Heven He HeD.
  pose proof (digits2_pos_bounds m) as Bm. rewrite Hm in Bm.
  pose proof (digits2_pos_bounds mD) as BmD. rewrite HmD in BmD.
  unfold divide, SFdiv, SFdiv_core_binary. simpl Zdigits2.
  rewrite Hm, HmD, fexp_normal by lia.
  replace (Z.min (53 + e - (53 + eD) - 53) (e - eD)) with (e - eD - 53) by lia.
  replace (e - eD - (e - eD - 53)) with 53 by lia.
  rewrite Z.shiftl_mul_pow2 by lia.
  pose proof (Z_div_mod (Zpos m * 2 ^ 53) (Zpos mD) ltac:(lia)) as Hdiv.
  destruct (Z.div_eucl (Zpos m * 2 ^ 53) (Zpos mD)) as [q r].
  destruct Hdiv as [Hqr Hr]. rewrite xorb_false_r.
  change (2 ^ (53 - 1)) with 4503599627370496 in *.
  change (2 ^ 53) with 9007199254740992 in *.
  assert (Hq : 4503599627370496 <= q < 18014398509481984) by nia.
  destruct q as [|q|q]; try lia.
  assert (Hdq : 53 <= Zpos (digits2_pos q) <= 54).
  { destruct (Z_lt_le_dec (Zpos q) 9007199254740992).
    - rewrite (digits2_pos_unique q 53); [lia|].
      change (2 ^ (53 - 1)) with 4503599627370496.
      change (2 ^ 53) with 9007199254740992. lia.
    - rewrite (digits2_pos_unique q 54); [lia|].
      change (2 ^ (54 - 1)) with 9007199254740992.
      change (2 ^ 54) with 18014398509481984. lia. }
  destruct (binary_round_aux_quotient s q (e - eD - 53)
              (new_location (Zpos mD) r) r (Zpos mD))
    as (mz & n & Hres & Hn & Hdz & Hbound); try lia.
  { by apply new_location_ok. }
  exists mz, n. split; [exact Hres|]. split; [exact Hn|].
  split; [exact Hdz|]. rewrite Hqr.
  replace (Zpos mD * Zpos q + r) with (Zpos q * Zpos mD + r) by ring.
  exact Hbound.
Qed.

Lemma Number_day : Number day = S754_finite false 5798205849600000 (-26).
Proof. by vm_compute. Qed.

(** The integer argument behind the floor of the quotient by a day. *)
Lemma floor_day_bound (X U v P : Z) n :
  0 <= n <= 2 -> 1 <= P ->
  4503599627370496 <= Z.abs X -> Z.abs U < 9007199254740992 ->
  86400000 * v <= U <= 86400000 * v + 86399999 * P ->
  2 * Z.abs (2 ^ n * X * 5798205849600000 - U * 9007199254740992)
    <= 2 ^ n * 5798205849600000 ->
  2 ^ (27 - n) * v <= X < 2 ^ (27 - n) * (v + P).
Proof.
  intros Hn HP HX HU Hv Hb.
  assert (n = 0 \/ n = 1 \/ n = 2) as [-> | [-> | ->]] by lia.
  - change (2 ^ 0) with 1 in *. change (2 ^ (27 - 0)) with 134217728. lia.
  - change (2 ^ 1) with 2 in *. change (2 ^ (27 - 1)) with 67108864. lia.
  - change (2 ^ 2) with 4 in *. change (2 ^ (27 - 2)) with 33554432. lia.
Qed.

Lemma Math_floor_negative_exponent s m e :
  e < 0 ->
  Math_floor (S754_finite s m e)
    = Some ((if s then Zneg m else Zpos m) / 2 ^ (- e)).
Proof. destruct e; try lia. intros _. reflexivity. Qed.

Lemma Number_signed (s : bool) (p : positive) :
  Number (if s then Zneg p else Zpos p) = binary_round prec emax s p 0.
Proof. by destruct s. Qed.

(** Dividing a time difference by a day in doubles and flooring gives the
    quotient of the integers, for every difference that a double holds
    exactly. *)
Lemma floor_divide_day (d : Z) :
  Z.abs d < 2 ^ 53 ->
  Math_floor (divide (Number d) (Number day)) = Some (d / day).
Proof.
  intros Hd. rewrite Number_day.
  assert (exists (s : bool) p, d = 0 \/ (d = (if s then Zneg p else Zpos p)))
    as (s & p & [-> | ->]).
  { destruct d as [|p|p]; [exists false, 1%positive; by left
                          | exists false, p; by right
                          | exists true, p; by right]. }
  { reflexivity. }
  rewrite Number_signed.
  destruct (Number_pos p) as (m & e & Hpos & Hneg & Hdm & He & Hm).
  { destruct s; lia. }
  assert (binary_round prec emax s p 0 = S754_finite s m e) as ->
    by (by destruct s).
  destruct (divide_spec s m e 5798205849600000 (-26))
    as (mz & n & -> & Hn & Hdz & Hb); [done|done|done|lia|lia|].
  pose proof (digits2_pos_bounds m) as Bm. rewrite Hdm in Bm.
  pose proof (digits2_pos_bounds mz) as Bz. rewrite Hdz in Bz.
  change (2 ^ (53 - 1)) with 4503599627370496 in *.
  change (2 ^ 53) with 9007199254740992 in *.
  rewrite Math_floor_negative_exponent by lia. f_equal.
  replace (- (e - -26 - 53 + n)) with ((27 - n) + - e) by lia.
  rewrite Z.pow_add_r by lia.
  assert (HP : 1 <= 2 ^ (- e)) by (apply (Z.pow_le_mono_r 2 0); lia).
  generalize dependent (2 ^ (- e)). intros P Hm HP. clear Hpos Hneg Hdm Hdz He e Hd.
  assert (Hday : day = 86400000) by reflexivity. rewrite Hday. clear Hday.
  set (X := if s then Zneg mz else Zpos mz).
  set (D := if s then Zneg p else Zpos p).
  set (U := if s then Zneg m else Zpos m).
  assert (HU : U = D * P) by (subst U D; destruct s; lia).
  assert (HX : 4503599627370496 <= Z.abs X) by (subst X; destruct s; lia).
  assert (HUb : Z.abs U < 9007199254740992) by (subst U; destruct s; lia).
  assert (HB : 2 * Z.abs (2 ^ n * X * 5798205849600000 - U * 9007199254740992)
                 <= 2 ^ n * 5798205849600000).
  { subst X U. destruct s; [|exact Hb].
    replace (2 ^ n * Z.neg mz * 5798205849600000
                 - Z.neg m * 9007199254740992)
        with (- (2 ^ n * Zpos mz * 5798205849600000
                 - Zpos m * 9007199254740992)) by lia.
    rewrite Z.abs_opp. exact Hb. }
  clearbody X D U. clear Hb Hm Bm Bz m mz p s.
  pose proof (Z.div_mod D 86400000 ltac:(lia)) as Hdiv.
  pose proof (Z.mod_pos_bound D 86400000 ltac:(lia)) as Hmod.
  set (K := D / 86400000) in *. clearbody K.
  destruct (floor_day_bound X U (K * P) P n) as [Hlo Hhi];
    [lia | lia | lia | lia | nia | exact HB | ].
  symmetry.
  apply (Z.div_unique X (2 ^ (27 - n) * P) K
             (X - 2 ^ (27 - n) * P * K)); [left|]; nia.
Qed.

(** ** Doubles: the product, and the percentage

    [SFmul] multiplies the mantissas and rounds the 105 or 106 bits of the
    product to 53, so the product of two doubles is within half a unit in
    the last place of the exact product ([times_spec]).  With
    [divide_spec], the double ((a / t) * 100) differs from the exact
    percentage by less than 2^-41, which for [t < 2^40] is less than the
    distance 1 / (2 t) from a percentage that is not a tie to the nearest
    tie: [Math.round] of the double is the nearest integer, unless the
    exact percentage is a tie ([percentage_nearest]). *)

Lemma iter_pos_nat {A} (f : A -> A) (n : positive) : forall x,
  SpecFloat.iter_pos f n x = Nat.iter (Pos.to_nat n) f x.
Proof.
  induction n as [n IH|n IH|]; intros x; simpl SpecFloat.iter_pos.
  - rewrite !IH, Pos2Nat.inj_xI, <- Nat.iter_add.
    replace (2 * Pos.to_nat n)%nat with (Pos.to_nat n + Pos.to_nat n)%nat by lia.
    by rewrite Nat.iter_succ_r.
  - rewrite !IH, Pos2Nat.inj_xO, <- Nat.iter_add.
    by replace (2 * Pos.to_nat n)%nat with (Pos.to_nat n + Pos.to_nat n)%nat by lia.
  - reflexivity.
Qed.

(** One shift to the right: the mantissa is halved, the bit that falls
    off is the round bit, and the sticky bit collects the rest. *)
Lemma shr_1_spec m r s :
  0 <= m ->
  shr_1 {| shr_m := m; shr_r := r; shr_s := s |}
  = {| shr_m := m / 2; shr_r := Z.odd m; shr_s := r || s |}.
Proof.
  intros Hm. destruct m as [|[p|p|]|p]; try lia; simpl shr_1.
  - reflexivity.
  - by replace (Zpos p~1 / 2) with (Zpos p)
      by (apply (Z.div_unique (Zpos p~1) 2 (Zpos p) 1); lia).
  - by replace (Zpos p~0 / 2) with (Zpos p)
      by (apply (Z.div_unique (Zpos p~0) 2 (Zpos p) 0); lia).
  - reflexivity.
Qed.

(** [k] shifts to the right of an exact mantissa [M]: what is left is the
    quotient by [2^k], and the location tells where the remainder lies. *)
Lemma shr_iter (M : Z) (k : nat) :
  0 <= M ->
  let mrs := Nat.iter k shr_1 {| shr_m := M; shr_r := false; shr_s := false |} in
  exists rem,
    M = 2 ^ Z.of_nat k * shr_m mrs + rem
    /\ 0 <= rem < 2 ^ Z.of_nat k
    /\ 0 <= shr_m mrs
    /\ loc_ok (loc_of_shr_record mrs) rem (2 ^ Z.of_nat k).
Proof.
  intros HM. induction k as [|k IH].
  - exists 0. simpl. repeat split; lia.
  - cbn zeta in *. rewrite Nat.iter_succ.
    destruct IH as (rem & HMk & Hrem & Hpos & Hloc).
    destruct (Nat.iter k shr_1 _) as [m r s]. cbn [shr_m] in *.
    rewrite shr_1_spec by done. cbn [shr_m].
    rewrite Nat2Z.inj_succ, Z.pow_succ_r by lia.
    pose proof (Z.div_mod m 2 ltac:(lia)) as Hdiv.
    pose proof (Z.mod_pos_bound m 2 ltac:(lia)) as Hmod.
    assert (Hodd : Z.odd m = true /\ m mod 2 = 1
                   \/ Z.odd m = false /\ m mod 2 = 0).
    { rewrite Zmod_odd. destruct (Z.odd m); [by left|by right]. }
    assert (0 < 2 ^ Z.of_nat k) by (apply Z.pow_pos_nonneg; lia).
    exists (2 ^ Z.of_nat k * (m mod 2) + rem).
    split; [nia|]. split; [nia|]. split; [apply Z.div_pos; lia|].
    destruct Hodd as [[-> ->]|[-> ->]], r, s; simpl in Hloc |- *; lia.
Qed.

Lemma binary_round_aux_53 s (q : positive) e l :
  Zpos (digits2_pos q) = 53 -> -1000 <= e <= 800 ->
  binary_round_aux prec emax s (Zpos q) e l
  = finish_round s (round_nearest_even (Zpos q) l) e.
Proof.
  intros Hq He. rewrite binary_round_aux_finish. unfold shr_fexp.
  simpl Zdigits2. rewrite Hq, fexp_normal by lia.
  replace (53 + e - 53 - e) with 0 by lia. cbn [shr].
  by destruct l as [|[]].
Qed.

(** Rounding an exact mantissa [M] of [53 + k] bits: a double within half
    a unit in the last place. *)
Lemma binary_round_aux_shift s (M : positive) e (k : positive) :
  Zpos (digits2_pos M) = 53 + Zpos k -> -900 <= e <= 0 -> Zpos k <= 100 ->
  exists m j,
    binary_round_aux prec emax s (Zpos M) e loc_Exact
      = S754_finite s m (e + j)
    /\ Zpos k <= j <= Zpos k + 2
    /\ Zpos (digits2_pos m) = 53
    /\ 2 * Z.abs (2 ^ j * Zpos m - Zpos M) <= 2 ^ j.
Proof.
  intros HD He Hk. pose proof (digits2_pos_bounds M) as BM. rewrite HD in BM.
  rewrite binary_round_aux_finish. unfold shr_fexp. simpl Zdigits2.
  rewrite HD, fexp_normal by lia.
  replace (53 + Zpos k + e - 53 - e) with (Zpos k) by lia.
  cbn [shr shr_record_of_loc]. rewrite iter_pos_nat.
  destruct (shr_iter (Zpos M) (Pos.to_nat k) ltac:(lia))
    as (rem & HM & Hrem & Hpos & Hloc).
  rewrite positive_nat_Z in *.
  destruct (Nat.iter _ _ _) as [mk r0 s0] eqn:Hrec. cbn [shr_m] in *.
  set (l := loc_of_shr_record _) in *. clearbody l. clear Hrec r0 s0.
  assert (Hpow : 0 < 2 ^ Zpos k) by (apply Z.pow_pos_nonneg; lia).
  replace (53 + Zpos k - 1) with (52 + Zpos k) in BM by lia.
  rewrite !Z.pow_add_r in BM by lia.
  change (2 ^ 52) with 4503599627370496 in BM.
  change (2 ^ 53) with 9007199254740992 in BM.
  assert (Hmk : 4503599627370496 <= mk < 9007199254740992) by nia.
  destruct mk as [|q|q]; try lia.
  assert (Hq : Zpos (digits2_pos q) = 53).
  { apply digits2_pos_unique.
    change (2 ^ (53 - 1)) with 4503599627370496.
    change (2 ^ 53) with 9007199254740992. lia. }
  rewrite <- binary_round_aux_53 by (done || lia).
  destruct (binary_round_aux_quotient s q (e + Zpos k) l rem (2 ^ Zpos k))
    as (m & n & Hres & Hn & Hdm & Hb); [lia|lia|exact Hloc|lia|lia|].
  exists m, (Zpos k + n). rewrite Z.add_assoc. split; [exact Hres|].
  split; [lia|]. split; [exact Hdm|].
  rewrite Z.pow_add_r by lia.
  replace (2 ^ Zpos k * 2 ^ n * Zpos m - Zpos M)
    with (2 ^ n * Zpos m * 2 ^ Zpos k - (Zpos q * 2 ^ Zpos k + rem)) by lia.
  lia.
Qed.

Lemma times_spec s (mx : positive) ex (my : positive) ey :
  Zpos (digits2_pos mx) = 53 -> Zpos (digits2_pos my) = 53 ->
  -200 <= ex <= 0 -> -200 <= ey <= 0 ->
  exists m j,
    times (S754_finite s mx ex) (S754_finite false my ey)
      = S754_finite s m (ex + ey + j)
    /\ 52 <= j <= 55
    /\ Zpos (digits2_pos m) = 53
    /\ 2 * Z.abs (2 ^ j * Zpos m - Zpos mx * Zpos my) <= 2 ^ j.
Proof.
  intros Hx Hy Hex Hey.
  pose proof (digits2_pos_bounds mx) as Bx. rewrite Hx in Bx.
  pose proof (digits2_pos_bounds my) as By. rewrite Hy in By.
  change (2 ^ (53 - 1)) with 4503599627370496 in *.
  change (2 ^ 53) with 9007199254740992 in *.
  unfold times, SFmul. rewrite xorb_false_r.
  assert (HM : 20282409603651670423947251286016 <= Zpos (mx * my)
               < 81129638414606681695789005144064).
  { rewrite Pos2Z.inj_mul. nia. }
  assert (exists k : positive,
             Zpos (digits2_pos (mx * my)) = 53 + Zpos k /\ 52 <= Zpos k <= 53)
    as (k & HD & Hk).
  { destruct (Z_lt_le_dec (Zpos (mx * my)) 40564819207303340847894502572032).
    - exists 52%positive. split; [|lia]. apply digits2_pos_unique.
      change (2 ^ (53 + 52 - 1)) with 20282409603651670423947251286016.
      change (2 ^ (53 + 52)) with 40564819207303340847894502572032. lia.
    - exists 53%positive. split; [|lia]. apply digits2_pos_unique.
      change (2 ^ (53 + 53 - 1)) with 40564819207303340847894502572032.
      change (2 ^ (53 + 53)) with 81129638414606681695789005144064. lia. }
  destruct (binary_round_aux_shift s (mx * my) (ex + ey) k HD)
    as (m & j & Hres & Hj & Hdm & Hb); try lia.
  exists m, j. split; [exact Hres|]. split; [lia|]. split; [exact Hdm|].
  by rewrite <- Pos2Z.inj_mul.
Qed.

(** [mx / G] and [100 A / T], closer to each other than [1 / (2 T)],
    round to the same integer (a tie going up), unless the second is a
    tie and the first lies below it. *)
Lemma round_close (G T A mx : Z) :
  0 < T -> 3 * T < G -> 0 <= A ->
  2 * Z.abs (mx * T - 100 * A * G) <= 3 * T ->
  let r := (2 * mx + G) / (2 * G) in
  let N := (200 * A + T) / (2 * T) in
  N - 1 <= r <= N /\ (r ≠ N -> (200 * A + T) mod (2 * T) = 0).
Proof.
  intros HT HG HA Hb r N.
  pose proof (Z.div_mod (2 * mx + G) (2 * G) ltac:(lia)) as Hr.
  pose proof (Z.mod_pos_bound (2 * mx + G) (2 * G) ltac:(lia)) as Hrm.
  pose proof (Z.div_mod (200 * A + T) (2 * T) ltac:(lia)) as HN.
  pose proof (Z.mod_pos_bound (200 * A + T) (2 * T) ltac:(lia)) as HNm.
  fold r in Hr. fold N in HN.
  set (u := (2 * mx + G) mod (2 * G)) in *.
  set (v := (200 * A + T) mod (2 * T)) in *.
  clearbody r N u v.
  assert (Hr' : 2 * (mx * T) + G * T = 2 * (G * T * r) + u * T) by nia.
  assert (HN' : 200 * (A * G) + G * T = 2 * (G * T * N) + v * G) by nia.
  assert (Hu : 0 <= u * T < 2 * (G * T)) by nia.
  assert (Hv : 0 <= v * G <= 2 * (G * T) - G) by nia.
  assert (HP : 0 < G * T) by nia.
  replace (100 * A * G) with (100 * (A * G)) in Hb by ring.
  set (P := G * T) in *. set (X := mx * T) in *. set (Y := A * G) in *.
  set (uT := u * T) in *. set (vG := v * G) in *.
  clearbody X Y uT.
  assert (Hle : r <= N).
  { destruct (Z_le_gt_dec r N) as [|Hgt]; [done|].
    assert (P * N + P <= P * r) by nia. lia. }
  assert (Hge : N - 1 <= r).
  { destruct (Z_le_gt_dec (N - 1) r) as [|Hgt]; [done|].
    assert (P * r + 2 * P <= P * N) by nia. lia. }
  split; [lia|]. intros Hne. assert (r = N - 1) as -> by lia.
  replace (P * (N - 1)) with (P * N - P) in Hr' by ring.
  assert (HvG : vG < G) by lia.
  subst vG. nia.
Qed.

Lemma Math_round_negative_exponent m e :
  e < 0 ->
  Math_round (S754_finite false m e)
    = Some ((2 * Zpos m + 2 ^ (- e)) / (2 * 2 ^ (- e))).
Proof. destruct e; try lia. intros _. reflexivity. Qed.

(** The double of the constant 100. *)
Lemma Number_100 : Number 100 = S754_finite false 7036874417766400 (-46).
Proof. by vm_compute. Qed.

(** Evaluate the closed powers of two of the goal and the hypotheses. *)
Ltac pow2_eval :=
  repeat match goal with
         | |- context [2 ^ ?k] =>
             let v := eval vm_compute in (2 ^ k) in
             progress change (2 ^ k) with v in *
         | H : context [2 ^ ?k] |- _ =>
             let v := eval vm_compute in (2 ^ k) in
             progress change (2 ^ k) with v in *
         end.

Lemma percentage_nearest (a t : Z) :
  0 <= a <= t -> 0 < t < 2 ^ 40 ->
  exists r,
    percentage a t = Some r
    /\ nearest_percentage a t - 1 <= r <= nearest_percentage a t
    /\ (r ≠ nearest_percentage a t -> (200 * a + t) mod (2 * t) = 0).
Proof.
  intros Ha Ht. unfold percentage, nearest_percentage.
  change (2 ^ 40) with 1099511627776 in Ht.
  destruct t as [|pt|pt]; try lia.
  rewrite (Number_signed false pt).
  destruct (Number_pos pt) as (mt & et & -> & _ & Hdt & Het & Hmt); [lia|].
  pose proof (digits2_pos_bounds mt) as Bt. rewrite Hdt in Bt.
  change (2 ^ (53 - 1)) with 4503599627370496 in *.
  change (2 ^ 53) with 9007199254740992 in *.
  destruct a as [|pa|pa]; try lia.
  { exists 0. split; [reflexivity|].
    replace ((200 * 0 + Zpos pt) / (2 * Zpos pt)) with 0; [lia|].
    symmetry. apply Z.div_small. lia. }
  rewrite (Number_signed false pa), Number_100.
  destruct (Number_pos pa) as (ma & ea & -> & _ & Hda & Hea & Hma); [lia|].
  pose proof (digits2_pos_bounds ma) as Ba. rewrite Hda in Ba.
  change (2 ^ (53 - 1)) with 4503599627370496 in *.
  change (2 ^ 53) with 9007199254740992 in *.
  (* the exponents *)
  assert (HPa : 0 < 2 ^ (- ea)) by (apply Z.pow_pos_nonneg; lia).
  assert (Het1 : et <= -1).
  { destruct (Z.eq_dec et 0) as [->|]; [|lia]. simpl in Hmt. lia. }
  assert (Hle : ea <= et).
  { destruct (Z_le_gt_dec ea et) as [|Hgt]; [done|exfalso].
    replace (- et) with ((ea - et) + - ea) in Hmt by lia.
    rewrite Z.pow_add_r in Hmt by lia.
    assert (2 ^ 1 <= 2 ^ (ea - et)) by (apply Z.pow_le_mono_r; lia).
    change (2 ^ 1) with 2 in *.
    set (Q := 2 ^ (ea - et)) in *. set (Pa := 2 ^ (- ea)) in *.
    assert (Zpos pa * Pa <= Zpos pt * Pa) by nia.
    assert (2 * (Zpos pt * Pa) <= Q * (Zpos pt * Pa)) by nia.
    lia. }
  assert (Heven : Z.even (Zpos mt) = true).
  { rewrite Hmt. replace (- et) with (Z.succ (- et - 1)) by lia.
    rewrite Z.pow_succ_r by lia.
    replace (Zpos pt * (2 * 2 ^ (- et - 1)))
      with (2 * (Zpos pt * 2 ^ (- et - 1))) by ring.
    apply Z.even_mul. }
  destruct (divide_spec false ma ea mt et)
    as (mz & n & -> & Hn & Hdz & Hbz); [done|done|done|lia|lia|].
  destruct (times_spec false mz (ea - et - 53 + n) 7036874417766400 (-46))
    as (mx & j & -> & Hj & Hdx & Hbx); [done|done|lia|lia|].
  rewrite Math_round_negative_exponent by lia.
  eexists. split; [reflexivity|].
  replace (- (ea - et - 53 + n + -46 + j))
    with ((99 - n - j) + (et - ea)) by lia.
  rewrite Z.pow_add_r by lia.
  (* the mantissas of [a] and [t] over the common power [2 ^ (- et)] *)
  replace (- ea) with ((et - ea) + - et) in Hma by lia.
  rewrite Z.pow_add_r in Hma by lia.
  assert (HR : 1 <= 2 ^ (et - ea)) by (apply (Z.pow_le_mono_r 2 0); lia).
  assert (HPt : 0 < 2 ^ (- et)) by (apply Z.pow_pos_nonneg; lia).
  set (R := 2 ^ (et - ea)) in *. set (Pt := 2 ^ (- et)) in *.
  set (A := Zpos pa) in *. set (T := Zpos pt) in *.
  assert (Hz : 2 * Z.abs (2 ^ n * (Zpos mz * T) - A * R * 9007199254740992)
               <= 2 ^ n * T).
  { change (2 ^ 53) with 9007199254740992 in Hbz. rewrite Hma, Hmt in Hbz.
    replace (2 ^ n * Zpos mz * (T * Pt) - A * (R * Pt) * 9007199254740992)
      with (Pt * (2 ^ n * (Zpos mz * T) - A * R * 9007199254740992))
      in Hbz by ring.
    rewrite Z.abs_mul, (Z.abs_eq Pt) in Hbz by lia.
    apply (Z.mul_le_mono_pos_l _ _ Pt); [lia|].
    etransitivity; [|etransitivity; [exact Hbz|]]; lia. }
  assert (Hx : 2 * Z.abs (2 ^ j * (Zpos mx * T)
                          - (Zpos mz * T) * 7036874417766400)
               <= 2 ^ j * T).
  { replace (2 ^ j * (Zpos mx * T) - (Zpos mz * T) * 7036874417766400)
      with ((2 ^ j * Zpos mx - Zpos mz * 7036874417766400) * T) by ring.
    rewrite Z.abs_mul, (Z.abs_eq T) by lia.
    assert (0 < T) by lia. nia. }
  clear Hbz Hbx Hma Hmt Ba Bt Hda Hdt Hdz Hdx Heven HPa Hea Het Het1 Hle.
  apply round_close; try lia.
  - assert (n = 0 \/ n = 1 \/ n = 2) as [-> | [-> | ->]] by lia;
      assert (j = 52 \/ j = 53 \/ j = 54 \/ j = 55)
        as [-> | [-> | [-> | ->]]] by lia;
      pow2_eval; lia.
  - set (Z1 := Zpos mz * T) in *. set (X := Zpos mx * T) in *.
    replace (100 * A * (2 ^ (99 - n - j) * R))
      with (100 * 2 ^ (99 - n - j) * (A * R)) by ring.
    set (Y := A * R) in *. clearbody Z1 X Y.
    assert (n = 0 \/ n = 1 \/ n = 2) as [-> | [-> | ->]] by lia;
      assert (j = 52 \/ j = 53 \/ j = 54 \/ j = 55)
        as [-> | [-> | [-> | ->]]] by lia;
      pow2_eval; lia.
Qed.

(** The claim fails at 23 responses out of 40 applications: the exact
    percentage is 57.5, which rounds to 58, and the handler answers 57,
    because the double nearest to 23/40 times 100 is 57.49999999999999. *)
Lemma C5_counterexample :
  match get_stats (fun _ => None) 86400000 (Some 1) mem_forty_applications with
  | (Response 200 (JsonStats s), _) =>
      totalApplications s = 40
      /\ by_interview s + by_offer s = 23
      /\ responseRate s = Some 57
      /\ nearest_percentage 23 40 = 58
      /\ 2 * 40 * 58 - 40 <= 200 * 23 < 2 * 40 * 58 + 40
  | _ => False
  end.
Proof. vm_compute. repeat split; (reflexivity || discriminate). Qed.

(** C5, as the code has it: the statistics handler answers 200 with the
    counts by status; without applications the total, the rate, the days
    and the four counts are 0 and nothing is divided; otherwise
    [responseRate] is [Math.round] of the double
    (interview count + offer count) / total × 100, which (for fewer than
    2^40 applications, more than an array holds) is the integer nearest
    to the exact percentage, or one below it when the exact percentage
    lies half way between two integers; and [daysInSearch], computed in doubles, is the floor of
    (now − the least [appliedDate]) / one day whenever every applied date
    is a valid date and the difference is below 2^53 milliseconds in
    absolute value. *)
Theorem C5_stats_in_double_precision (Date_parse : string -> option Z)
    {S : Type} `{!IStorage S} (st : S) (now uid : Z)
    (applications interviews : list obj) :
  getJobApplicationsByUserId st uid = Ok applications ->
  getInterviewsByUserId st uid = Ok interviews ->
  let s := computeStats Date_parse now applications interviews in
  let total := Z.of_nat (length applications) in
  let responded := count_status "interview" applications
                   + count_status "offer" applications in
  get_stats Date_parse now (Some uid) st = (Response 200 (JsonStats s), st)
  /\ totalApplications s = total
  /\ by_applied s = count_status "applied" applications
  /\ by_interview s = count_status "interview" applications
  /\ by_offer s = count_status "offer" applications
  /\ by_rejected s = count_status "rejected" applications
  /\ (total = 0 ->
      responseRate s = Some 0 /\ daysInSearch s = Some 0
      /\ by_applied s = 0 /\ by_interview s = 0
      /\ by_offer s = 0 /\ by_rejected s = 0)
  /\ (0 < total ->
      responseRate s = percentage responded total
      /\ (total < 2 ^ 40 ->
          exists r, responseRate s = Some r
            /\ nearest_percentage responded total - 1 <= r
               <= nearest_percentage responded total
            /\ (r ≠ nearest_percentage responded total ->
                (200 * responded + total) mod (2 * total) = 0)
            /\ 0 <= r <= 100))
  /\ (forall t0 ts,
        Forall2 (fun (app : obj) t =>
                   Date_getTime Date_parse (app !! "appliedDate") = Some t)
                applications (t0 :: ts) ->
        exists earliest,
          earliest ∈ t0 :: ts
          /\ (forall t, t ∈ t0 :: ts -> earliest <= t)
          /\ (Z.abs (now - earliest) < 2 ^ 53 ->
              daysInSearch s = Some ((now - earliest) / 86400000))).
Proof.
  intros Happs Hints s total responded.
  split.
  { unfold get_stats, isAuthenticated, try_catch, mbind, result_bind.
    by rewrite Happs, Hints. }
  do 5 (split; [reflexivity|]).
  split; [|split].
  - intros Hzero. destruct applications as [|a l]; [|simpl in *; lia].
    repeat split; reflexivity.
  - intros Hpos.
    assert (Hrate : responseRate s = percentage responded total).
    { subst s. unfold computeStats. cbn [responseRate].
      by rewrite bool_decide_eq_true_2 by (fold total; lia). }
    split; [exact Hrate|]. intros H200.
    pose proof (count_interview_offer_le applications) as Hle.
    pose proof (count_status_nonneg "interview" applications).
    pose proof (count_status_nonneg "offer" applications).
    fold responded total in Hle.
    assert (Hr : 0 <= responded <= total) by (subst responded; lia).
    destruct (percentage_nearest responded total Hr ltac:(lia))
      as (r & Hpct & Hnear & Htie).
    rewrite Hrate. exists r. split; [exact Hpct|].
    assert (Hn : 0 <= nearest_percentage responded total <= 100).
    { unfold nearest_percentage. split.
      - apply Z.div_pos; lia.
      - assert ((200 * responded + total) / (2 * total) < 101); [|lia].
        apply Z.div_lt_upper_bound; lia. }
    assert (Hz : (200 * responded + total) mod (2 * total) = 0 ->
                 1 <= nearest_percentage responded total).
    { intros Hmod. unfold nearest_percentage.
      apply Z.div_exact in Hmod; [|lia].
      remember ((200 * responded + total) / (2 * total)) as k. nia. }
    split; [exact Hnear|]. split; [exact Htie|].
    destruct (Z.eq_dec r (nearest_percentage responded total)) as [->|Hne];
      [lia|].
    specialize (Hz (Htie Hne)). lia.
  - intros t0 ts Hdates.
    inversion Hdates as [|a t l ts' Ha Hrest]; subst.
    destruct (Math_min_dates _ ts t0 (applied_dates Date_parse _ _ Hrest))
      as (m & Hm & Hin & Hleast).
    exists m. split; [exact Hin|]. split; [exact Hleast|].
    intros Hdiff. subst s. unfold computeStats. cbn [daysInSearch map].
    rewrite Ha, Hm. exact (floor_divide_day _ Hdiff).
Qed.

Lemma C5_witness :
  exists s,
    get_stats (fun _ => None) (3 * 86400000 + 5) (Some 1)
      mem_three_applications
    = (Response 200 (JsonStats s), mem_three_applications)
    /\ totalApplications s = 3
    /\ responseRate s = Some 33
    /\ daysInSearch s = Some 2.
Proof.
  pose proof (C5_stats_in_double_precision (fun _ => None)
                mem_three_applications (3 * 86400000 + 5) 1
                (MemStorage.getJobApplicationsByUserId mem_three_applications 1)
                (MemStorage.getInterviewsByUserId mem_three_applications 1)
                eq_refl eq_refl) as H.
  cbv zeta in H. destruct H as (Hroute & _).
  eexists. split; [exact Hroute|]. vm_compute. repeat split; reflexivity.
Defined.

(** ** The insert schemas *)

Lemma parse_is_Some schema input :
  is_Some (parse schema input) <-> forallb (field_ok input) schema = true.
Proof.
  induction schema as [|f fs IH]; simpl.
  - split; [done|]. by eexists.
  - rewrite andb_true_iff, <- IH. unfold field_ok.
    destruct (parse fs input) as [rest|].
    + destruct (input !! z_key f) as [[]|];
        try (destruct (has_type _ _)); try (destruct (z_nullable f));
        try (destruct (z_optional f));
        split; try (intros [? ?]); try done; try (by eexists);
        try (by split; [|eexists]).
    + split; [by intros [? ?]|]. by intros [_ [? ?]].
Qed.

Lemma parse_lookup schema input data k :
  parse schema input = Some data ->
  data !! k = if bool_decide (k ∈ map z_key schema) then input !! k else None.
Proof.
  revert data. induction schema as [|f fs IH]; intros data; simpl.
  - intros [= <-]. by rewrite lookup_empty.
  - destruct (parse fs input) as [rest|]; [|done].
    specialize (IH rest eq_refl).
    assert (Hcase : forall v, input !! z_key f = Some v ->
              <[z_key f := v]> rest !! k
              = if bool_decide (k ∈ z_key f :: map z_key fs)
                then input !! k else None).
    { intros v Hv. destruct (decide (k = z_key f)) as [->|Hne].
      - rewrite lookup_insert_eq, bool_decide_eq_true_2 by (by left). done.
      - rewrite lookup_insert_ne by done. rewrite IH.
        apply (f_equal (fun b : bool => if b then input !! k else None)).
        apply bool_decide_ext. rewrite elem_of_cons.
        split; [by right|by intros [?|?]]. }
    destruct (input !! z_key f) as [v|] eqn:Hv.
    + destruct v; try (destruct (has_type _ _); [|done]);
        try (destruct (z_nullable f); [|done]);
        intros [= <-]; by apply Hcase.
    + destruct (z_optional f); [|done]. intros [= <-]. rewrite IH.
      destruct (decide (k = z_key f)) as [->|Hne].
      * rewrite Hv. rewrite (bool_decide_eq_true_2 (_ ∈ _ :: _)) by (by left).
        by destruct (bool_decide _).
      * apply (f_equal (fun b : bool => if b then input !! k else None)).
        apply bool_decide_ext. rewrite elem_of_cons.
        split; [by right|by intros [?|?]].
Qed.

Lemma insertJobApplicationSchema_fields :
  insertJobApplicationSchema
  = [ ZField "userId" CInteger false false;
      ZField "company" CText false false;
      ZField "position" CText false false;
      ZField "location" CText true true;
      ZField "salary" CText true true;
      ZField "jobType" CText true true;
      ZField "workMode" CText true true;
      ZField "description" CText true true;
      ZField "notes" CText true true;
      ZField "status" CText false true;
      ZField "resumeId" CInteger true true;
      ZField "coverId" CInteger true true;
      ZField "url" CText true true;
      ZField "contactInfo" CText true true;
      ZField "appliedDate" CTimestamp true true ].
Proof. vm_compute. reflexivity. Qed.

(** ** The status of a job application is free text *)








(** *** Sample database *)

Example pg_one_application_stored :
  match @getJobApplicationById _ ddl_engine pg_one_application 1 with
  | Ok (Some x) => (x !! "userId", x !! "company", x !! "status")
  | _ => (None, None, None)
  end = (Some (VNum 1), Some (VStr "Acme"), Some (VStr "applied")).
Proof. vm_compute. reflexivity. Qed.





(** A status longer than the 50 characters of the column: the database
    that enforces the DDL refuses the row, and both routes answer 500. *)
Example C1_pg_long_status :
  let long := String.concat "" (replicate 51 "x") in
  String.length long = 51%nat
  /\ @patch_application _ ddl_engine 2000 (Some 1) 1
       {[ "status" := VStr long ]} pg_one_application
     = (Response 500 (Message "Failed to update application"),
        pg_one_application)
  /\ @post_applications _ ddl_engine 2000 (Some 1)
       (<["status" := VStr long]> acme) pg_one_application
     = (Response 500 (Message "Internal server error"), pg_one_application).
Proof. vm_compute. repeat split; reflexivity. Qed.



(** ** Partial updates: what changes and what does not *)

(** [MemStorage]: a key of the partial object takes its value, every other
    key keeps its value, and [updatedAt] is the clock. *)
Lemma mem_update_frame now id update (st : MemStorage.t) x :
  MemStorage.jobApplications st !! id = Some x ->
  exists updated st',
    MemStorage.updateJobApplication now id update st = Ok (updated, st')
    /\ MemStorage.jobApplications st' !! id = Some updated
    /\ updated !! "updatedAt" = Some (VDate now)
    /\ forall k, k ≠ "updatedAt" ->
         updated !! k = match update !! k with
                        | Some v => Some v
                        | None => x !! k
                        end.
Proof.
  intros Hget. do 2 eexists.
  split; [by apply mem_updateJobApplication_Some|].
  split; [simpl; by rewrite lookup_insert_eq|].
  split; [by rewrite lookup_insert_eq|].
  intros k Hk. rewrite lookup_insert_ne by done. apply spread_lookup.
Qed.

(** [MemStorage.updateInterview]: the same without a timestamp. *)
Lemma mem_update_interview_frame id update (st : MemStorage.t) x :
  MemStorage.interviews st !! id = Some x ->
  exists updated st',
    MemStorage.updateInterview id update st = Ok (updated, st')
    /\ MemStorage.interviews st' !! id = Some updated
    /\ forall k, updated !! k = match update !! k with
                                | Some v => Some v
                                | None => x !! k
                                end.
Proof.
  intros Hget. do 2 eexists.
  split; [by apply mem_updateInterview_Some|].
  split; [simpl; by rewrite lookup_insert_eq|].
  intros k. apply spread_lookup.
Qed.

Lemma pg_set_if_notin update key col k :
  col ≠ k -> k ∉ (PostgresStorage.set_if update key col).*1.
Proof.
  intros Hne. unfold PostgresStorage.set_if.
  destruct (update !! key); simpl; [|apply not_elem_of_nil].
  apply not_elem_of_cons. split; [done|apply not_elem_of_nil].
Qed.

(** [PostgresStorage.updateJobApplication] never writes the [notes]
    column, whatever the partial object holds, and returns no [notes]. *)
Lemma pg_update_keeps_notes accepts now id update d x d' :
  PostgresStorage.updateJobApplication accepts now id update d = Ok (x, d') ->
  x !! "notes" = None
  /\ exists r0 r1,
       PostgresStorage.job_applications d !! id = Some r0
       /\ PostgresStorage.job_applications d' !! id = Some r1
       /\ r1 !! "notes" = r0 !! "notes".
Proof.
  unfold PostgresStorage.updateJobApplication,
         PostgresStorage.getJobApplicationById,
         PostgresStorage.sql_select_by_id, mbind, result_bind.
  destruct (PostgresStorage.rows _ d !! id) as [r0|] eqn:Hr0; [|done].
  cbn [fmap option_fmap option_map].
  destruct (PostgresStorage.sql_update _ _ _ _ _) as [[r d1]|] eqn:Hupd;
    [|done].
  apply pg_sql_update_Ok in Hupd as [(-> & _ & _)|(r1 & Hr1 & -> & ->)];
    [done|].
  rewrite Hr0 in Hr1. injection Hr1 as <-.
  intros Heq. simpl in Heq. injection Heq as <- <-. split.
  - destruct pg_fields_NoDup as (_ & Ha & _).
    rewrite pg_project_lookup by exact Ha. by vm_compute.
  - do 2 eexists. split; [exact Hr0|]. split.
    + cbn [PostgresStorage.job_applications PostgresStorage.write].
      apply lookup_insert_eq.
    + apply pg_assign_lookup_notin. rewrite !fmap_app, !not_elem_of_app.
      repeat split; try (by apply pg_set_if_notin).
      simpl. apply not_elem_of_cons. split; [done|apply not_elem_of_nil].
Qed.

(** C4 at its failing input: on the database store, an update of the
    job application 1 with [{ notes: "call back" }] succeeds, refreshes
    [updated_at], and leaves the [notes] column as it was ([NULL]); the
    in-memory store writes the note. *)
Theorem C4_postgres_update_drops_notes :
  match @update_entity _ ddl_engine Application 2000 1
          {[ "notes" := VStr "call back" ]} pg_one_application with
  | Ok (x, d') =>
      (x !! "notes",
       PostgresStorage.job_applications d' !! 1
         ≫= (fun r : obj => r !! "notes"),
       PostgresStorage.job_applications d' !! 1
         ≫= (fun r : obj => r !! "updated_at"))
      = (None, Some VNull, Some (VDate 2000))
  | Throw _ => False
  end
  /\ match update_entity Application 2000 1
             {[ "notes" := VStr "call back" ]} mem_one_application with
     | Ok (x, st') =>
         MemStorage.jobApplications st' !! 1
           ≫= (fun r : obj => r !! "notes") = Some (VStr "call back")
     | Throw _ => False
     end.
Proof. vm_compute. split; reflexivity. Qed.

(** ** The default status *)

(** [MemStorage.createJobApplication] copies the status of the payload and
    fills in nothing when there is none. *)
Lemma mem_create_status now application (st : MemStorage.t) :
  (MemStorage.createJobApplication now application st).1 !! "status"
  = application !! "status".
Proof. simpl. by rewrite !lookup_insert_ne by done. Qed.

(** [PostgresStorage.createJobApplication] stores "applied" when the
    payload has no status. *)
Lemma pg_create_status accepts now application d x d' :
  application !! "status" = None ->
  PostgresStorage.createJobApplication accepts now application d
    = Ok (x, d') ->
  x !! "status" = Some (VStr "applied")
  /\ exists r,
       PostgresStorage.job_applications d'
         !! PostgresStorage.job_applications_id_seq d = Some r
       /\ r !! "status" = Some (VStr "applied").
Proof.
  intros Hnone. unfold PostgresStorage.createJobApplication, mbind, result_bind.
  rewrite Hnone. cbn [js_or].
  destruct (PostgresStorage.sql_insert _ _ _ _ _) as [[r d1]|] eqn:Hins;
    [|done].
  apply pg_sql_insert_Ok in Hins as [Hr ->]. intros [= <- <-].
  assert (Hs : r !! "status" = Some (VStr "applied")).
  { rewrite Hr, pg_assign_lookup.
    match goal with |- match ?o with _ => _ end = _ =>
      replace o with (Some (VStr "applied")) by (vm_compute; reflexivity) end.
    done. }
  split.
  - destruct pg_fields_NoDup as (_ & Ha & _).
    rewrite pg_project_lookup by exact Ha.
    replace ((list_to_map PostgresStorage.application_fields
               : gmap string string) !! "status")
      with (Some "status") by (vm_compute; reflexivity).
    exact Hs.
  - exists r. split; [|exact Hs].
    cbn [PostgresStorage.job_applications PostgresStorage.write
         PostgresStorage.nextval PostgresStorage.rows].
    apply lookup_insert_eq.
Qed.

(** C6 at its failing input: [{ company: "Acme", position: "Engineer" }]
    posted by user 1 is a valid payload without a status; the in-memory
    store answers 201 and holds a record that has no status at all, where
    the database store holds "applied". *)
Theorem C6_mem_create_without_status :
  acme !! "status" = None
  /\ is_Some (parse insertJobApplicationSchema (<["userId" := VNum 1]> acme))
  /\ (let r := post_applications 1000 (Some 1) acme MemStorage.init in
      status r.1 = 201
      /\ is_Some (MemStorage.jobApplications r.2 !! 1)
      /\ MemStorage.jobApplications r.2 !! 1
           ≫= (fun x : obj => x !! "status") = None)
  /\ PostgresStorage.job_applications pg_one_application !! 1
       ≫= (fun x : obj => x !! "status") = Some (VStr "applied").
Proof.
  split; [vm_compute; reflexivity|].
  split; [apply parse_is_Some; vm_compute; reflexivity|].
  split; [|vm_compute; reflexivity].
  cbv zeta. split; [vm_compute; reflexivity|].
  split; [|vm_compute; reflexivity].
  destruct mem_one_application_holds as [Hget _]. by eexists.
Qed.

(** ** Deleting a job application and its interviews *)

(** [PostgresStorage]: once a job application is deleted, no interview
    row names it. *)
Lemma pg_delete_cascades id d iid r :
  is_Some (PostgresStorage.job_applications d !! id) ->
  PostgresStorage.interviews
    (PostgresStorage.sql_delete PostgresStorage.JobApplications id d) !! iid
    = Some r ->
  r !! "job_application_id" ≠ Some (VNum id).
Proof.
  intros [a Ha]. unfold PostgresStorage.sql_delete.
  cbn [PostgresStorage.rows]. rewrite Ha.
  cbn [PostgresStorage.write PostgresStorage.interviews].
  intros [_ H]%map_lookup_filter_Some. exact H.
Qed.

(** C7 at its failing input: on the in-memory store, after job
    application 1 is created, an interview is created for it, and the
    application is deleted, the application is gone and interview 1 still
    names it; on the database store the same calls leave no interview. *)
Theorem C7_mem_delete_keeps_interviews :
  (let st := run [ (1, Create Application (<["userId" := VNum 1]> acme));
                   (2, Create Interview (interview_for 1));
                   (3, Delete Application 1) ] MemStorage.init in
   MemStorage.jobApplications st !! 1 = None
   /\ MemStorage.interviews st !! 1
        ≫= (fun x : obj => x !! "jobApplicationId") = Some (VNum 1))
  /\ (let d := @run _ ddl_engine
                 [ (0, CreateUser alice);
                   (1, Create Application (<["userId" := VNum 1]> acme));
                   (2, Create Interview (interview_for 1)) ]
                 PostgresStorage.init in
      PostgresStorage.interviews d !! 1
        ≫= (fun x : obj => x !! "job_application_id") = Some (VNum 1)
      /\ let d' := @run _ ddl_engine [ (3, Delete Application 1) ] d in
         PostgresStorage.job_applications d' !! 1 = None
         /\ PostgresStorage.interviews d' = ∅).
Proof. vm_compute. repeat split; reflexivity. Qed.

(** ** The stores, the routes and the client beyond the claims *)

Lemma mem_get_entity e (st : MemStorage.t) id :
  get_entity e st id = Ok (mem_entities e st !! id).
Proof. by destruct e. Qed.

Lemma mem_step_ids_below now o (st : MemStorage.t) :
  ids_below_counter mem_counter st ->
  ids_below_counter mem_counter (step now o st).2.
Proof.
  intros Hinv e id x. rewrite mem_get_entity. intros [= Hx].
  assert (Hold : forall e id, is_Some (mem_entities e st !! id) ->
                              id < mem_counter (Some e) st).
  { intros e0 id0 [y Hy]. apply (Hinv e0 id0 y). by rewrite mem_get_entity, Hy. }
  clear Hinv. revert Hx.
  destruct o as [u|e' fields|e' id' partial|e' id']; simpl.
  - destruct e; simpl; intros Hx;
      first [apply (Hold Application id) | apply (Hold Document id)
            | apply (Hold Interview id)]; simpl; eauto.
  - destruct e', e; simpl; intros Hx;
      try (first [apply (Hold Application id) | apply (Hold Document id)
                 | apply (Hold Interview id)]; simpl; by eauto).
    all: match goal with
         | |- _ < ?c + 1 =>
             destruct (decide (id = c)) as [->|Hne]; [lia|];
             rewrite lookup_insert_ne in Hx by congruence;
             assert (id < c); [|lia]
         end.
    all: first [apply (Hold Application id) | apply (Hold Document id)
               | apply (Hold Interview id)]; simpl; eauto.
  - destruct e'; simpl;
      unfold MemStorage.updateJobApplication, MemStorage.updateDocument,
             MemStorage.updateInterview;
      match goal with
      | |- context [match ?m !! id' with _ => _ end] =>
          destruct (m !! id') as [y|] eqn:Hy
      end; simpl; destruct e; simpl; intros Hx;
      try (first [apply (Hold Application id) | apply (Hold Document id)
                 | apply (Hold Interview id)]; simpl; by eauto).
    all: destruct (decide (id = id')) as [->|Hne];
      [|rewrite lookup_insert_ne in Hx by congruence].
    all: first [apply (Hold Application _) | apply (Hold Document _)
               | apply (Hold Interview _)]; simpl; eauto.
  - destruct e', e; simpl; intros Hx;
      try (apply lookup_delete_Some in Hx as [_ Hx]);
      first [apply (Hold Application id) | apply (Hold Document id)
            | apply (Hold Interview id)]; simpl; eauto.
Qed.

Lemma mem_run_ids_below ops : forall st : MemStorage.t,
  ids_below_counter mem_counter st ->
  ids_below_counter mem_counter (run ops st).
Proof.
  induction ops as [|[now o] ops IH]; intros st H; [done|].
  simpl. by apply IH, mem_step_ids_below.
Qed.

Lemma mem_init_ids_below : ids_below_counter mem_counter MemStorage.init.
Proof. intros e id x. rewrite mem_get_entity. by destruct e. Qed.

Lemma mem_create_keeps (st : MemStorage.t) :
  ids_below_counter mem_counter st -> create_keeps st.
Proof.
  intros Hinv e now fields x st' Hc.
  exists (mem_counter (Some e) st).
  assert (Hfresh : mem_entities e st !! mem_counter (Some e) st = None).
  { destruct (mem_entities e st !! _) as [y|] eqn:Hy; [|done].
    specialize (Hinv e (mem_counter (Some e) st) y).
    rewrite mem_get_entity, Hy in Hinv. specialize (Hinv eq_refl). lia. }
  rewrite !mem_get_entity, Hfresh.
  destruct e; simpl in Hc; injection Hc as <- <-; simpl in *.
  all: split; [by rewrite ?lookup_insert_ne, lookup_insert_eq by done|].
  all: split; [done|]. all: split; [by rewrite lookup_insert_eq|].
  all: intros e' id' y; rewrite !mem_get_entity; intros [= Hy].
  all: destruct e'; simpl in *; try (by rewrite Hy).
  all: rewrite lookup_insert_ne; [by rewrite Hy|congruence].
Qed.

(** *** The database *)

Lemma pg_sql_insert_rows accepts now tb values d r d' tb' :
  PostgresStorage.sql_insert accepts now tb values d = Ok (r, d') ->
  PostgresStorage.rows tb' d'
  = (if decide (tb' = tb)
     then <[PostgresStorage.nextval tb d := r]> (PostgresStorage.rows tb d)
     else PostgresStorage.rows tb' d)
  /\ PostgresStorage.nextval tb' d'
     = (if decide (tb' = tb) then PostgresStorage.nextval tb d + 1
        else PostgresStorage.nextval tb' d).
Proof.
  intros [_ ->]%pg_sql_insert_Ok. destruct (decide (tb' = tb)) as [->|Hne].
  - by rewrite pg_rows_write, pg_nextval_write.
  - by rewrite pg_rows_write_ne, pg_nextval_write_ne.
Qed.

Lemma pg_sql_delete_sub tb id d tb' k r :
  PostgresStorage.rows tb' (PostgresStorage.sql_delete tb id d) !! k = Some r ->
  PostgresStorage.rows tb' d !! k = Some r.
Proof.
  unfold PostgresStorage.sql_delete.
  destruct (PostgresStorage.rows tb d !! id) as [r0|] eqn:Hr0; [|done].
  destruct tb, tb'; cbn [PostgresStorage.rows PostgresStorage.write
    PostgresStorage.users PostgresStorage.job_applications
    PostgresStorage.documents PostgresStorage.interviews
    PostgresStorage.interviews_id_seq PostgresStorage.nextval]; try done.
  all: try (by intros [_ ?]%lookup_delete_Some).
  by intros [? _]%map_lookup_filter_Some.
Qed.

Lemma pg_createUser_Ok accepts now user d u d' :
  PostgresStorage.createUser accepts now user d = Ok (u, d') ->
  exists r values,
    PostgresStorage.sql_insert accepts now PostgresStorage.Users values d
      = Ok (r, d')
    /\ u = PostgresStorage.project PostgresStorage.user_fields r.
Proof.
  unfold PostgresStorage.createUser, mbind, result_bind.
  destruct (PostgresStorage.sql_insert _ _ _ _ _) as [[r d1]|] eqn:Hins;
    [|done].
  intros [= <- <-]. eauto.
Qed.

Lemma pg_step_keys_below accepts now o (d : PostgresStorage.db) :
  keys_below_sequence d ->
  keys_below_sequence (@step _ (PostgresStorage_IStorage accepts) now o d).2.
Proof.
  intros Hinv tb id [r Hr]. revert Hr.
  destruct o as [u|e fields|e id' partial|e id']; cbn [step].
  - change (@createUser _ (PostgresStorage_IStorage accepts))
      with (PostgresStorage.createUser accepts).
    destruct (PostgresStorage.createUser _ _ _ _) as [[x d']|] eqn:Hc;
      cbn [snd]; [|intros Hr; apply Hinv; eauto].
    apply pg_createUser_Ok in Hc as (r0 & values & Hins & _).
    destruct (pg_sql_insert_rows _ _ _ _ _ _ _ tb Hins) as [-> ->].
    case_decide as Htb; [subst tb|intros Hr; apply Hinv; eauto].
    destruct (decide (id = PostgresStorage.nextval PostgresStorage.Users d))
      as [->|Hne]; [lia|].
    rewrite lookup_insert_ne by done. intros Hr.
    assert (id < PostgresStorage.nextval PostgresStorage.Users d); [|lia].
    apply Hinv; eauto.
  - destruct (create_entity e now fields d) as [[x d']|] eqn:Hc;
      cbn [snd]; [|intros Hr; apply Hinv; eauto].
    apply pg_create_entity_Ok in Hc as (r0 & values & Hins & _).
    destruct (pg_sql_insert_rows _ _ _ _ _ _ _ tb Hins) as [-> ->].
    case_decide as Htb; [subst tb|intros Hr; apply Hinv; eauto].
    destruct (decide (id = PostgresStorage.nextval (pg_table e) d))
      as [->|Hne]; [lia|].
    rewrite lookup_insert_ne by done. intros Hr.
    assert (id < PostgresStorage.nextval (pg_table e) d); [|lia].
    apply Hinv; eauto.
  - destruct (update_entity e now id' partial d) as [[x d']|] eqn:Hc;
      cbn [snd]; [|intros Hr; apply Hinv; eauto].
    apply pg_update_entity_Ok in Hc as (r0 & sets & Hr0 & _ & -> & _).
    destruct (decide (tb = pg_table e)) as [->|Hne].
    + rewrite pg_rows_write, pg_nextval_write.
      destruct (decide (id = id')) as [->|Hid]; [intros _; apply Hinv; eauto|].
      rewrite lookup_insert_ne by done. intros Hr. apply Hinv; eauto.
    + rewrite pg_rows_write_ne, pg_nextval_write_ne by done.
      intros Hr. apply Hinv; eauto.
  - rewrite pg_delete_entity. cbn [snd]. rewrite pg_sql_delete_nextval.
    intros Hr%pg_sql_delete_sub. apply Hinv; eauto.
Qed.

Lemma pg_run_keys_below accepts ops : forall d,
  keys_below_sequence d ->
  keys_below_sequence (@run _ (PostgresStorage_IStorage accepts) ops d).
Proof.
  induction ops as [|[now o] ops IH]; intros d H; [done|].
  simpl. by apply IH, pg_step_keys_below.
Qed.

Lemma pg_init_keys_below : keys_below_sequence PostgresStorage.init.
Proof. intros tb id [r Hr]. by destruct tb. Qed.

Lemma pg_create_keeps accepts (d : PostgresStorage.db) :
  keys_below_sequence d ->
  @create_keeps _ (PostgresStorage_IStorage accepts) d.
Proof.
  intros Hinv e now fields x d' Hc.
  destruct (pg_create_entity_Ok _ _ _ _ _ _ _ Hc)
    as (r & values & Hins & -> & Hid & _).
  exists (PostgresStorage.nextval (pg_table e) d).
  assert (Hfresh : PostgresStorage.rows (pg_table e) d
                     !! PostgresStorage.nextval (pg_table e) d = None).
  { destruct (PostgresStorage.rows _ d !! _) as [y|] eqn:Hy; [|done].
    pose proof (Hinv (pg_table e) _ (ex_intro _ y Hy)). lia. }
  rewrite !pg_get_entity, Hfresh.
  pose proof (fun tb' => pg_sql_insert_rows _ _ _ _ _ _ _ tb' Hins) as Hrows.
  split.
  { rewrite pg_project_lookup by apply pg_fields_NoDup_e.
    apply pg_sql_insert_Ok in Hins as [-> _].
    replace ((list_to_map (pg_fields e) : gmap string string) !! "id")
      with (Some "id") by (by destruct e).
    simpl. rewrite pg_assign_lookup_notin by done. apply pg_default_row_id. }
  split; [done|]. split.
  { destruct (Hrows (pg_table e)) as [-> _]. rewrite decide_True by done.
    by rewrite lookup_insert_eq. }
  intros e' id' y. rewrite !pg_get_entity.
  destruct (Hrows (pg_table e')) as [-> _].
  case_decide as Htb; [|done]. apply pg_table_inj in Htb as ->.
  destruct (decide (id' = PostgresStorage.nextval (pg_table e) d))
    as [->|Hne]; [by rewrite Hfresh|].
  by rewrite lookup_insert_ne.
Qed.

(** X1: on every store reached from the empty one, a create stores the
    new entity under an identifier that was not in use and keeps every
    entity stored before as it was. *)
Theorem create_never_overwrites (ops : list (Z * op)) :
  create_keeps (run ops MemStorage.init)
  /\ (forall accepts,
        @create_keeps _ (PostgresStorage_IStorage accepts)
          (@run _ (PostgresStorage_IStorage accepts) ops PostgresStorage.init)).
Proof.
  split.
  - apply mem_create_keeps, mem_run_ids_below, mem_init_ids_below.
  - intros accepts.
    apply pg_create_keeps, pg_run_keys_below, pg_init_keys_below.
Qed.

Lemma mem_list_entities e (st : MemStorage.t) uid :
  list_entities e st uid
  = Ok (MemStorage.byUserId (mem_entities e st) uid).
Proof. by destruct e. Qed.

Lemma mem_values_Permutation (m : gmap Z obj) :
  MemStorage.values m ≡ₚ (map_to_list m).*2.
Proof.
  unfold MemStorage.values. by rewrite merge_sort_Permutation.
Qed.

Lemma mem_values_elem (m : gmap Z obj) (x : obj) :
  x ∈ MemStorage.values m <-> exists id, m !! id = Some x.
Proof.
  rewrite mem_values_Permutation, list_elem_of_fmap. split.
  - intros ([id y] & -> & Hin%elem_of_map_to_list). eauto.
  - intros (id & Hid). exists (id, x). split; [done|].
    by apply elem_of_map_to_list.
Qed.

Lemma mem_byUserId_elem (m : gmap Z obj) uid (x : obj) :
  x ∈ MemStorage.byUserId m uid
  <-> exists id, m !! id = Some x /\ x !! "userId" = Some (VNum uid).
Proof.
  unfold MemStorage.byUserId. rewrite list_elem_of_filter, mem_values_elem.
  split.
  - intros [Hu [id Hid]]. eauto.
  - intros (id & Hid & Hu). eauto.
Qed.

Lemma get_route_list {S : Type} `{!IStorage S} e uid (st : S) l :
  list_entities e st uid = Ok l ->
  get_route e (Some uid) st = (Response 200 (JsonList l), st).
Proof.
  destruct e; simpl; intros Hl;
    unfold get_applications, get_documents, get_interviews, isAuthenticated,
           try_catch, mbind, result_bind; by rewrite Hl.
Qed.

Lemma pg_list_entities accepts e (d : PostgresStorage.db) uid :
  @list_entities _ (PostgresStorage_IStorage accepts) e d uid
  = Ok (map (PostgresStorage.project (pg_list_fields e))
            (PostgresStorage.sql_select_by_user (pg_table e) uid d)).
Proof. by destruct e. Qed.

Lemma pg_select_by_user_elem tb uid d (r : PostgresStorage.row) :
  r ∈ PostgresStorage.sql_select_by_user tb uid d
  <-> exists id, PostgresStorage.rows tb d !! id = Some r
                 /\ r !! "user_id" = Some (VNum uid).
Proof.
  unfold PostgresStorage.sql_select_by_user.
  rewrite list_elem_of_filter, list_elem_of_fmap. split.
  - intros (Hu & [id y] & -> & Hin%elem_of_map_to_list). eauto.
  - intros (id & Hid & Hu). split; [done|]. exists (id, r).
    split; [done|]. by apply elem_of_map_to_list.
Qed.

Lemma pg_list_fields_NoDup e : NoDup (pg_list_fields e).*1.
Proof. destruct pg_fields_NoDup as (_ & ? & ? & ? & ?). by destruct e. Qed.

Lemma pg_application_fields_eq :
  (list_to_map PostgresStorage.application_fields : gmap string string)
  = delete "notes" (list_to_map PostgresStorage.application_fields_list).
Proof. vm_compute. reflexivity. Qed.

(** What [getJobApplicationById] returns is the listed object without
    its [notes]. *)
Lemma pg_project_without_notes e (r : PostgresStorage.row) :
  PostgresStorage.project (pg_fields e) r
  = match e with
    | Application =>
        delete "notes" (PostgresStorage.project (pg_list_fields e) r)
    | _ => PostgresStorage.project (pg_list_fields e) r
    end.
Proof.
  destruct e; [|done|done]. apply map_eq. intros k.
  rewrite pg_project_lookup by apply (pg_fields_NoDup_e Application).
  cbn [pg_fields pg_list_fields]. rewrite pg_application_fields_eq.
  destruct (decide (k = "notes")) as [->|Hk].
  - by rewrite !lookup_delete_eq.
  - rewrite !lookup_delete_ne by done.
    by rewrite pg_project_lookup by apply (pg_list_fields_NoDup Application).
Qed.

Lemma pg_list_userId e (r : PostgresStorage.row) :
  PostgresStorage.project (pg_list_fields e) r !! "userId" = r !! "user_id".
Proof.
  rewrite pg_project_lookup by apply pg_list_fields_NoDup.
  replace ((list_to_map (pg_list_fields e) : gmap string string) !! "userId")
    with (Some "user_id"); [done|].
  destruct e; vm_compute; reflexivity.
Qed.

(** X2: a list route answers 200 with exactly the entities whose owner is
    the caller, and changes nothing.  On the database store the listed
    job application carries its [notes], which the read by id leaves
    out. *)
Theorem lists_show_the_callers_entities (e : entity) (uid : Z) :
  (forall st : MemStorage.t,
      exists l,
        get_route e (Some uid) st = (Response 200 (JsonList l), st)
        /\ forall x, x ∈ l <->
             exists id, get_entity e st id = Ok (Some x)
                        /\ x !! "userId" = Some (VNum uid))
  /\ (forall accepts (d : PostgresStorage.db),
        exists l,
          @get_route _ (PostgresStorage_IStorage accepts) e (Some uid) d
            = (Response 200 (JsonList l), d)
          /\ forall o, o ∈ l <->
               exists id r,
                 PostgresStorage.rows (pg_table e) d !! id = Some r
                 /\ r !! "user_id" = Some (VNum uid)
                 /\ o = PostgresStorage.project (pg_list_fields e) r
                 /\ o !! "userId" = Some (VNum uid)
                 /\ @get_entity _ (PostgresStorage_IStorage accepts) e d id
                    = Ok (Some match e with
                               | Application => delete "notes" o
                               | _ => o
                               end)).
Proof.
  split.
  - intros st. eexists. split; [apply get_route_list, mem_list_entities|].
    intros x. rewrite mem_byUserId_elem.
    split; intros (id & Hid & Hu); exists id; split; try done.
    + by rewrite mem_get_entity, Hid.
    + rewrite mem_get_entity in Hid. by injection Hid.
  - intros accepts d. eexists.
    split; [apply get_route_list, pg_list_entities|].
    intros o. rewrite list_elem_of_fmap. split.
    + intros (r & -> & (id & Hid & Hu)%pg_select_by_user_elem).
      exists id, r. split; [done|]. split; [done|]. split; [done|].
      split; [by rewrite pg_list_userId|].
      rewrite pg_get_entity, Hid. cbn [fmap option_fmap option_map].
      rewrite pg_project_without_notes. by destruct e.
    + intros (id & r & Hid & Hu & -> & _). exists r. split; [done|].
      apply pg_select_by_user_elem. eauto.
Qed.

Lemma mem_delete_entities e id (st : MemStorage.t) :
  exists st',
    delete_entity e id st = Ok st'
    /\ forall e', mem_entities e' st'
                  = if decide (e' = e) then delete id (mem_entities e st)
                    else mem_entities e' st.
Proof.
  destruct e; simpl; eexists; (split; [reflexivity|]); by intros [].
Qed.

Lemma pg_sql_delete_same tb id d :
  PostgresStorage.rows tb (PostgresStorage.sql_delete tb id d)
  = delete id (PostgresStorage.rows tb d).
Proof.
  unfold PostgresStorage.sql_delete.
  destruct (PostgresStorage.rows tb d !! id) as [r|] eqn:Hr.
  - by destruct tb.
  - by rewrite delete_id.
Qed.

(** X3: a DELETE by the owner answers 204 and removes the entity and no
    other of its kind; afterwards the read by id finds nothing and a
    second DELETE of the same id answers 404, whoever asks. *)
Theorem delete_route_then_not_found :
  (forall st : MemStorage.t, delete_then_gone st)
  /\ (forall accepts (d : PostgresStorage.db),
        @delete_then_gone _ (PostgresStorage_IStorage accepts) d).
Proof.
  split.
  - intros st e uid id x Hget Hown.
    destruct (mem_delete_entities e id st) as (st' & Hdel & Hst').
    exists st'. rewrite (delete_route_owner e uid id st x Hget Hown), Hdel.
    assert (Hgone : get_entity e st' id = Ok None).
    { by rewrite mem_get_entity, Hst', decide_True, lookup_delete_eq. }
    split; [done|]. split; [exact Hgone|]. split.
    + intros id' Hne. rewrite !mem_get_entity, Hst', decide_True by done.
      by rewrite lookup_delete_ne.
    + intros caller. by apply delete_route_absent.
  - intros accepts d e uid id x Hget Hown.
    exists (PostgresStorage.sql_delete (pg_table e) id d).
    rewrite (delete_route_owner e uid id d x Hget Hown), pg_delete_entity.
    assert (Hgone : @get_entity _ (PostgresStorage_IStorage accepts) e
                      (PostgresStorage.sql_delete (pg_table e) id d) id
                    = Ok None).
    { by rewrite pg_get_entity, pg_sql_delete_same, lookup_delete_eq. }
    split; [done|]. split; [exact Hgone|]. split.
    + intros id' Hne. rewrite !pg_get_entity, pg_sql_delete_same.
      by rewrite lookup_delete_ne.
    + intros caller. by apply delete_route_absent.
Qed.

Lemma delete_route_then_not_found_witness :
  exists st',
    delete_route Application (Some 1) 1 mem_one_application
      = (Response 204 Empty, st')
    /\ delete_route Application (Some 1) 1 st'
       = (Response 404 (Message "Application not found"), st').
Proof.
  destruct mem_one_application_holds as [Hget Hown].
  destruct (proj1 delete_route_then_not_found mem_one_application
              Application 1 1 acme_stored)
    as (st' & H204 & _ & _ & H404).
  - simpl. unfold MemStorage.getJobApplicationById. by rewrite Hget.
  - exact Hown.
  - exists st'. split; [exact H204|]. exact (H404 1).
Defined.

Lemma pg_fk_ok_mono d d' (r : PostgresStorage.row) fk :
  (forall n, is_Some (PostgresStorage.rows fk.2 d !! n) ->
             is_Some (PostgresStorage.rows fk.2 d' !! n)) ->
  PostgresStorage.fk_ok d r fk = true ->
  PostgresStorage.fk_ok d' r fk = true.
Proof.
  unfold PostgresStorage.fk_ok. intros Hsub.
  destruct (r !! fk.1) as [[]|]; try done.
  rewrite !bool_decide_eq_true. apply Hsub.
Qed.

Lemma pg_constraints_fk accepts d tb cols (r : PostgresStorage.row) fk :
  PostgresStorage.constraints_ok accepts d tb cols r = true ->
  fk ∈ PostgresStorage.references tb -> fk.1 ∈ cols ->
  PostgresStorage.fk_ok d r fk = true.
Proof.
  unfold PostgresStorage.constraints_ok.
  intros [_ H]%andb_true_iff Hfk Hcol.
  rewrite forallb_forall in H. apply H.
  apply list_elem_of_In, list_elem_of_filter. by split.
Qed.

Lemma pg_sql_insert_constraints accepts now tb values d r d' :
  PostgresStorage.sql_insert accepts now tb values d = Ok (r, d') ->
  PostgresStorage.constraints_ok accepts d tb
    (PostgresStorage.references tb).*1 r = true.
Proof.
  unfold PostgresStorage.sql_insert.
  destruct (PostgresStorage.constraints_ok _ _ _ _ _) eqn:Hc; [|done].
  by intros [= <- _].
Qed.

Lemma pg_sql_insert_references accepts now tb values d r d' :
  PostgresStorage.sql_insert accepts now tb values d = Ok (r, d') ->
  references_hold d -> references_hold d'.
Proof.
  intros Hins Hinv tb' id r' fk Hr' Hfk.
  pose proof (pg_sql_insert_constraints _ _ _ _ _ _ _ Hins) as Hc.
  pose proof (fun tb' => pg_sql_insert_rows _ _ _ _ _ _ _ tb' Hins) as Hrows.
  assert (Hsub : forall tb'' n,
             is_Some (PostgresStorage.rows tb'' d !! n) ->
             is_Some (PostgresStorage.rows tb'' d' !! n)).
  { intros tb'' n Hn. destruct (Hrows tb'') as [-> _].
    case_decide as E; [subst tb''|done].
    destruct (decide (n = PostgresStorage.nextval tb d)) as [->|Hne].
    - rewrite lookup_insert_eq. eauto.
    - by rewrite lookup_insert_ne. }
  apply (pg_fk_ok_mono d); [apply Hsub|].
  destruct (Hrows tb') as [Hrw _]. rewrite Hrw in Hr'. clear Hrw.
  case_decide as E; [subst tb'|by eapply Hinv].
  destruct (decide (id = PostgresStorage.nextval tb d)) as [->|Hne].
  - rewrite lookup_insert_eq in Hr'. injection Hr' as <-.
    eapply pg_constraints_fk; [exact Hc|exact Hfk|].
    apply list_elem_of_fmap. by exists fk.
  - rewrite lookup_insert_ne in Hr' by done. by eapply Hinv.
Qed.

Lemma pg_fk_ok_same_column d (r r' : PostgresStorage.row) fk :
  r' !! fk.1 = r !! fk.1 ->
  PostgresStorage.fk_ok d r' fk = PostgresStorage.fk_ok d r fk.
Proof. unfold PostgresStorage.fk_ok. by intros ->. Qed.

Lemma pg_sql_update_constraints accepts tb sets id d r0 r d' :
  PostgresStorage.rows tb d !! id = Some r0 ->
  PostgresStorage.sql_update accepts tb sets id d = Ok (r, d') ->
  PostgresStorage.constraints_ok accepts d tb sets.*1
    (PostgresStorage.assign r0 sets) = true.
Proof.
  unfold PostgresStorage.sql_update. intros ->.
  destruct sets as [|s sets]; [done|].
  by destruct (PostgresStorage.constraints_ok _ _ _ _ _) eqn:Hc.
Qed.

(** The update methods, by kind. *)
Lemma pg_update_entity_sql accepts e now id partial d :
  @update_entity _ (PostgresStorage_IStorage accepts) e now id partial d
  = match PostgresStorage.rows (pg_table e) d !! id with
    | None => Throw match e with
                    | Application => "Job application not found"
                    | Document => "Document not found"
                    | Interview => "Interview not found"
                    end
    | Some _ =>
        '(r, d') ← PostgresStorage.sql_update accepts (pg_table e)
                     (set_fields e now partial) id d;
        o ← PostgresStorage.first_row r
              (PostgresStorage.project (pg_fields e));
        Ok (o, d')
    end.
Proof.
  destruct e; cbn [update_entity updateJobApplication updateDocument
                   updateInterview PostgresStorage_IStorage pg_table];
    unfold PostgresStorage.updateJobApplication,
           PostgresStorage.updateDocument, PostgresStorage.updateInterview,
           PostgresStorage.getJobApplicationById,
           PostgresStorage.getDocumentById,
           PostgresStorage.getInterviewById,
           PostgresStorage.sql_select_by_id, mbind, result_bind;
    (destruct (PostgresStorage.rows _ d !! id) as [r0|] eqn:Hr0; [|done]);
    cbn [fmap option_fmap option_map];
    unfold set_fields; cbn [updatable flat_map fst snd pg_fields];
    rewrite ?app_nil_r, <- ?app_assoc; reflexivity.
Qed.

Lemma pg_set_if_columns update k c (p : string * value) :
  p ∈ PostgresStorage.set_if update k c ->
  p.1 = c /\ update !! k = Some p.2.
Proof.
  unfold PostgresStorage.set_if. destruct (update !! k) as [v|].
  - by intros ->%list_elem_of_singleton.
  - by intros ?%elem_of_nil.
Qed.

(** An update writes updatable columns and [updated_at] only. *)
Lemma pg_set_fields_columns e now update c :
  c ∈ (set_fields e now update).*1 ->
  c ∈ (updatable e).*2 \/ c = "updated_at".
Proof.
  unfold set_fields. rewrite fmap_app, elem_of_app.
  intros [H|H].
  - left. apply list_elem_of_fmap in H as (p & -> & Hp).
    apply list_elem_of_In, in_flat_map in Hp as (q & Hq & Hp).
    apply list_elem_of_In, pg_set_if_columns in Hp as [-> _].
    apply list_elem_of_fmap. exists q. split; [done|]. by apply list_elem_of_In.
  - right. destruct e; simpl in H;
      try (by apply list_elem_of_singleton in H); by apply elem_of_nil in H.
Qed.

Lemma pg_set_fields_not_key e now update c :
  c ∈ ["id"; "user_id"; "job_application_id"; "created_at"] ->
  c ∉ (set_fields e now update).*1.
Proof.
  intros Hc Hin. apply pg_set_fields_columns in Hin.
  repeat (apply elem_of_cons in Hc as [->|Hc]);
    [..|by apply elem_of_nil in Hc].
  all: destruct Hin as [Hin|Hin]; [|done].
  all: revert Hin; destruct e.
  all: match goal with |- ?x ∈ ?l -> False => change (x ∉ l) end.
  all: closed_decision.
Qed.

Lemma pg_references_columns tb fk :
  fk ∈ PostgresStorage.references tb ->
  fk.1 ∈ ["id"; "user_id"; "job_application_id"; "created_at"].
Proof.
  destruct tb; simpl; intros H;
    repeat (apply elem_of_cons in H as [->|H]);
    try (by apply elem_of_nil in H); simpl; set_solver.
Qed.

Lemma pg_update_references accepts e now id partial d x d' :
  @update_entity _ (PostgresStorage_IStorage accepts) e now id partial d
    = Ok (x, d') ->
  references_hold d -> references_hold d'.
Proof.
  rewrite pg_update_entity_sql.
  destruct (PostgresStorage.rows (pg_table e) d !! id) as [r0|] eqn:Hr0;
    [|done].
  unfold mbind, result_bind.
  destruct (PostgresStorage.sql_update _ _ _ _ _) as [[r d1]|] eqn:Hupd;
    [|done].
  apply pg_sql_update_Ok in Hupd as [(_ & _ & Hnone)|(r1 & Hr1 & -> & ->)];
    [congruence|].
  rewrite Hr0 in Hr1. injection Hr1 as <-. simpl. intros [= _ <-].
  intros Hinv tb id' r' fk Hr' Hfk.
  assert (Hdom : forall tb' n,
             is_Some (PostgresStorage.rows tb' d !! n) ->
             is_Some (PostgresStorage.rows tb'
                        (PostgresStorage.write (pg_table e)
                           (<[id := PostgresStorage.assign r0
                                      (set_fields e now partial)]>
                              (PostgresStorage.rows (pg_table e) d))
                           (PostgresStorage.nextval (pg_table e) d) d) !! n)).
  { intros tb' n Hn. destruct (decide (tb' = pg_table e)) as [->|Hne].
    - rewrite pg_rows_write. destruct (decide (n = id)) as [->|Hn'].
      + rewrite lookup_insert_eq. eauto.
      + by rewrite lookup_insert_ne.
    - by rewrite pg_rows_write_ne. }
  apply (pg_fk_ok_mono d); [apply Hdom|].
  destruct (decide (tb = pg_table e)) as [->|Hne].
  - rewrite pg_rows_write in Hr'.
    destruct (decide (id' = id)) as [->|Hid].
    + rewrite lookup_insert_eq in Hr'. injection Hr' as <-.
      rewrite (pg_fk_ok_same_column d r0).
      * by eapply Hinv.
      * apply pg_assign_lookup_notin, pg_set_fields_not_key.
        by eapply pg_references_columns.
    + rewrite lookup_insert_ne in Hr' by done. by eapply Hinv.
  - rewrite pg_rows_write_ne in Hr' by done. by eapply Hinv.
Qed.

Lemma pg_delete_references e id d :
  references_hold d ->
  references_hold (PostgresStorage.sql_delete (pg_table e) id d).
Proof.
  intros Hinv tb id' r fk Hr Hfk.
  pose proof (pg_sql_delete_sub _ _ _ _ _ _ Hr) as Hr0.
  pose proof (Hinv tb id' r fk Hr0 Hfk) as Hok.
  revert Hok. unfold PostgresStorage.fk_ok.
  destruct (r !! fk.1) as [[| |n| | |]|] eqn:Hcol; try done.
  rewrite !bool_decide_eq_true. intros [t Ht].
  destruct (decide (fk.2 = pg_table e)) as [Htb|Htb].
  - (* the target is the table deleted from: only job applications are
       referenced *)
    rewrite Htb, pg_sql_delete_same.
    destruct (decide (n = id)) as [->|Hn]; [|rewrite lookup_delete_ne by done; rewrite <- Htb; eauto].
    exfalso.
    destruct tb; simpl in Hfk;
      repeat (apply elem_of_cons in Hfk as [->|Hfk]);
      try (by apply elem_of_nil in Hfk); simpl in *;
      try (by destruct e).
    destruct e; try done. clear Htb.
    revert Hr. unfold PostgresStorage.sql_delete.
    cbn [pg_table PostgresStorage.rows] in *. rewrite Ht.
    cbn [PostgresStorage.rows PostgresStorage.write
         PostgresStorage.interviews].
    intros [_ H]%map_lookup_filter_Some. simpl in H. congruence.
  - assert (Husers : PostgresStorage.rows fk.2
                       (PostgresStorage.sql_delete (pg_table e) id d)
                     = PostgresStorage.rows fk.2 d).
    { destruct (decide (fk.2 = PostgresStorage.Interviews)) as [Hi|Hi].
      - exfalso. destruct tb; simpl in Hfk;
          repeat (apply elem_of_cons in Hfk as [->|Hfk]);
          first [by apply elem_of_nil in Hfk | by simpl in Hi].
      - rewrite pg_rows_sql_delete by done. by rewrite decide_False. }
    rewrite Husers. eauto.
Qed.

Lemma pg_step_references accepts now o (d : PostgresStorage.db) :
  references_hold d ->
  references_hold (@step _ (PostgresStorage_IStorage accepts) now o d).2.
Proof.
  intros Hinv. destruct o as [u|e fields|e id partial|e id]; cbn [step].
  - change (@createUser _ (PostgresStorage_IStorage accepts))
      with (PostgresStorage.createUser accepts).
    destruct (PostgresStorage.createUser _ _ _ _) as [[x d']|] eqn:Hc;
      cbn [snd]; [|done].
    apply pg_createUser_Ok in Hc as (r0 & values & Hins & _).
    by eapply pg_sql_insert_references.
  - destruct (create_entity e now fields d) as [[x d']|] eqn:Hc;
      cbn [snd]; [|done].
    apply pg_create_entity_Ok in Hc as (r0 & values & Hins & _).
    by eapply pg_sql_insert_references.
  - destruct (update_entity e now id partial d) as [[x d']|] eqn:Hc;
      cbn [snd]; [|done].
    by eapply pg_update_references.
  - rewrite pg_delete_entity. cbn [snd]. by apply pg_delete_references.
Qed.

Lemma pg_run_references accepts ops : forall d,
  references_hold d ->
  references_hold (@run _ (PostgresStorage_IStorage accepts) ops d).
Proof.
  induction ops as [|[now o] ops IH]; intros d H; [done|].
  simpl. by apply IH, pg_step_references.
Qed.

(** X4: on the database store, whatever the engine accepts and whatever
    is created, updated and deleted from the empty database on, every
    foreign key names an existing row: an interview whose
    [job_application_id] is an integer belongs to a stored job
    application, and the [user_id] of an interview, job application or
    document that is an integer belongs to a stored user. *)
Theorem pg_referential_integrity accepts (ops : list (Z * op)) :
  let d := @run _ (PostgresStorage_IStorage accepts) ops
             PostgresStorage.init in
  references_hold d
  /\ (forall id r n,
        PostgresStorage.interviews d !! id = Some r ->
        r !! "job_application_id" = Some (VNum n) ->
        is_Some (PostgresStorage.job_applications d !! n))
  /\ (forall e id r n,
        PostgresStorage.rows (pg_table e) d !! id = Some r ->
        r !! "user_id" = Some (VNum n) ->
        is_Some (PostgresStorage.users d !! n)).
Proof.
  intros d.
  assert (Hinv : references_hold d).
  { apply pg_run_references. by intros [] id r fk Hr. }
  split; [exact Hinv|]. split.
  - intros id r n Hr Hn.
    pose proof (Hinv PostgresStorage.Interviews id r
                  ("job_application_id", PostgresStorage.JobApplications)
                  Hr ltac:(simpl; set_solver)) as Hok.
    unfold PostgresStorage.fk_ok in Hok. simpl in Hok. rewrite Hn in Hok.
    by apply bool_decide_eq_true in Hok.
  - intros e id r n Hr Hn.
    pose proof (Hinv (pg_table e) id r ("user_id", PostgresStorage.Users)
                  Hr ltac:(destruct e; simpl; set_solver)) as Hok.
    unfold PostgresStorage.fk_ok in Hok. simpl in Hok. rewrite Hn in Hok.
    by apply bool_decide_eq_true in Hok.
Qed.

Lemma pg_assign_app (r : PostgresStorage.row) a b :
  PostgresStorage.assign r (a ++ b)
  = PostgresStorage.assign (PostgresStorage.assign r a) b.
Proof. unfold PostgresStorage.assign. apply foldl_app. Qed.

Lemma pg_assign_set_if (r : PostgresStorage.row) update k c c' :
  PostgresStorage.assign r (PostgresStorage.set_if update k c) !! c'
  = if decide (c' = c)
    then match update !! k with Some v => Some v | None => r !! c' end
    else r !! c'.
Proof.
  unfold PostgresStorage.set_if. destruct (update !! k) as [v|]; simpl.
  - case_decide as E; [subst; apply lookup_insert_eq|].
    by rewrite lookup_insert_ne.
  - by case_decide.
Qed.

Lemma pg_assign_flat_notin update l : forall (r : PostgresStorage.row) c,
  c ∉ l.*2 ->
  PostgresStorage.assign r
    (flat_map (fun p => PostgresStorage.set_if update p.1 p.2) l) !! c
  = r !! c.
Proof.
  induction l as [|[k0 c0] l IH]; intros r c Hc; [done|].
  simpl in *. apply not_elem_of_cons in Hc as [Hc0 Hc].
  rewrite pg_assign_app, IH, pg_assign_set_if by done.
  by rewrite decide_False.
Qed.

Lemma pg_assign_flat_in update l : forall (r : PostgresStorage.row) k c,
  NoDup l.*2 -> (k, c) ∈ l ->
  PostgresStorage.assign r
    (flat_map (fun p => PostgresStorage.set_if update p.1 p.2) l) !! c
  = match update !! k with Some v => Some v | None => r !! c end.
Proof.
  induction l as [|[k0 c0] l IH]; intros r k c Hnd Hin;
    [by apply elem_of_nil in Hin|].
  simpl in *. apply NoDup_cons in Hnd as [Hc0 Hnd].
  rewrite pg_assign_app.
  apply elem_of_cons in Hin as [[= -> ->]|Hin].
  - rewrite pg_assign_flat_notin, pg_assign_set_if by done.
    by rewrite decide_True.
  - rewrite (IH _ k c Hnd Hin), pg_assign_set_if.
    rewrite decide_False; [done|]. intros ->. apply Hc0.
    apply list_elem_of_fmap. by exists (k, c0).
Qed.

Lemma updatable_NoDup e :
  NoDup (updatable e).*2 /\ "updated_at" ∉ (updatable e).*2.
Proof. destruct e; split; closed_decision. Qed.

(** The row an update writes. *)
Lemma pg_assign_set_fields e now update (r : PostgresStorage.row) :
  let r' := PostgresStorage.assign r (set_fields e now update) in
  (forall k c, (k, c) ∈ updatable e ->
     r' !! c = match update !! k with Some v => Some v | None => r !! c end)
  /\ (e ≠ Interview -> r' !! "updated_at" = Some (VDate now))
  /\ (forall c, c ∉ (updatable e).*2 ->
        c ≠ "updated_at" \/ e = Interview -> r' !! c = r !! c).
Proof.
  destruct (updatable_NoDup e) as [Hnd Hupd].
  unfold set_fields. cbn zeta. rewrite pg_assign_app.
  split; [|split].
  - intros k c Hin.
    assert (c ≠ "updated_at").
    { intros ->. apply Hupd, list_elem_of_fmap. by exists (k, "updated_at"). }
    destruct e; unfold PostgresStorage.assign at 1; cbn [foldl];
      rewrite ?lookup_insert_ne by done; by apply pg_assign_flat_in.
  - intros He. destruct e; try done; unfold PostgresStorage.assign at 1;
      cbn [foldl]; apply lookup_insert_eq.
  - intros c Hc Hor.
    destruct e; unfold PostgresStorage.assign at 1; cbn [foldl];
      rewrite ?lookup_insert_ne by (by destruct Hor);
      by apply pg_assign_flat_notin.
Qed.

(** What a successful update has done. *)
Lemma pg_update_entity_row accepts e now id partial d x d' :
  @update_entity _ (PostgresStorage_IStorage accepts) e now id partial d
    = Ok (x, d') ->
  exists r0,
    PostgresStorage.rows (pg_table e) d !! id = Some r0
    /\ x = PostgresStorage.project (pg_fields e)
             (PostgresStorage.assign r0 (set_fields e now partial))
    /\ d' = PostgresStorage.write (pg_table e)
              (<[id := PostgresStorage.assign r0 (set_fields e now partial)]>
                 (PostgresStorage.rows (pg_table e) d))
              (PostgresStorage.nextval (pg_table e) d) d.
Proof.
  rewrite pg_update_entity_sql.
  destruct (PostgresStorage.rows (pg_table e) d !! id) as [r0|] eqn:Hr0;
    [|done].
  unfold mbind, result_bind.
  destruct (PostgresStorage.sql_update _ _ _ _ _) as [[r d1]|] eqn:Hupd;
    [|done].
  apply pg_sql_update_Ok in Hupd as [(_ & _ & Hnone)|(r1 & Hr1 & -> & ->)];
    [congruence|].
  rewrite Hr0 in Hr1. injection Hr1 as <-. simpl. intros [= <- <-]. eauto.
Qed.

(** X5: a successful update on the database store changes one row.  An
    updatable column whose property the partial object leaves undefined
    keeps its value; one whose property is defined holds that value
    afterwards when the value is [NULL] or of the type of the column
    (any other value the database converts); [updated_at] is the clock
    (job applications and documents).  Every other column of the row
    ([id], [user_id], [notes] of a job application,
    [job_application_id], [created_at], ...), every other row and every
    other table is as before. *)
Theorem pg_update_frame accepts e now id partial d x d' :
  @update_entity _ (PostgresStorage_IStorage accepts) e now id partial d
    = Ok (x, d') ->
  exists r0 r1,
    PostgresStorage.rows (pg_table e) d !! id = Some r0
    /\ PostgresStorage.rows (pg_table e) d' !! id = Some r1
    /\ x = PostgresStorage.project (pg_fields e) r1
    /\ (forall k c, (k, c) ∈ updatable e ->
          match partial !! k with
          | Some v =>
              PostgresStorage.kept_as_sent (pg_table e) c v = true ->
              r1 !! c = Some v
          | None => r1 !! c = r0 !! c
          end)
    /\ (e ≠ Interview -> r1 !! "updated_at" = Some (VDate now))
    /\ (forall c, c ∉ (updatable e).*2 ->
          c ≠ "updated_at" \/ e = Interview -> r1 !! c = r0 !! c)
    /\ (forall tb id', (tb, id') ≠ (pg_table e, id) ->
          PostgresStorage.rows tb d' !! id' = PostgresStorage.rows tb d !! id').
Proof.
  intros (r0 & Hr0 & -> & ->)%pg_update_entity_row.
  destruct (pg_assign_set_fields e now partial r0) as (Hset & Hupd & Hkeep).
  exists r0, (PostgresStorage.assign r0 (set_fields e now partial)).
  split; [exact Hr0|]. split.
  { by rewrite pg_rows_write, lookup_insert_eq. }
  split; [done|]. split.
  { intros k c Hin. rewrite (Hset k c Hin). by destruct (partial !! k). }
  split; [exact Hupd|]. split; [exact Hkeep|].
  intros tb id' Hne. destruct (decide (tb = pg_table e)) as [->|Htb].
  - rewrite pg_rows_write, lookup_insert_ne; [done|congruence].
  - by rewrite pg_rows_write_ne.
Qed.

Lemma pg_update_frame_witness :
  exists x d' r1,
    PostgresStorage.updateJobApplication accept_all 2000 1
      {[ "status" := VStr "offer"; "notes" := VStr "call back";
         "userId" := VNum 7 ]} pg_small = Ok (x, d')
    /\ PostgresStorage.job_applications d' !! 1 = Some r1
    /\ r1 !! "status" = Some (VStr "offer")
    /\ r1 !! "company" = Some (VStr "Acme")
    /\ r1 !! "notes" = Some (VStr "n")
    /\ r1 !! "user_id" = Some (VNum 1)
    /\ r1 !! "updated_at" = Some (VDate 2000).
Proof.
  destruct (PostgresStorage.updateJobApplication accept_all 2000 1
              {[ "status" := VStr "offer"; "notes" := VStr "call back";
                 "userId" := VNum 7 ]} pg_small) as [[x d']|] eqn:Hupd;
    [|by vm_compute in Hupd].
  destruct (pg_update_frame accept_all Application 2000 1 _ pg_small x d'
              Hupd)
    as (r0 & r1 & Hr0 & Hr1 & _ & Hset & Hnow & Hkeep & _).
  injection Hr0 as <-.
  exists x, d', r1. split; [done|]. split; [exact Hr1|].
  split; [exact (Hset "status" "status" ltac:(closed_decision) eq_refl)|].
  split; [exact (Hset "company" "company" ltac:(closed_decision))|].
  split; [rewrite (Hkeep "notes"); [done|closed_decision|by left]|].
  split; [rewrite (Hkeep "user_id"); [done|closed_decision|by left]|].
  by apply Hnow.
Defined.

Lemma pg_project_key e (r : PostgresStorage.row) :
  PostgresStorage.project (pg_fields e) r !! "userId" = r !! "user_id"
  /\ PostgresStorage.project (pg_fields e) r !! "id" = r !! "id".
Proof.
  rewrite !pg_project_lookup by apply pg_fields_NoDup_e.
  replace ((list_to_map (pg_fields e) : gmap string string) !! "userId")
    with (Some "user_id") by (destruct e; vm_compute; reflexivity).
  replace ((list_to_map (pg_fields e) : gmap string string) !! "id")
    with (Some "id") by (destruct e; vm_compute; reflexivity).
  done.
Qed.

Lemma flat_map_set_if_nil update l :
  (forall p, p ∈ l -> update !! p.1 = None) ->
  flat_map (fun p : string * string =>
              PostgresStorage.set_if update p.1 p.2) l = [].
Proof.
  induction l as [|p l IH]; intros H; [done|]. simpl.
  unfold PostgresStorage.set_if at 1. rewrite (H p) by by left.
  apply IH. intros q Hq. apply H. by right.
Qed.

(** X6: on the database store a PATCH never changes the owner or the [id]
    of an entity, whatever the body holds: the owner's PATCH answers 500
    and changes nothing, or answers 200 with an entity that has the same
    [id] and the same [userId], stored under the same key. *)
Theorem pg_patch_keeps_owner accepts e now uid id body
    (d : PostgresStorage.db) x :
  @get_entity _ (PostgresStorage_IStorage accepts) e d id = Ok (Some x) ->
  x !! "userId" = Some (VNum uid) ->
  (exists m,
      @patch_route _ (PostgresStorage_IStorage accepts) e now (Some uid) id
        body d = (Response 500 (Message m), d))
  \/ (exists updated d' r,
        @patch_route _ (PostgresStorage_IStorage accepts) e now (Some uid) id
          body d = (Response 200 (Json updated), d')
        /\ updated !! "userId" = Some (VNum uid)
        /\ updated !! "id" = x !! "id"
        /\ @get_entity _ (PostgresStorage_IStorage accepts) e d' id
           = Ok (Some updated)
        /\ PostgresStorage.rows (pg_table e) d' !! id = Some r
        /\ r !! "user_id" = Some (VNum uid)).
Proof.
  intros Hget Hown.
  rewrite (@patch_route_owner _ (PostgresStorage_IStorage accepts)
             e now uid id body d x Hget Hown).
  destruct (update_entity e now id body d) as [[updated d']|] eqn:Hupd;
    [right|left; eauto].
  apply pg_update_entity_row in Hupd as (r0 & Hr0 & -> & ->).
  rewrite pg_get_entity, Hr0 in Hget. injection Hget as <-.
  destruct (pg_project_key e r0) as [Hu0 Hi0].
  set (r1 := PostgresStorage.assign r0 (set_fields e now body)).
  destruct (pg_project_key e r1) as [Hu1 Hi1].
  assert (Hsame : forall c, c ∈ ["id"; "user_id"; "job_application_id";
                                  "created_at"] -> r1 !! c = r0 !! c).
  { intros c Hc. by apply pg_assign_lookup_notin, pg_set_fields_not_key. }
  eexists (PostgresStorage.project (pg_fields e) r1), _, r1.
  split; [reflexivity|].
  split; [by rewrite Hu1, Hsame, <- Hu0 by closed_decision|].
  split; [by rewrite Hi1, Hi0, Hsame by closed_decision|].
  split; [by rewrite pg_get_entity, pg_rows_write, lookup_insert_eq|].
  split; [by rewrite pg_rows_write, lookup_insert_eq|].
  by rewrite Hsame, <- Hu0 by closed_decision.
Qed.

Lemma pg_patch_keeps_owner_witness :
  exists x,
    @get_entity _ (PostgresStorage_IStorage accept_all) Application pg_small 1
    = Ok (Some x)
    /\ x !! "userId" = Some (VNum 1)
    /\ ((exists m,
            @patch_route _ (PostgresStorage_IStorage accept_all) Application
              2000 (Some 1) 1
              {[ "userId" := VNum 7; "id" := VNum 9;
                 "status" := VStr "offer" ]} pg_small
            = (Response 500 (Message m), pg_small))
        \/ (exists updated d' r,
              @patch_route _ (PostgresStorage_IStorage accept_all) Application
                2000 (Some 1) 1
                {[ "userId" := VNum 7; "id" := VNum 9;
                   "status" := VStr "offer" ]} pg_small
              = (Response 200 (Json updated), d')
              /\ updated !! "userId" = Some (VNum 1)
              /\ updated !! "id" = x !! "id"
              /\ @get_entity _ (PostgresStorage_IStorage accept_all)
                   Application d' 1 = Ok (Some updated)
              /\ PostgresStorage.rows (pg_table Application) d' !! 1 = Some r
              /\ r !! "user_id" = Some (VNum 1))).
Proof.
  set (r := {[ "id" := VNum 1; "user_id" := VNum 1;
               "company" := VStr "Acme"; "status" := VStr "applied";
               "notes" := VStr "n" ]} : PostgresStorage.row).
  assert (Hget : @get_entity _ (PostgresStorage_IStorage accept_all)
                   Application pg_small 1
                 = Ok (Some (PostgresStorage.project
                               (pg_fields Application) r)))
    by (rewrite pg_get_entity; reflexivity).
  assert (Hown : PostgresStorage.project (pg_fields Application) r
                 !! "userId" = Some (VNum 1))
    by (rewrite (proj1 (pg_project_key Application r)); reflexivity).
  eexists. split; [exact Hget|]. split; [exact Hown|].
  exact (pg_patch_keeps_owner accept_all Application 2000 1 1 _ pg_small _
           Hget Hown).
Defined.

(** X7: a PATCH of an interview whose body defines none of [title],
    [date], [notes], [completed], [feedback] (an empty body, say) is
    answered with 500 by the database store, which then sends an UPDATE
    with an empty SET list, and with 200 by the in-memory store. *)
Theorem pg_patch_interview_without_fields now uid id (body x : obj) :
  (forall k, k ∈ ["title"; "date"; "notes"; "completed"; "feedback"] ->
             body !! k = None) ->
  x !! "userId" = Some (VNum uid) ->
  (forall accepts (d : PostgresStorage.db),
      PostgresStorage.getInterviewById d id = Ok (Some x) ->
      @patch_interview _ (PostgresStorage_IStorage accepts) now (Some uid) id
        body d
      = (Response 500 (Message "Failed to update interview"), d))
  /\ (forall st : MemStorage.t,
        MemStorage.interviews st !! id = Some x ->
        exists st',
          patch_interview now (Some uid) id body st
          = (Response 200 (Json (spread x body)), st')
          /\ MemStorage.interviews st' !! id = Some (spread x body)).
Proof.
  intros Hbody Hown. split.
  - intros accepts d Hget.
    change (@patch_interview _ (PostgresStorage_IStorage accepts))
      with (@patch_route _ (PostgresStorage_IStorage accepts) Interview).
    rewrite (@patch_route_owner _ (PostgresStorage_IStorage accepts)
               Interview now uid id body d x Hget Hown).
    rewrite pg_update_entity_sql.
    change (@get_entity _ (PostgresStorage_IStorage accepts) Interview d id)
      with (PostgresStorage.getInterviewById d id) in Hget.
    unfold PostgresStorage.getInterviewById,
           PostgresStorage.sql_select_by_id in Hget.
    cbn [pg_table].
    destruct (PostgresStorage.rows PostgresStorage.Interviews d !! id)
      as [r0|]; [|done].
    unfold set_fields. rewrite flat_map_set_if_nil; [done|].
    intros [k c] Hin. apply Hbody. simpl in *.
    repeat (apply elem_of_cons in Hin as [[= -> ->]|Hin]);
      try (by apply elem_of_nil in Hin); closed_decision.
  - intros st Hget.
    change (patch_interview now (Some uid) id body st)
      with (patch_route Interview now (Some uid) id body st).
    rewrite (patch_route_owner Interview now uid id body st x);
      [|simpl; unfold MemStorage.getInterviewById; by rewrite Hget|done].
    simpl. rewrite (mem_updateInterview_Some _ _ _ _ Hget).
    eexists. split; [reflexivity|]. simpl. apply lookup_insert_eq.
Qed.

Lemma pg_patch_interview_without_fields_witness :
  (forall accepts (d : PostgresStorage.db),
      PostgresStorage.getInterviewById d 1
      = Ok (Some {[ "id" := VNum 1; "userId" := VNum 1 ]}) ->
      @patch_interview _ (PostgresStorage_IStorage accepts) 2000 (Some 1) 1
        ∅ d
      = (Response 500 (Message "Failed to update interview"), d))
  /\ (forall st : MemStorage.t,
        MemStorage.interviews st !! 1
        = Some {[ "id" := VNum 1; "userId" := VNum 1 ]} ->
        exists st',
          patch_interview 2000 (Some 1) 1 ∅ st
          = (Response 200
               (Json (spread {[ "id" := VNum 1; "userId" := VNum 1 ]} ∅)), st')
          /\ MemStorage.interviews st' !! 1
             = Some (spread {[ "id" := VNum 1; "userId" := VNum 1 ]} ∅)).
Proof.
  apply (pg_patch_interview_without_fields 2000 1 1 ∅
           {[ "id" := VNum 1; "userId" := VNum 1 ]}).
  - intros k _. apply lookup_empty.
  - reflexivity.
Defined.

Lemma insertDocumentSchema_fields :
  insertDocumentSchema
  = [ ZField "userId" CInteger false false;
      ZField "name" CText false false;
      ZField "type" CText false false;
      ZField "description" CText true true;
      ZField "content" CText false false;
      ZField "createdAt" CTimestamp true true ].
Proof. vm_compute. reflexivity. Qed.

Lemma insertInterviewSchema_fields :
  insertInterviewSchema
  = [ ZField "jobApplicationId" CInteger false false;
      ZField "userId" CInteger false false;
      ZField "title" CText false false;
      ZField "date" CTimestamp false false;
      ZField "notes" CText true true;
      ZField "completed" CBoolean true true;
      ZField "feedback" CText true true ].
Proof. vm_compute. reflexivity. Qed.

Lemma post_route_parse {S : Type} `{!IStorage S} e now uid body (st : S) :
  post_route e now (Some uid) body st
  = match parse (insert_schema e) (<["userId" := VNum uid]> body) with
    | None => (Response 400 ValidationMessage, st)
    | Some data =>
        match create_entity e now data st with
        | Ok (x, st') => (Response 201 (Json x), st')
        | Throw _ => (Response 500 (Message "Internal server error"), st)
        end
    end.
Proof.
  destruct e; cbn [post_route insert_schema create_entity];
    unfold post_applications, post_documents, post_interviews,
           isAuthenticated, try_catch, handleZodError, mbind, result_bind;
    destruct (parse _ _) as [data|]; try done;
    first [ destruct (createJobApplication _ _ _) as [[? ?]|]
          | destruct (createDocument _ _ _) as [[? ?]|]
          | destruct (createInterview _ _ _) as [[? ?]|] ]; done.
Qed.

(** A required field is in the schema, neither optional nor nullable. *)
Lemma required_field e k :
  k ∈ required e ->
  exists ty, ZField k ty false false ∈ insert_schema e.
Proof.
  destruct e; simpl; intros H;
    rewrite ?insertJobApplicationSchema_fields, ?insertDocumentSchema_fields,
            ?insertInterviewSchema_fields;
    repeat (apply elem_of_cons in H as [->|H]);
    try (by apply elem_of_nil in H);
    eexists; repeat (first [by left | right]).
Qed.

Lemma parse_field_ok schema input data f :
  parse schema input = Some data -> f ∈ schema ->
  field_ok input f = true.
Proof.
  intros Hp Hf.
  assert (H : forallb (field_ok input) schema = true)
    by (apply parse_is_Some; eauto).
  rewrite forallb_forall in H. by apply H, list_elem_of_In.
Qed.

(** X8: a create route answers 400 exactly when the body, with the
    caller as [userId], fails the insert schema, and then leaves the
    store as it is; it fails whenever a required property is missing or
    [null], whatever the store. *)
Theorem post_route_validation {S : Type} `{!IStorage S}
    (e : entity) (now uid : Z) (body : obj) (st : S) :
  (status (post_route e now (Some uid) body st).1 = 400
   <-> parse (insert_schema e) (<["userId" := VNum uid]> body) = None)
  /\ (status (post_route e now (Some uid) body st).1 = 400 ->
      post_route e now (Some uid) body st
      = (Response 400 ValidationMessage, st))
  /\ (forall k, k ∈ required e ->
        body !! k = None \/ body !! k = Some VNull ->
        post_route e now (Some uid) body st
        = (Response 400 ValidationMessage, st)).
Proof.
  rewrite post_route_parse.
  assert (Hreq : forall k, k ∈ required e ->
            body !! k = None \/ body !! k = Some VNull ->
            parse (insert_schema e) (<["userId" := VNum uid]> body) = None).
  { intros k Hk Hbody.
    destruct (parse _ _) as [data|] eqn:Hp; [exfalso|done].
    destruct (required_field e k Hk) as [ty Hf].
    pose proof (parse_field_ok _ _ _ _ Hp Hf) as Hok.
    unfold field_ok in Hok. simpl in Hok.
    assert (k ≠ "userId") by (intros ->; revert Hk; destruct e; closed_decision).
    rewrite lookup_insert_ne in Hok by done.
    destruct Hbody as [Hb|Hb]; by rewrite Hb in Hok. }
  destruct (parse (insert_schema e) _) as [data|] eqn:Hp.
  - split; [|split].
    + split; [|done]. by destruct (create_entity _ _ _ _) as [[? ?]|].
    + by destruct (create_entity _ _ _ _) as [[? ?]|].
    + intros k Hk Hb. by specialize (Hreq k Hk Hb).
  - by repeat split.
Qed.

Lemma is_json_insert uid (body : obj) :
  is_json body -> is_json (<["userId" := VNum uid]> body).
Proof.
  intros H k t. destruct (decide (k = "userId")) as [->|Hk].
  - by rewrite lookup_insert_eq.
  - rewrite lookup_insert_ne by done. apply H.
Qed.

Lemma parse_date_json schema (input : obj) k nullable optional :
  ZField k CTimestamp nullable optional ∈ schema ->
  is_json input ->
  match input !! k with
  | None => optional = false
  | Some VNull => nullable = false
  | Some _ => True
  end ->
  parse schema input = None.
Proof.
  intros Hf Hjson Hk.
  destruct (parse schema input) as [data|] eqn:Hp; [exfalso|done].
  pose proof (parse_field_ok _ _ _ _ Hp Hf) as Hok.
  unfold field_ok in Hok. simpl in Hok.
  destruct (input !! k) as [[]|] eqn:Hv; try done.
  - by rewrite Hk in Hok.
  - by apply (Hjson k t).
  - by rewrite Hk in Hok.
Qed.

(** X9: over JSON no interview can be created: the insert schema wants a
    [Date] object as [date], which a JSON body cannot hold, so
    [POST /api/interviews] answers 400 whatever the body; and a job
    application or a document whose body gives [appliedDate] or
    [createdAt] (other than [null]) is refused in the same way. *)
Theorem post_json_dates_rejected {S : Type} `{!IStorage S}
    (now uid : Z) (body : obj) (st : S) :
  is_json body ->
  post_interviews now (Some uid) body st
    = (Response 400 ValidationMessage, st)
  /\ (forall v, body !! "appliedDate" = Some v -> v ≠ VNull ->
        post_applications now (Some uid) body st
        = (Response 400 ValidationMessage, st))
  /\ (forall v, body !! "createdAt" = Some v -> v ≠ VNull ->
        post_documents now (Some uid) body st
        = (Response 400 ValidationMessage, st)).
Proof.
  intros Hjson%(is_json_insert uid).
  split; [|split].
  - change (post_interviews now (Some uid) body st)
      with (post_route Interview now (Some uid) body st).
    rewrite post_route_parse.
    rewrite (parse_date_json _ _ "date" false false); [done| |done|].
    + simpl. rewrite insertInterviewSchema_fields.
      do 3 right. by left.
    + by destruct (_ !! "date") as [[]|].
  - intros v Hv Hnull.
    change (post_applications now (Some uid) body st)
      with (post_route Application now (Some uid) body st).
    rewrite post_route_parse.
    rewrite (parse_date_json _ _ "appliedDate" true true); [done| |done|].
    + simpl. rewrite insertJobApplicationSchema_fields.
      do 14 right. by left.
    + rewrite lookup_insert_ne, Hv by done. by destruct v.
  - intros v Hv Hnull.
    change (post_documents now (Some uid) body st)
      with (post_route Document now (Some uid) body st).
    rewrite post_route_parse.
    rewrite (parse_date_json _ _ "createdAt" true true); [done| |done|].
    + simpl. rewrite insertDocumentSchema_fields.
      do 5 right. by left.
    + rewrite lookup_insert_ne, Hv by done. by destruct v.
Qed.

Lemma post_json_dates_rejected_witness :
  post_interviews 2000 (Some 1)
    {[ "jobApplicationId" := VNum 1; "title" := VStr "Call";
       "date" := VStr "2025-04-01T10:00:00.000Z" ]} MemStorage.init
  = (Response 400 ValidationMessage, MemStorage.init).
Proof.
  refine (proj1 (post_json_dates_rejected 2000 1 _ MemStorage.init _)).
  intros k t.
  destruct (decide (k = "date")) as [->|];
    [done|].
  destruct (decide (k = "title")) as [->|]; [done|].
  destruct (decide (k = "jobApplicationId")) as [->|]; [done|].
  rewrite !lookup_insert_ne by done. by rewrite lookup_singleton_ne.
Defined.

Lemma parse_userId e uid body data :
  parse (insert_schema e) (<["userId" := VNum uid]> body) = Some data ->
  data !! "userId" = Some (VNum uid) /\ data !! "id" = None.
Proof.
  intros Hp. rewrite !(parse_lookup _ _ _ _ Hp).
  rewrite bool_decide_eq_true_2 by (destruct e; closed_decision).
  rewrite bool_decide_eq_false_2 by (destruct e; closed_decision).
  by rewrite lookup_insert_eq.
Qed.

Lemma mem_create_entity_spec e now data (st : MemStorage.t) :
  exists x st',
    create_entity e now data st = Ok (x, st')
    /\ x !! "id" = Some (VNum (mem_counter (Some e) st))
    /\ x !! "userId" = data !! "userId"
    /\ mem_entities e st' = <[mem_counter (Some e) st := x]> (mem_entities e st)
    /\ mem_counter (Some e) st' = mem_counter (Some e) st + 1.
Proof.
  destruct e; simpl; do 2 eexists; (split; [reflexivity|]); simpl;
    repeat split; rewrite ?lookup_insert_ne by done;
    by rewrite ?lookup_insert_eq.
Qed.

Lemma pg_create_entity_row accepts e now data d x d' :
  @create_entity _ (PostgresStorage_IStorage accepts) e now data d
    = Ok (x, d') ->
  exists r,
    x = PostgresStorage.project (pg_fields e) r
    /\ PostgresStorage.rows (pg_table e) d'
       = <[PostgresStorage.nextval (pg_table e) d := r]>
           (PostgresStorage.rows (pg_table e) d)
    /\ r !! "id" = Some (VNum (PostgresStorage.nextval (pg_table e) d))
    /\ r !! "user_id" = Some (PostgresStorage.param (data !! "userId")).
Proof.
  intros Hc.
  assert (Huser : exists r values,
             PostgresStorage.sql_insert accepts now (pg_table e) values d
               = Ok (r, d')
             /\ x = PostgresStorage.project (pg_fields e) r
             /\ ("id" ∉ values.*1)
             /\ (list_to_map (reverse values) : gmap string value)
                  !! "user_id"
                = Some (PostgresStorage.param (data !! "userId"))).
  { revert Hc.
    destruct e; simpl;
      unfold PostgresStorage.createJobApplication,
             PostgresStorage.createDocument, PostgresStorage.createInterview,
             mbind, result_bind;
      (destruct (PostgresStorage.sql_insert _ _ _ _ _) as [[r d1]|] eqn:Hins;
       [|done]);
      intros [= <- <-]; do 2 eexists;
      (split; [exact Hins|]); (split; [done|]);
      (split; [closed_decision|]).
    all: cbn [reverse rev_append list_to_map foldr uncurry fst snd].
    all: by rewrite !lookup_insert_ne, lookup_insert_eq by done. }
  destruct Huser as (r & values & Hins & -> & Hid & Hu).
  exists r. split; [done|].
  destruct (pg_sql_insert_rows _ _ _ _ _ _ _ (pg_table e) Hins) as [-> _].
  rewrite decide_True by done. split; [done|].
  apply pg_sql_insert_Ok in Hins as [-> _]. split.
  - rewrite pg_assign_lookup_notin by done. apply pg_default_row_id.
  - by rewrite pg_assign_lookup, Hu.
Qed.

(** X10: what a create route creates belongs to the caller and gets the
    next identifier of its kind, whatever [userId] or [id] the body
    holds.  The in-memory store answers 201 whenever the body is valid. *)
Theorem post_creates_for_caller (e : entity) (now uid : Z) (body : obj) :
  (forall (st : MemStorage.t) data,
      parse (insert_schema e) (<["userId" := VNum uid]> body) = Some data ->
      exists created st',
        post_route e now (Some uid) body st
          = (Response 201 (Json created), st')
        /\ created !! "userId" = Some (VNum uid)
        /\ created !! "id" = Some (VNum (mem_counter (Some e) st))
        /\ get_entity e st' (mem_counter (Some e) st) = Ok (Some created))
  /\ (forall accepts (d : PostgresStorage.db) created d',
        @post_route _ (PostgresStorage_IStorage accepts) e now (Some uid)
          body d = (Response 201 (Json created), d') ->
        created !! "userId" = Some (VNum uid)
        /\ created !! "id" = Some (VNum (pg_counter (Some e) d))
        /\ @get_entity _ (PostgresStorage_IStorage accepts) e d'
             (pg_counter (Some e) d) = Ok (Some created)
        /\ exists r,
             PostgresStorage.rows (pg_table e) d' !! pg_counter (Some e) d
               = Some r
             /\ r !! "user_id" = Some (VNum uid)).
Proof.
  split.
  - intros st data Hp. rewrite post_route_parse, Hp.
    destruct (parse_userId _ _ _ _ Hp) as [Hu _].
    destruct (mem_create_entity_spec e now data st)
      as (x & st' & -> & Hid & Hx & Hst' & _).
    exists x, st'. split; [done|]. split; [by rewrite Hx|].
    split; [done|]. by rewrite mem_get_entity, Hst', lookup_insert_eq.
  - intros accepts d created d'. rewrite post_route_parse.
    destruct (parse _ _) as [data|] eqn:Hp; [|done].
    destruct (parse_userId _ _ _ _ Hp) as [Hu _].
    destruct (create_entity e now data d) as [[x d1]|] eqn:Hc; [|done].
    intros [= <- <-].
    apply pg_create_entity_row in Hc as (r & -> & Hrows & Hid & Hr).
    rewrite Hu in Hr. simpl in Hr.
    destruct (pg_project_key e r) as [Hpu Hpi].
    unfold pg_counter. split; [by rewrite Hpu|]. split; [by rewrite Hpi|].
    split.
    + by rewrite pg_get_entity, Hrows, lookup_insert_eq.
    + exists r. by rewrite Hrows, lookup_insert_eq.
Qed.

Lemma count_status_cons s (app : obj) l :
  count_status s (app :: l)
  = (if decide (app !! "status" = Some (VStr s)) then 1 else 0)
    + count_status s l.
Proof.
  unfold count_status. rewrite filter_cons.
  case_decide; simpl length; lia.
Qed.

Lemma known_status_cases (app : obj) :
  known_status app
  <-> app !! "status" = Some (VStr "applied")
      \/ app !! "status" = Some (VStr "interview")
      \/ app !! "status" = Some (VStr "offer")
      \/ app !! "status" = Some (VStr "rejected").
Proof.
  unfold known_status, statuses. cbn [fmap list_fmap].
  rewrite !elem_of_cons, elem_of_nil. tauto.
Qed.

Lemma counts_by_status (l : list obj) :
  count_status "applied" l + count_status "interview" l
  + count_status "offer" l + count_status "rejected" l
  = Z.of_nat (length (filter known_status l)).
Proof.
  induction l as [|app l IH]; [done|].
  rewrite !count_status_cons, filter_cons.
  pose proof (known_status_cases app) as Hk.
  destruct (decide (known_status app)) as [Hy|Hn].
  - simpl length. apply Hk in Hy.
    repeat case_decide; try (exfalso; by intuition congruence); try lia;
      congruence.
  - repeat case_decide; try lia; exfalso; apply Hn, Hk; auto.
Qed.

Lemma length_filter_all {A} (P : A -> Prop) `{!forall x, Decision (P x)}
    (l : list A) :
  length (filter P l) = length l <-> Forall P l.
Proof.
  induction l as [|x l IH]; [by split; [constructor|]|].
  rewrite filter_cons, Forall_cons.
  pose proof (length_filter P l) as Hle.
  destruct (decide (P x)) as [Hx|Hx]; simpl.
  - split.
    + intros [= Hl]. split; [done|]. by apply IH.
    + intros [_ Hl]. f_equal. by apply IH.
  - split; [lia|]. by intros [? _].
Qed.

(** X11: the four counts of the dashboard add up to the number of job
    applications whose status is one of the four: at most the total, and
    the total exactly when every application has such a status. *)
Theorem stats_counts_known_statuses (Date_parse : string -> option Z)
    (now : Z) (applications interviews : list obj) :
  let s := computeStats Date_parse now applications interviews in
  by_applied s + by_interview s + by_offer s + by_rejected s
    = Z.of_nat (length (filter known_status applications))
  /\ by_applied s + by_interview s + by_offer s + by_rejected s
     <= totalApplications s
  /\ (by_applied s + by_interview s + by_offer s + by_rejected s
      = totalApplications s <-> Forall known_status applications)
  /\ interviewsScheduled s = Z.of_nat (length interviews).
Proof.
  cbn zeta. cbn [computeStats by_applied by_interview by_offer by_rejected
                 totalApplications interviewsScheduled].
  rewrite counts_by_status.
  pose proof (length_filter known_status applications) as Hle.
  split; [done|]. split; [lia|]. split; [|done].
  rewrite <- length_filter_all. split; [apply Nat2Z.inj|by intros ->].
Qed.

(** *** The earliest date *)

Lemma min_time_right_comm a b c :
  min_time (min_time a b) c = min_time (min_time a c) b.
Proof. destruct a, b, c; simpl; try done. f_equal. lia. Qed.

Lemma min_time_comm a b : min_time a b = min_time b a.
Proof. destruct a, b; simpl; try done. f_equal. lia. Qed.

Lemma foldl_min_time_Permutation l l' :
  l ≡ₚ l' -> forall d, foldl min_time d l = foldl min_time d l'.
Proof.
  induction 1 as [|x l l' _ IH|x y l|l l' l'' _ IH1 _ IH2]; intros d; simpl.
  - done.
  - apply IH.
  - by rewrite min_time_right_comm.
  - by rewrite IH1.
Qed.

Lemma foldl_min_time_cons d x l :
  foldl min_time d (x :: l) = foldl min_time x (d :: l).
Proof. simpl. by rewrite min_time_comm. Qed.

(** [Math.min(...dates)] does not depend on the order of the dates. *)
Lemma Math_min_Permutation l l' :
  l ≡ₚ l' ->
  match l, l' with
  | d :: ds, d' :: ds' => Math_min d ds = Math_min d' ds'
  | [], [] => True
  | _, _ => False
  end.
Proof.
  unfold Math_min.
  induction 1 as [|x l l' H IH|x y l|l l' l'' H1 IH1 H2 IH2].
  - done.
  - by apply foldl_min_time_Permutation.
  - apply foldl_min_time_cons.
  - destruct l as [|d ds], l' as [|d' ds'], l'' as [|d'' ds'']; try done.
    by rewrite IH1.
Qed.

Lemma foldl_min_time_None l : foldl min_time None l = None.
Proof. induction l as [|x l IH]; [done|]. simpl. exact IH. Qed.

Lemma Math_min_invalid d ds : None ∈ d :: ds -> Math_min d ds = None.
Proof.
  unfold Math_min. revert d. induction ds as [|x ds IH]; intros d Hin.
  - by apply list_elem_of_singleton in Hin as <-.
  - simpl. apply elem_of_cons in Hin as [<-|Hin].
    + apply foldl_min_time_None.
    + apply elem_of_cons in Hin as [<-|Hin].
      * destruct d; apply foldl_min_time_None.
      * apply IH. destruct (min_time d x); [by right|by left].
Qed.

Lemma count_status_Permutation s l l' :
  l ≡ₚ l' -> count_status s l = count_status s l'.
Proof. unfold count_status. by intros ->. Qed.

(** X12: the statistics do not depend on the order in which the store
    lists the job applications and the interviews. *)
Theorem stats_order_independent (Date_parse : string -> option Z) (now : Z)
    (applications applications' interviews interviews' : list obj) :
  applications ≡ₚ applications' -> interviews ≡ₚ interviews' ->
  computeStats Date_parse now applications interviews
  = computeStats Date_parse now applications' interviews'.
Proof.
  intros Ha Hi. unfold computeStats.
  rewrite !(count_status_Permutation _ _ _ Ha).
  rewrite (Permutation_length Ha), (Permutation_length Hi).
  pose proof (Math_min_Permutation _ _
    (Permutation_map (fun app : obj =>
                        Date_getTime Date_parse (app !! "appliedDate")) Ha))
    as Hmin.
  destruct (map _ applications) as [|d ds], (map _ applications') as [|d' ds'];
    try done.
  by rewrite Hmin.
Qed.

Lemma stats_order_independent_witness :
  computeStats (fun _ => None) 1000
    [ {[ "status" := VStr "offer"; "appliedDate" := VDate 10 ]};
      {[ "status" := VStr "applied"; "appliedDate" := VDate 5 ]} ] []
  = computeStats (fun _ => None) 1000
      [ {[ "status" := VStr "applied"; "appliedDate" := VDate 5 ]};
        {[ "status" := VStr "offer"; "appliedDate" := VDate 10 ]} ] [].
Proof.
  apply stats_order_independent; [apply perm_swap|reflexivity].
Defined.

Lemma Date_getTime_map_elem Date_parse (app : obj) apps :
  app ∈ apps ->
  Date_getTime Date_parse (app !! "appliedDate")
  ∈ map (fun app : obj => Date_getTime Date_parse (app !! "appliedDate")) apps.
Proof. intros H. apply list_elem_of_fmap. eauto. Qed.

(** X13: one job application without a valid [appliedDate] makes
    [daysInSearch] [NaN]; and when every date is valid, none lies before
    the epoch and one is [null] (which [new Date] reads as the epoch),
    the days are counted from 1 January 1970. *)
Theorem stats_days_edge_cases (Date_parse : string -> option Z) (now : Z)
    (applications interviews : list obj) (app : obj) :
  app ∈ applications ->
  (Date_getTime Date_parse (app !! "appliedDate") = None ->
   daysInSearch (computeStats Date_parse now applications interviews) = None)
  /\ (app !! "appliedDate" = Some VNull ->
      Forall (fun a : obj =>
                exists t, Date_getTime Date_parse (a !! "appliedDate")
                          = Some t /\ 0 <= t) applications ->
      Z.abs now < 2 ^ 53 ->
      daysInSearch (computeStats Date_parse now applications interviews)
      = Some (now / 86400000)).
Proof.
  intros Hin. split.
  - intros Hbad. unfold computeStats. cbn [daysInSearch].
    pose proof (Date_getTime_map_elem Date_parse _ _ Hin) as Hel.
    rewrite Hbad in Hel.
    destruct (map _ applications) as [|d ds]; [by apply elem_of_nil in Hel|].
    by rewrite (Math_min_invalid d ds Hel).
  - intros Hnull Hall Hnow.
    assert (exists ts,
               Forall2 (fun (a : obj) t =>
                          Date_getTime Date_parse (a !! "appliedDate") = Some t)
                       applications ts
               /\ Forall (fun t => 0 <= t) ts) as (ts & Hts & Hpos).
    { clear Hin. induction Hall as [|a l (t & Ht & Hpos) _ (ts & IH1 & IH2)].
      - exists []. split; constructor.
      - exists (t :: ts). split; by constructor. }
    assert (Hzero : 0 ∈ ts).
    { clear Hpos Hall. induction Hts as [|a t l ts' Ha _ IH].
      - by apply elem_of_nil in Hin.
      - apply elem_of_cons in Hin as [<-|Hin].
        + rewrite Hnull in Ha. injection Ha as <-. by left.
        + right. by apply IH. }
    unfold computeStats. cbn [daysInSearch].
    inversion Hts as [|a t l ts' Ha Hrest]; subst;
      [by apply elem_of_nil in Hzero|].
    cbn [map]. rewrite Ha.
    destruct (Math_min_dates _ ts' t (applied_dates Date_parse _ _ Hrest))
      as (m & -> & Hm & Hleast).
    assert (m = 0) as ->.
    { pose proof (Hleast 0 Hzero). rewrite Forall_forall in Hpos.
      pose proof (Hpos m Hm). lia. }
    cbn [mbind option_bind]. rewrite Z.sub_0_r.
    exact (floor_divide_day now Hnow).
Qed.

Lemma stats_days_edge_cases_witness :
  daysInSearch
    (computeStats (fun _ => None) 259200005
       [ {[ "status" := VStr "applied"; "appliedDate" := VNull ]};
         {[ "status" := VStr "offer"; "appliedDate" := VDate 86400000 ]} ] [])
  = Some (259200005 / 86400000).
Proof.
  refine (proj2 (stats_days_edge_cases (fun _ => None) 259200005 _ []
                   {[ "status" := VStr "applied"; "appliedDate" := VNull ]} _)
            _ _ _).
  - by left.
  - reflexivity.
  - repeat constructor.
    + exists 0. split; [reflexivity|lia].
    + exists 86400000. split; [reflexivity|lia].
  - reflexivity.
Defined.

Lemma map_values_elem {A} (m : gmap Z A) (x : A) :
  x ∈ (map_to_list m).*2 <-> exists id, m !! id = Some x.
Proof.
  rewrite list_elem_of_fmap. split.
  - intros ([id y] & -> & Hin%elem_of_map_to_list). eauto.
  - intros (id & Hid). exists (id, x). split; [done|].
    by apply elem_of_map_to_list.
Qed.

Lemma pg_users_project_username (r : PostgresStorage.row) :
  PostgresStorage.project PostgresStorage.user_fields r !! "username"
  = r !! "username".
Proof.
  rewrite pg_project_lookup by apply pg_fields_NoDup.
  replace ((list_to_map PostgresStorage.user_fields : gmap string string)
             !! "username") with (Some "username")
    by (vm_compute; reflexivity).
  done.
Qed.

Lemma pg_createUser_row accepts now user d created d' :
  PostgresStorage.createUser accepts now user d = Ok (created, d') ->
  exists r,
    PostgresStorage.users d'
    = <[PostgresStorage.users_id_seq d := r]> (PostgresStorage.users d)
    /\ created = PostgresStorage.project PostgresStorage.user_fields r
    /\ r !! "username" = Some (PostgresStorage.param (user !! "username")).
Proof.
  unfold PostgresStorage.createUser, mbind, result_bind.
  destruct (PostgresStorage.sql_insert _ _ _ _ _) as [[r d1]|] eqn:Hins;
    [|done].
  intros [= <- <-]. exists r.
  destruct (pg_sql_insert_rows _ _ _ _ _ _ _ PostgresStorage.Users Hins)
    as [Hrows _].
  cbn [PostgresStorage.rows PostgresStorage.nextval] in Hrows.
  rewrite decide_True in Hrows by done. split; [exact Hrows|].
  split; [done|].
  apply pg_sql_insert_Ok in Hins as [-> _].
  rewrite pg_assign_lookup.
  cbn [reverse rev_append list_to_map foldr uncurry fst snd].
  by rewrite !lookup_insert_ne, lookup_insert_eq by done.
Qed.

(** *** Looking a user up by name *)

Lemma key_le_total : Total MemStorage.key_le.
Proof. intros a b. unfold MemStorage.key_le. lia. Qed.

Lemma key_le_trans : Transitive MemStorage.key_le.
Proof. intros a b c. unfold MemStorage.key_le. lia. Qed.

(** The first value that passes a test, in a list of entries in the
    order of their keys, is the one with the least key. *)
Lemma find_values_least (P : obj -> bool) (l : list (Z * obj)) :
  StronglySorted MemStorage.key_le l ->
  match List.find P l.*2 with
  | Some x =>
      P x = true
      /\ exists id, (id, x) ∈ l
           /\ forall id' y, (id', y) ∈ l -> P y = true -> id ≤ id'
  | None => forall id y, (id, y) ∈ l -> P y = false
  end.
Proof.
  induction 1 as [|[k v] l Hs IH Hhd].
  - intros id y Hin. by apply elem_of_nil in Hin.
  - change (List.find P ((k, v) :: l).*2)
      with (if P v then Some v else List.find P l.*2).
    destruct (P v) eqn:Hv.
    + split; [done|]. exists k. split; [by left|].
      intros id' y [[= -> ->]|Hin]%elem_of_cons _; [lia|].
      rewrite Forall_forall in Hhd. exact (Hhd _ Hin).
    + revert IH. destruct (List.find P l.*2) as [x|]; intros IH.
      * destruct IH as (Hx & id & Hin & Hleast). split; [done|].
        exists id. split; [by right|].
        intros id' y [[= -> ->]|Hin']%elem_of_cons Hy; [congruence|].
        by apply Hleast with y.
      * intros id y [[= -> ->]|Hin]%elem_of_cons; [done|].
        by apply IH with id.
Qed.

(** [find] over the values of a [Map]: the value of the least key, that
    is the one inserted first, among those that pass the test. *)
Lemma mem_find_values (P : obj -> bool) (m : gmap Z obj) :
  match List.find P (MemStorage.values m) with
  | Some x =>
      P x = true
      /\ exists id, m !! id = Some x
           /\ forall id' y, m !! id' = Some y -> P y = true -> id ≤ id'
  | None => forall id y, m !! id = Some y -> P y = false
  end.
Proof.
  unfold MemStorage.values.
  pose proof (@StronglySorted_merge_sort _ MemStorage.key_le _
                key_le_trans key_le_total (map_to_list m)) as Hs.
  pose proof (find_values_least P _ Hs) as Hfind.
  assert (Hin : forall id y,
             (id, y) ∈ merge_sort MemStorage.key_le (map_to_list m)
             <-> m !! id = Some y).
  { intros id y. rewrite merge_sort_Permutation.
    apply elem_of_map_to_list. }
  revert Hfind. destruct (List.find P _) as [x|]; intros Hfind.
  - destruct Hfind as (Hx & id & Hid & Hleast). split; [done|].
    exists id. split; [by apply Hin|].
    intros id' y Hy. apply Hleast. by apply Hin.
  - intros id y Hy. apply (Hfind id). by apply Hin.
Qed.

(** The keys of the users lie below the counter, in every store that the
    calls reach. *)
Lemma mem_step_users now o (st : MemStorage.t) :
  (forall id, is_Some (MemStorage.users st !! id) -> id < MemStorage.userId st) ->
  forall id, is_Some (MemStorage.users (step now o st).2 !! id) ->
             id < MemStorage.userId (step now o st).2.
Proof.
  intros Hinv id.
  destruct o as [u|e fields|e id' partial|e id']; simpl.
  - destruct (decide (id = MemStorage.userId st)) as [->|Hne]; [lia|].
    rewrite lookup_insert_ne by congruence.
    intros H%Hinv. lia.
  - destruct e; simpl; apply Hinv.
  - destruct e; simpl;
      unfold MemStorage.updateJobApplication, MemStorage.updateDocument,
             MemStorage.updateInterview;
      match goal with
      | |- context [match ?m !! id' with _ => _ end] => destruct (m !! id')
      end; simpl; apply Hinv.
  - destruct e; simpl; apply Hinv.
Qed.

Lemma mem_run_users ops : forall st : MemStorage.t,
  (forall id, is_Some (MemStorage.users st !! id) -> id < MemStorage.userId st) ->
  forall id, is_Some (MemStorage.users (run ops st) !! id) ->
             id < MemStorage.userId (run ops st).
Proof.
  induction ops as [|[now o] rest IH]; intros st Hinv; [done|].
  simpl. apply IH. by apply mem_step_users.
Qed.

Lemma mem_createUser_find now insertUser (st : MemStorage.t) username :
  insertUser !! "username" = Some (VStr username) ->
  (forall id, is_Some (MemStorage.users st !! id) -> id < MemStorage.userId st) ->
  MemStorage.getUserByUsername (MemStorage.createUser now insertUser st).2
    username
  = Some match MemStorage.getUserByUsername st username with
         | Some earlier => earlier
         | None => (MemStorage.createUser now insertUser st).1
         end.
Proof.
  intros Hu Hinv. unfold MemStorage.getUserByUsername.
  set (P := fun user : obj =>
              bool_decide (user !! "username" = Some (VStr username))).
  set (c := MemStorage.userId st).
  set (u := (MemStorage.createUser now insertUser st).1).
  assert (Hm : MemStorage.users (MemStorage.createUser now insertUser st).2
               = <[c := u]> (MemStorage.users st)) by done.
  rewrite Hm. clear Hm.
  assert (HPu : P u = true).
  { apply bool_decide_eq_true. subst u. simpl.
    by rewrite !lookup_insert_ne by done. }
  pose proof (mem_find_values P (MemStorage.users st)) as Hold.
  pose proof (mem_find_values P (<[c := u]> (MemStorage.users st))) as Hnew.
  revert Hnew Hold.
  destruct (List.find P (MemStorage.values (<[c := u]> _))) as [x'|];
    intros Hnew.
  - destruct Hnew as (Hx' & id1 & Hid1 & Hleast1).
    destruct (List.find P (MemStorage.values (MemStorage.users st)))
      as [x|]; intros Hold.
    + destruct Hold as (Hx & id0 & Hid0 & Hleast0).
      assert (Hlt : id0 < c) by (apply Hinv; eauto).
      assert (Hle : id1 ≤ id0).
      { apply (Hleast1 id0 x); [|done].
        rewrite lookup_insert_ne by lia. done. }
      rewrite lookup_insert_ne in Hid1 by lia.
      pose proof (Hleast0 id1 x' Hid1 Hx').
      assert (id1 = id0) as -> by lia. congruence.
    + destruct (decide (id1 = c)) as [->|Hne].
      * rewrite lookup_insert_eq in Hid1. congruence.
      * rewrite lookup_insert_ne in Hid1 by done.
        pose proof (Hold id1 x' Hid1). congruence.
  - intros _. pose proof (Hnew c u (lookup_insert_eq _ _ _)). congruence.
Qed.

Lemma pg_createUser_accepted accepts now user d created d' :
  PostgresStorage.createUser accepts now user d = Ok (created, d') ->
  exists r,
    PostgresStorage.users d'
    = <[PostgresStorage.users_id_seq d := r]> (PostgresStorage.users d)
    /\ created = PostgresStorage.project PostgresStorage.user_fields r
    /\ r !! "username" = Some (PostgresStorage.param (user !! "username"))
    /\ r !! "id" = Some (VNum (PostgresStorage.users_id_seq d))
    /\ accepts d PostgresStorage.Users r = true.
Proof.
  intros Hc.
  destruct (pg_createUser_row _ _ _ _ _ _ Hc) as (r & Hrows & Hcr & Hu).
  exists r. split; [done|]. split; [done|]. split; [done|].
  revert Hc. unfold PostgresStorage.createUser, mbind, result_bind.
  destruct (PostgresStorage.sql_insert _ _ _ _ _) as [[r1 d1]|] eqn:Hins;
    [|done].
  intros [= Hp <-].
  assert (r1 = r) as ->.
  { destruct (pg_sql_insert_rows _ _ _ _ _ _ _ PostgresStorage.Users Hins)
      as [Hrows1 _].
    cbn [PostgresStorage.rows PostgresStorage.nextval] in Hrows1.
    rewrite decide_True in Hrows1 by done. rewrite Hrows in Hrows1.
    assert (H : (<[PostgresStorage.users_id_seq d := r]>
                   (PostgresStorage.users d) : gmap Z _)
                !! PostgresStorage.users_id_seq d
                = (<[PostgresStorage.users_id_seq d := r1]>
                     (PostgresStorage.users d) : gmap Z _)
                  !! PostgresStorage.users_id_seq d) by by rewrite Hrows1.
    rewrite !lookup_insert_eq in H. congruence. }
  split.
  - pose proof Hins as Hins'. apply pg_sql_insert_Ok in Hins' as [-> _].
    rewrite pg_assign_lookup_notin by closed_decision.
    apply pg_default_row_id.
  - apply pg_sql_insert_constraints in Hins.
    unfold PostgresStorage.constraints_ok in Hins.
    by apply andb_true_iff in Hins as [Hins _].
Qed.

Lemma pg_users_project_id (r : PostgresStorage.row) :
  PostgresStorage.project PostgresStorage.user_fields r !! "id" = r !! "id".
Proof.
  rewrite pg_project_lookup by apply pg_fields_NoDup.
  replace ((list_to_map PostgresStorage.user_fields : gmap string string)
             !! "id") with (Some "id")
    by (vm_compute; reflexivity).
  done.
Qed.

(** X14: [getUserByUsername].  The in-memory store returns the user that
    was created first among those with the username asked for, and
    nothing only when no stored user has it; so a user created in a
    store that the calls have reached is found under its username
    unless an earlier user has the same one, which is then the one
    found.  The database store returns a stored user with that username,
    and nothing only when there is none; after a successful create a
    user with the username is found, and where the database enforces
    the [UNIQUE] of the DDL it has the [id] of the user just created. *)
Theorem getUserByUsername_finds (username : string) :
  (forall st : MemStorage.t,
      match MemStorage.getUserByUsername st username with
      | Some user =>
          user !! "username" = Some (VStr username)
          /\ exists id,
               MemStorage.getUser st id = Some user
               /\ forall id' user',
                    MemStorage.getUser st id' = Some user' ->
                    user' !! "username" = Some (VStr username) -> id ≤ id'
      | None =>
          forall id user, MemStorage.getUser st id = Some user ->
                          user !! "username" ≠ Some (VStr username)
      end)
  /\ (forall ops now insertUser,
        insertUser !! "username" = Some (VStr username) ->
        MemStorage.getUserByUsername
          (MemStorage.createUser now insertUser
             (run ops MemStorage.init)).2 username
        = Some match MemStorage.getUserByUsername
                       (run ops MemStorage.init) username with
               | Some earlier => earlier
               | None => (MemStorage.createUser now insertUser
                            (run ops MemStorage.init)).1
               end)
  /\ (forall d : PostgresStorage.db,
        match PostgresStorage.getUserByUsername d username with
        | Ok (Some user) =>
            (exists id, PostgresStorage.getUser d id = Ok (Some user))
            /\ user !! "username" = Some (VStr username)
        | Ok None =>
            forall id r, PostgresStorage.users d !! id = Some r ->
                         r !! "username" ≠ Some (VStr username)
        | Throw _ => False
        end)
  /\ (forall accepts now user (d : PostgresStorage.db) created d',
        (String.length username ≤ 50)%nat ->
        user !! "username" = Some (VStr username) ->
        PostgresStorage.createUser accepts now user d = Ok (created, d') ->
        created !! "username" = Some (VStr username)
        /\ exists found,
             PostgresStorage.getUserByUsername d' username = Ok (Some found)
             /\ found !! "username" = Some (VStr username))
  /\ (forall now user (d : PostgresStorage.db) created d',
        user !! "username" = Some (VStr username) ->
        PostgresStorage.createUser PostgresStorage.ddl_accepts now user d
          = Ok (created, d') ->
        created !! "id" = Some (VNum (PostgresStorage.users_id_seq d))
        /\ exists found,
             PostgresStorage.getUserByUsername d' username = Ok (Some found)
             /\ found !! "username" = Some (VStr username)
             /\ found !! "id" = created !! "id").
Proof.
  assert (Hpg : forall d : PostgresStorage.db,
             match PostgresStorage.getUserByUsername d username with
             | Ok (Some user) =>
                 exists id r,
                   PostgresStorage.users d !! id = Some r
                   /\ r !! "username" = Some (VStr username)
                   /\ user = PostgresStorage.project
                               PostgresStorage.user_fields r
             | Ok None =>
                 forall id r, PostgresStorage.users d !! id = Some r ->
                              r !! "username" ≠ Some (VStr username)
             | Throw _ => False
             end).
  { intros d. unfold PostgresStorage.getUserByUsername.
    destruct (head _) as [r|] eqn:Hh; cbn [fmap option_fmap option_map].
    - apply head_Some_elem_of, list_elem_of_filter in Hh as [Hu Hin].
      apply map_values_elem in Hin as [id Hid]. eauto.
    - intros id r Hid Hu. apply head_None in Hh.
      assert (Hin : r ∈ filter (fun r : PostgresStorage.row =>
                                  r !! "username" = Some (VStr username))
                               (map_to_list (PostgresStorage.users d)).*2).
      { apply list_elem_of_filter. split; [done|].
        apply map_values_elem. eauto. }
      rewrite Hh in Hin. by apply elem_of_nil in Hin. }
  split; [|split; [|split; [|split]]].
  - intros st. unfold MemStorage.getUserByUsername, MemStorage.getUser.
    pose proof (mem_find_values
                  (fun user : obj =>
                     bool_decide (user !! "username" = Some (VStr username)))
                  (MemStorage.users st)) as Hfind.
    revert Hfind. destruct (List.find _ _) as [user|]; intros Hfind.
    + destruct Hfind as (Hu%bool_decide_eq_true & id & Hid & Hleast).
      split; [done|]. exists id. split; [done|].
      intros id' user' Hid' Hu'. apply (Hleast id' user' Hid').
      by apply bool_decide_eq_true.
    + intros id user Hid Hu. specialize (Hfind id user Hid).
      by apply bool_decide_eq_false in Hfind.
  - intros ops now insertUser Hu.
    apply mem_createUser_find; [done|].
    apply mem_run_users. intros id [x Hx].
    change ((∅ : gmap Z obj) !! id = Some x) in Hx.
    by rewrite lookup_empty in Hx.
  - intros d. specialize (Hpg d). revert Hpg.
    destruct (PostgresStorage.getUserByUsername d username)
      as [[user|]|]; intros Hpg; [|done|done].
    destruct Hpg as (id & r & Hid & Hu & ->). split.
    + exists id. unfold PostgresStorage.getUser,
                        PostgresStorage.sql_select_by_id.
      cbn [PostgresStorage.rows]. by rewrite Hid.
    + by rewrite pg_users_project_username.
  - intros accepts now user d created d' _ Hu Hc.
    apply pg_createUser_accepted in Hc as (r & Hrows & -> & Hr & _ & _).
    rewrite Hu in Hr. split; [by rewrite pg_users_project_username|].
    specialize (Hpg d'). revert Hpg.
    destruct (PostgresStorage.getUserByUsername d' username)
      as [[found|]|]; intros Hpg; [|exfalso|done].
    + destruct Hpg as (id & r' & _ & Hu' & ->). eexists. split; [done|].
      by rewrite pg_users_project_username.
    + apply (Hpg (PostgresStorage.users_id_seq d) r); [|done].
      rewrite Hrows. apply lookup_insert_eq.
  - intros now user d created d' Hu Hc.
    apply pg_createUser_accepted in Hc as (r & Hrows & -> & Hr & Hid & Hacc).
    rewrite Hu in Hr. simpl in Hr. rewrite pg_users_project_id.
    split; [done|].
    specialize (Hpg d'). revert Hpg.
    destruct (PostgresStorage.getUserByUsername d' username)
      as [[found|]|]; intros Hpg; [|exfalso|done].
    + destruct Hpg as (id & r' & Hr' & Hu' & ->). eexists. split; [done|].
      rewrite pg_users_project_username, !pg_users_project_id.
      split; [done|].
      rewrite Hrows in Hr'.
      destruct (decide (id = PostgresStorage.users_id_seq d)) as [->|Hne].
      * rewrite lookup_insert_eq in Hr'. congruence.
      * rewrite lookup_insert_ne in Hr' by done.
        unfold PostgresStorage.ddl_accepts in Hacc.
        apply andb_true_iff in Hacc as [_ Hfree].
        unfold PostgresStorage.username_free in Hfree.
        rewrite forallb_forall in Hfree.
        assert (Hin : In r' (map_to_list (PostgresStorage.users d)).*2).
        { apply list_elem_of_In, map_values_elem. eauto. }
        specialize (Hfree r' Hin).
        apply orb_true_iff in Hfree as [H|H].
        -- by apply bool_decide_eq_true in H.
        -- apply bool_decide_eq_true in H. congruence.
    + apply (Hpg (PostgresStorage.users_id_seq d) r); [|done].
      rewrite Hrows. apply lookup_insert_eq.
Qed.

(** Two users created under one name: the first is the one found. *)
Example mem_getUserByUsername_first :
  MemStorage.getUserByUsername
    (run [ (1, CreateUser alice); (2, CreateUser alice) ] MemStorage.init)
    "alice" ≫= (fun user : obj => user !! "id")
  = Some (VNum 1).
Proof. vm_compute. reflexivity. Qed.

(** Twelve job applications are listed in the order of their creation. *)
Example mem_list_in_creation_order :
  (fun x : obj => x !! "id")
    <$> MemStorage.getJobApplicationsByUserId
          (run (replicate 12
                  (0, Create Application (<["userId" := VNum 1]> acme)))
               MemStorage.init) 1
  = (fun i => Some (VNum i)) <$> seqZ 1 12.
Proof. vm_compute. reflexivity. Qed.


(** *** The board *)

Lemma column_elem s jobs (job : obj) :
  job ∈ JobBoard.column s (Some jobs)
  <-> job ∈ jobs /\ job !! "status" = Some (VStr s).
Proof. unfold JobBoard.column. rewrite list_elem_of_filter. tauto. Qed.

Lemma column_length s jobs :
  Z.of_nat (length (JobBoard.column s (Some jobs))) = count_status s jobs.
Proof. reflexivity. Qed.

(** X15: the four columns of the board hold exactly the job applications
    whose status is one of the four, each in the column of its status
    and in no other; their sizes are the four counts of the dashboard,
    computed from the same store; an application with any other status
    is on no column. *)
Theorem board_columns {S : Type} `{!IStorage S}
    (Date_parse : string -> option Z) (now uid : Z) (st : S)
    (jobs : list obj) (s : stats) :
  get_applications (Some uid) st = (Response 200 (JsonList jobs), st) ->
  get_stats Date_parse now (Some uid) st = (Response 200 (JsonStats s), st) ->
  (forall job status,
      job ∈ JobBoard.column status (Some jobs)
      <-> job ∈ jobs /\ job !! "status" = Some (VStr status))
  /\ (forall job,
        job ∈ jobs ->
        (exists status, status ∈ statuses
                        /\ job ∈ JobBoard.column status (Some jobs))
        <-> known_status job)
  /\ Z.of_nat (length (JobBoard.appliedJobs (Some jobs))) = by_applied s
  /\ Z.of_nat (length (JobBoard.interviewJobs (Some jobs))) = by_interview s
  /\ Z.of_nat (length (JobBoard.offerJobs (Some jobs))) = by_offer s
  /\ Z.of_nat (length (JobBoard.rejectedJobs (Some jobs))) = by_rejected s.
Proof.
  unfold get_applications, get_stats, isAuthenticated, try_catch,
         mbind, result_bind.
  destruct (getJobApplicationsByUserId st uid) as [l|]; [|done].
  intros [= <-].
  destruct (getInterviewsByUserId st uid) as [l'|]; [|done].
  intros [= <-].
  split; [intros job status; apply column_elem|].
  split; [|by repeat split].
  intros job Hin. unfold known_status. rewrite list_elem_of_fmap.
  split.
  - intros (status & Hs & Hc%column_elem). exists status. by destruct Hc.
  - intros (status & Hst & Hs). exists status. split; [done|].
    by apply column_elem.
Qed.

Lemma board_columns_witness :
  Z.of_nat (length (JobBoard.appliedJobs (Some [acme_stored])))
  = by_applied (computeStats (fun _ => None) 2000 [acme_stored] []).
Proof.
  refine (proj1 (proj2 (proj2
    (board_columns (fun _ => None) 2000 1 mem_one_application [acme_stored]
       (computeStats (fun _ => None) 2000 [acme_stored] []) _ _)))).
  - vm_compute. reflexivity.
  - vm_compute. reflexivity.
Defined.

(** *** The document list *)

(** X16: the three groups of the document list split the documents, each
    group in the order of the list: the resumes are the documents whose
    [type] is "resume", the cover letters those whose [type] is
    "cover_letter", and the others all the rest, a document without a
    [type] among them; so every document is in exactly one group. *)
Theorem documents_list_partition (documents : list obj) :
  (forall doc,
      (doc ∈ DocumentsList.resumeDocuments (Some documents)
       <-> doc ∈ documents /\ doc !! "type" = Some (VStr "resume"))
      /\ (doc ∈ DocumentsList.coverLetterDocuments (Some documents)
          <-> doc ∈ documents /\ doc !! "type" = Some (VStr "cover_letter"))
      /\ (doc ∈ DocumentsList.otherDocuments (Some documents)
          <-> doc ∈ documents
              /\ doc !! "type" ≠ Some (VStr "resume")
              /\ doc !! "type" ≠ Some (VStr "cover_letter")))
  /\ documents ≡ₚ
       DocumentsList.resumeDocuments (Some documents)
       ++ DocumentsList.coverLetterDocuments (Some documents)
       ++ DocumentsList.otherDocuments (Some documents)
  /\ sublist (DocumentsList.resumeDocuments (Some documents)) documents
  /\ sublist (DocumentsList.coverLetterDocuments (Some documents)) documents
  /\ sublist (DocumentsList.otherDocuments (Some documents)) documents
  /\ (forall doc,
        ¬ (doc ∈ DocumentsList.resumeDocuments (Some documents)
           /\ doc ∈ DocumentsList.coverLetterDocuments (Some documents))
        /\ ¬ (doc ∈ DocumentsList.resumeDocuments (Some documents)
              /\ doc ∈ DocumentsList.otherDocuments (Some documents))
        /\ ¬ (doc ∈ DocumentsList.coverLetterDocuments (Some documents)
              /\ doc ∈ DocumentsList.otherDocuments (Some documents)))
  /\ DocumentsList.resumeDocuments None = []
  /\ DocumentsList.coverLetterDocuments None = []
  /\ DocumentsList.otherDocuments None = [].
Proof.
  unfold DocumentsList.resumeDocuments, DocumentsList.coverLetterDocuments,
         DocumentsList.otherDocuments.
  assert (Hother : forall x : option value,
            x ∉ [Some (VStr "resume"); Some (VStr "cover_letter")]
            <-> x ≠ Some (VStr "resume") /\ x ≠ Some (VStr "cover_letter")).
  { intros x. rewrite !not_elem_of_cons. pose proof (not_elem_of_nil x).
    tauto. }
  split; [|split; [|split; [|split; [|split; [|split]]]]].
  - intros doc. rewrite !list_elem_of_filter, Hother. tauto.
  - induction documents as [|doc l IH]; [done|].
    rewrite !filter_cons.
    destruct (decide (doc !! "type" = Some (VStr "resume"))) as [Hr|Hr].
    + rewrite decide_False by (by rewrite Hr).
      rewrite decide_False by (rewrite Hother; tauto).
      simpl. by constructor.
    + destruct (decide (doc !! "type" = Some (VStr "cover_letter")))
        as [Hc|Hc].
      * rewrite decide_False by (rewrite Hother; tauto).
        simpl. rewrite <- Permutation_middle. by constructor.
      * rewrite decide_True by (by rewrite Hother).
        rewrite app_assoc, <- Permutation_middle, <- app_assoc.
        by constructor.
  - apply sublist_filter.
  - apply sublist_filter.
  - apply sublist_filter.
  - intros doc. rewrite !list_elem_of_filter, Hother. repeat split.
    + intros [[Hr _] [Hc _]]. congruence.
    + intros [[Hr _] [[Ho _] _]]. done.
    + intros [[Hc _] [[_ Ho] _]]. done.
  - done.
Qed.

(** *** The date on a card *)

Lemma div_day_0 d : d / 86400000 = 0 <-> 0 <= d < 86400000.
Proof.
  split.
  - intros H. pose proof (Z.div_mod d 86400000 ltac:(lia)).
    pose proof (Z.mod_pos_bound d 86400000 ltac:(lia)). lia.
  - intros H. by apply Z.div_small.
Qed.

Lemma div_day_1 d : d / 86400000 = 1 <-> 86400000 <= d < 2 * 86400000.
Proof.
  split.
  - intros H. pose proof (Z.div_mod d 86400000 ltac:(lia)).
    pose proof (Z.mod_pos_bound d 86400000 ltac:(lia)). lia.
  - intros H. symmetry. apply (Z.div_unique d 86400000 1 (d - 86400000)); lia.
Qed.

(** X17: the date on a job card: nothing for a missing, [null] or empty
    date; "NaNd ago" for a date that does not parse; otherwise "Today"
    from the applied instant until just under a day later, "Yesterday"
    for the day after, and the floor of the number of days followed by
    "d ago" beyond that and, with a negative number, for every date in
    the future of the clock. *)
Theorem job_card_formatDate (Date_parse : string -> option Z) (now : Z) :
  JobCard.formatDate Date_parse now None = ""
  /\ JobCard.formatDate Date_parse now (Some VNull) = ""
  /\ JobCard.formatDate Date_parse now (Some (VStr "")) = ""
  /\ (forall v, truthy v = true ->
        Date_getTime Date_parse (Some v) = None ->
        JobCard.formatDate Date_parse now (Some v) = "NaNd ago")
  /\ (forall v t, truthy v = true ->
        Date_getTime Date_parse (Some v) = Some t ->
        Z.abs (now - t) < 2 ^ 53 ->
        JobCard.formatDate Date_parse now (Some v)
        = if decide (0 <= now - t < 86400000) then "Today"
          else if decide (86400000 <= now - t < 2 * 86400000)
               then "Yesterday"
               else Number_toString (Some ((now - t) / 86400000)) ++ "d ago").
Proof.
  split; [done|]. split; [done|]. split; [done|]. split.
  - intros v Hv Hd. unfold JobCard.formatDate. by rewrite Hv, Hd.
  - intros v t Hv Hd Hdiff. unfold JobCard.formatDate.
    rewrite Hv, Hd. cbn [negb mbind option_bind].
    change (1000 * 60 * 60 * 24) with day.
    rewrite (floor_divide_day _ Hdiff). change day with 86400000.
    destruct (decide (0 <= now - t < 86400000)) as [H0|H0].
    { by rewrite decide_True by (f_equal; by apply div_day_0). }
    rewrite decide_False by (intros [= H]; by apply div_day_0 in H).
    destruct (decide (86400000 <= now - t < 2 * 86400000)) as [H1|H1].
    { by rewrite decide_True by (f_equal; by apply div_day_1). }
    by rewrite decide_False by (intros [= H]; by apply div_day_1 in H).
Qed.

(** *** The form of the add-job dialog and the create route *)

(** What [parse] returns passes the schema itself. *)
Lemma parse_result_ok schema input data f :
  parse schema input = Some data -> f ∈ schema ->
  field_ok data f = true.
Proof.
  intros Hp Hf. pose proof (parse_field_ok _ _ _ _ Hp Hf) as Hok.
  unfold field_ok in *. rewrite (parse_lookup _ _ _ _ Hp).
  rewrite bool_decide_eq_true_2; [done|].
  apply list_elem_of_fmap. by exists f.
Qed.

Lemma insert_schema_of_form :
  insertJobApplicationSchema
  = ZField "userId" CInteger false false
    :: omit ["userId"; "id"; "updatedAt"; "appliedDate"]
            insertJobApplicationSchema
    ++ [ZField "appliedDate" CTimestamp true true].
Proof. vm_compute. reflexivity. Qed.

Lemma form_keys :
  ("userId" ∉ map z_key (omit ["userId"; "id"; "updatedAt"; "appliedDate"]
                              insertJobApplicationSchema))
  /\ ("appliedDate" ∉ map z_key (omit ["userId"; "id"; "updatedAt";
                                       "appliedDate"]
                                      insertJobApplicationSchema))
  /\ "company" ∈ map z_key (omit ["userId"; "id"; "updatedAt"; "appliedDate"]
                                 insertJobApplicationSchema)
  /\ "position" ∈ map z_key (omit ["userId"; "id"; "updatedAt";
                                   "appliedDate"]
                                  insertJobApplicationSchema).
Proof. repeat split; closed_decision. Qed.

Lemma job_form_parses uid data form :
  AddJobModal.jobFormSchema data = Some form ->
  is_Some (parse insertJobApplicationSchema (<["userId" := VNum uid]> form)).
Proof.
  unfold AddJobModal.jobFormSchema.
  destruct (_ && _); [|done]. intros Hp.
  destruct form_keys as (Hu & Ha & _).
  apply parse_is_Some. rewrite insert_schema_of_form.
  cbn [forallb]. rewrite forallb_app. cbn [forallb].
  rewrite !andb_true_iff. split; [|split; [|split; [|done]]].
  - unfold field_ok. simpl. by rewrite lookup_insert_eq.
  - apply forallb_forall. intros f Hf%list_elem_of_In.
    pose proof (parse_result_ok _ _ _ _ Hp Hf) as Hok.
    unfold field_ok in *. rewrite lookup_insert_ne; [done|].
    intros E. apply Hu.
    assert (Hin : z_key f ∈ map z_key
              (omit ["userId"; "id"; "updatedAt"; "appliedDate"]
                    insertJobApplicationSchema))
      by (apply list_elem_of_fmap; by exists f).
    by rewrite <- E in Hin.
  - unfold field_ok. cbn [z_key z_optional].
    rewrite lookup_insert_ne by done.
    rewrite (parse_lookup _ _ _ _ Hp), bool_decide_eq_false_2; done.
Qed.

(** X18: what the add-job form accepts, the create route accepts: a form
    that passes [jobFormSchema] is never answered with 400, and the
    in-memory store answers 201 and stores its company, which is not
    empty.  The route itself asks less than the form: it takes the
    empty string as company, which the form refuses. *)
Theorem job_form_is_accepted (data form : obj) (now uid : Z) :
  AddJobModal.jobFormSchema data = Some form ->
  (forall (S : Type) (I : IStorage S) (st : S),
      status (@post_applications S I now (Some uid) form st).1 ≠ 400)
  /\ (exists c, form !! "company" = Some (VStr c) /\ c ≠ "")
  /\ (forall st : MemStorage.t,
        exists created st',
          post_applications now (Some uid) form st
            = (Response 201 (Json created), st')
          /\ created !! "company" = form !! "company"
          /\ created !! "userId" = Some (VNum uid))
  /\ (forall (S : Type) (I : IStorage S) (st : S),
        status (@post_applications S I now (Some uid)
                  (<["company" := VStr ""]> form) st).1 ≠ 400)
  /\ AddJobModal.jobFormSchema (<["company" := VStr ""]> data) = None.
Proof.
  intros Hform.
  destruct (job_form_parses uid _ _ Hform) as [parsed Hparsed].
  split; [|split; [|split; [|split]]].
  - intros S I st.
    change (@post_applications S I now (Some uid) form st)
      with (@post_route S I Application now (Some uid) form st).
    rewrite post_route_parse. cbn [insert_schema]. rewrite Hparsed.
    by destruct (create_entity _ _ _ _) as [[? ?]|].
  - revert Hform. unfold AddJobModal.jobFormSchema.
    destruct (AddJobModal.string_min 1 (data !! "company")) eqn:Hc; [|done].
    destruct (AddJobModal.string_min 1 (data !! "position")); [|done].
    cbn [andb]. intros Hp. destruct form_keys as (_ & _ & Hk & _).
    rewrite (parse_lookup _ _ _ "company" Hp), bool_decide_eq_true_2 by done.
    unfold AddJobModal.string_min in Hc.
    destruct (data !! "company") as [[]|]; try done.
    eexists. split; [done|]. intros ->.
    apply bool_decide_eq_true in Hc. simpl in Hc. lia.
  - intros st.
    change (post_applications now (Some uid) form st)
      with (post_route Application now (Some uid) form st).
    rewrite post_route_parse. cbn [insert_schema]. rewrite Hparsed.
    destruct (parse_userId Application _ _ _ Hparsed) as [Hu _].
    do 2 eexists. split; [reflexivity|]. simpl.
    rewrite !lookup_insert_ne by done. split; [|done].
    rewrite (parse_lookup _ _ _ "company" Hparsed).
    rewrite insertJobApplicationSchema_fields.
    rewrite bool_decide_eq_true_2 by closed_decision.
    by rewrite lookup_insert_ne.
  - intros S I st.
    change (@post_applications S I now (Some uid)
              (<["company" := VStr ""]> form) st)
      with (@post_route S I Application now (Some uid)
              (<["company" := VStr ""]> form) st).
    rewrite post_route_parse. cbn [insert_schema].
    assert (Hsome : is_Some (parse insertJobApplicationSchema
               (<["userId" := VNum uid]> (<["company" := VStr ""]> form)))).
    { apply parse_is_Some.
      assert (Hok : forallb (field_ok (<["userId" := VNum uid]> form))
                      insertJobApplicationSchema = true)
        by (apply parse_is_Some; eauto).
      revert Hok. rewrite insertJobApplicationSchema_fields.
      unfold field_ok. cbn [forallb z_key z_type z_nullable z_optional].
      repeat (rewrite lookup_insert_eq || rewrite lookup_insert_ne by done).
      cbn [has_type]. destruct (form !! "company") as [[]|]; try done. }
    destruct Hsome as [parsed' ->].
    by destruct (create_entity _ _ _ _) as [[? ?]|].
  - unfold AddJobModal.jobFormSchema. by rewrite lookup_insert_eq.
Qed.

Lemma job_form_is_accepted_witness :
  exists form,
    AddJobModal.jobFormSchema acme = Some form
    /\ (exists c, form !! "company" = Some (VStr c) /\ c ≠ "")
    /\ forall st : MemStorage.t,
         exists created st',
           post_applications 2000 (Some 1) form st
           = (Response 201 (Json created), st')
           /\ created !! "company" = form !! "company"
           /\ created !! "userId" = Some (VNum 1).
Proof.
  destruct (AddJobModal.jobFormSchema acme) as [form|] eqn:Hform;
    [|by vm_compute in Hform].
  exists form. split; [reflexivity|].
  destruct (job_form_is_accepted acme form 2000 1 Hform)
    as (_ & Hc & Hmem & _).
  by split.
Defined.

(** *** The status buttons of a card *)









